(** * Contribute_Checker.project_tracker: the tracker of contributors

    A shallow embedding of [ProjectTracker] (Python,
    src/Contribute_Checker/project_tracker.py) and of the properties its
    specification states for it.

    Layout:
    - [DateTime]: the part of [datetime] the tracker uses ([isoformat],
      [fromisoformat]);
    - [Py]: Python built-ins the code relies on (insertion-ordered [dict],
      stable [sorted] with [reverse=True], [sum], slices);
    - the [Contributor] class, of which only the uses are in the sources;
    - [ProjectTracker]: state, the world it acts on (data file, the
      installed Python, printed lines, notifications) and its operations;
    - [Heap]: the analytics operations once more, over a store of mutable
      Python objects, to account for aliasing and in-place updates;
    - the properties. *)

From Stdlib Require Import ZArith NArith String Ascii List Lia Bool.
From Stdlib Require Import Sorted Permutation.
From stdpp Require Import base option list gmap strings.

Local Open Scope list_scope.

(* ================================================================== *)
(** * Dates and times *)
(* ================================================================== *)

Module DateTime.

(** A [datetime.datetime]: the fields of the constructor, and of its
    [tzinfo] the offset from UTC, in microseconds.  A naive datetime, as
    [datetime.now()] returns it, has none. *)
Record datetime := mk_datetime {
  year : N; month : N; day : N;
  hour : N; minute : N; second : N; microsecond : N;
  utcoffset : option Z
}.

#[global] Instance datetime_eq_dec : EqDecision datetime.
Proof. solve_decision. Defined.

Definition is_leap (y : N) : bool :=
  ((y mod 4 =? 0) && negb (y mod 100 =? 0) || (y mod 400 =? 0))%N.

Definition days_in_month (y m : N) : N :=
  match m with
  | 1 | 3 | 5 | 7 | 8 | 10 | 12 => 31
  | 4 | 6 | 9 | 11 => 30
  | 2 => if is_leap y then 29 else 28
  | _ => 0
  end%N.

(** The offset of a [timezone] lies strictly between minus and plus 24
    hours. *)
Definition valid_offset (off : Z) : bool :=
  ((-86400000000 <? off) && (off <? 86400000000))%Z.

(** The range checks of the [datetime] and [timezone] constructors. *)
Definition valid (d : datetime) : bool :=
  ((1 <=? year d) && (year d <=? 9999) &&
   (1 <=? month d) && (month d <=? 12) &&
   (1 <=? day d) && (day d <=? days_in_month (year d) (month d)) &&
   (hour d <? 24) && (minute d <? 60) && (second d <? 60) &&
   (microsecond d <? 1000000))%N
  && from_option valid_offset true (utcoffset d).

(** ** Decimal fields *)

Definition digit (n : N) : ascii := ascii_of_N (48 + n mod 10).

Definition digit_of (c : ascii) : option N :=
  let n := N_of_ascii c in
  if ((48 <=? n) && (n <=? 57))%N then Some (n - 48)%N else None.

Fixpoint number_of (s : string) (acc : N) : option N :=
  match s with
  | EmptyString => Some acc
  | String c s' =>
      match digit_of c with
      | Some d => number_of s' (10 * acc + d)%N
      | None => None
      end
  end.

(** Strings of two, four and six characters. *)
Definition s2 (a b : ascii) : string := String a (String b EmptyString).
Definition s4 (a b c d : ascii) : string := String a (String b (s2 c d)).
Definition s6 (a b c d e f : ascii) : string :=
  String a (String b (s4 c d e f)).

(** [n] in decimal, zero-padded to a fixed width. *)
Definition zfill2 (n : N) : string := s2 (digit (n / 10)) (digit n).

Definition zfill4 (n : N) : string :=
  s4 (digit (n / 1000)) (digit (n / 100)) (digit (n / 10)) (digit n).

Definition zfill6 (n : N) : string :=
  s6 (digit (n / 100000)) (digit (n / 10000)) (digit (n / 1000))
     (digit (n / 100)) (digit (n / 10)) (digit n).

(** ** [datetime.isoformat()]

    [YYYY-MM-DDTHH:MM:SS], followed by [.ffffff] when the microsecond
    is not zero, and for an aware datetime by the offset, [+HH:MM] or
    [-HH:MM], with [:SS] when the offset has seconds or microseconds and
    [.ffffff] when it has microseconds. *)
Definition sign_char (negative : bool) : ascii :=
  if negative then "-"%char else "+"%char.

Definition format_offset (off : option Z) : string :=
  match off with
  | None => EmptyString
  | Some off =>
      let a := Z.to_N (Z.abs off) in
      let hh := (a / 3600000000)%N in
      let mm := ((a / 60000000) mod 60)%N in
      let ss := ((a / 1000000) mod 60)%N in
      let us := (a mod 1000000)%N in
      String (sign_char (off <? 0)%Z)
        (zfill2 hh +:+ ":" +:+ zfill2 mm
         +:+ (if (us =? 0)%N
              then if (ss =? 0)%N then EmptyString else ":" +:+ zfill2 ss
              else ":" +:+ zfill2 ss +:+ "." +:+ zfill6 us))
  end.

Definition isoformat (d : datetime) : string :=
  zfill4 (year d) +:+ "-" +:+ zfill2 (month d) +:+ "-" +:+ zfill2 (day d)
    +:+ "T" +:+ zfill2 (hour d) +:+ ":" +:+ zfill2 (minute d) +:+ ":"
    +:+ zfill2 (second d)
    +:+ (if (microsecond d =? 0)%N then format_offset (utcoffset d)
         else "." +:+ zfill6 (microsecond d)
              +:+ format_offset (utcoffset d)).

(** ** [datetime.fromisoformat(s)]

    Every version of Python that has the method reads the layouts that
    [isoformat()] writes, and reads them alike: [YYYY-MM-DD], optionally
    followed by one separator character and [HH], [HH:MM], [HH:MM:SS],
    [HH:MM:SS.fff] or [HH:MM:SS.ffffff]; and a time with seconds may be
    followed by an offset [+HH:MM], [+HH:MM:SS] or [+HH:MM:SS.ffffff]
    (or with [-]).  [parse_isoformat] reads these, with the fields in
    the ranges of the constructors.  What the method makes of any other
    text depends on the version (since 3.11 it reads most of ISO 8601):
    that answer is a parameter of [fromisoformat] below. *)
Definition field (a n : nat) (s : string) : option N :=
  number_of (substring a n s) 0.

Definition char_is (a : nat) (c : ascii) (s : string) : bool :=
  match String.get a s with
  | Some x => Ascii.eqb x c
  | None => false
  end.

(** [s[n:]] *)
Fixpoint skip (n : nat) (s : string) : string :=
  match n, s with
  | S n', String _ s' => skip n' s'
  | _, _ => s
  end.

Definition checked (d : datetime) : option datetime :=
  if valid d then Some d else None.

Definition parse_naive (s : string) : option datetime :=
  if negb (char_is 4 "-"%char s && char_is 7 "-"%char s) then None else
  y ← field 0 4 s; m ← field 5 2 s; d ← field 8 2 s;
  let hh := field 11 2 s in
  let mm := if char_is 13 ":"%char s then field 14 2 s else None in
  let ss := if char_is 16 ":"%char s then field 17 2 s else None in
  let frac n := if char_is 19 "."%char s then field 20 n s else None in
  match String.length s with
  | 10 => checked (mk_datetime y m d 0 0 0 0 None)
  | 13 => h ← hh; checked (mk_datetime y m d h 0 0 0 None)
  | 16 => h ← hh; mi ← mm; checked (mk_datetime y m d h mi 0 0 None)
  | 19 => h ← hh; mi ← mm; se ← ss;
          checked (mk_datetime y m d h mi se 0 None)
  | 23 => h ← hh; mi ← mm; se ← ss; ms ← frac 3%nat;
          checked (mk_datetime y m d h mi se (ms * 1000) None)
  | 26 => h ← hh; mi ← mm; se ← ss; us ← frac 6%nat;
          checked (mk_datetime y m d h mi se us None)
  | _ => None
  end.

(** The offset, from its sign on. *)
Definition offset_of (negative : bool) (hh mm ss us : N) : option Z :=
  if ((hh <? 24) && (mm <? 60) && (ss <? 60))%N
  then
    let a := Z.of_N (((hh * 60 + mm) * 60 + ss) * 1000000 + us) in
    Some (if negative then (- a)%Z else a)
  else None.

Definition parse_offset (s : string) : option Z :=
  if negb ((char_is 0 "+"%char s || char_is 0 "-"%char s)
           && char_is 3 ":"%char s) then None else
  let negative := char_is 0 "-"%char s in
  hh ← field 1 2 s; mm ← field 4 2 s;
  let ss := if char_is 6 ":"%char s then field 7 2 s else None in
  let frac := if char_is 9 "."%char s then field 10 6 s else None in
  match String.length s with
  | 6 => offset_of negative hh mm 0 0
  | 9 => se ← ss; offset_of negative hh mm se 0
  | 16 => se ← ss; us ← frac; offset_of negative hh mm se us
  | _ => None
  end.

Definition with_utcoffset (off : Z) (d : datetime) : datetime :=
  mk_datetime (year d) (month d) (day d) (hour d) (minute d) (second d)
    (microsecond d) (Some off).

(** The time runs up to character 19, or up to 26 with a fraction; what
    follows is the offset. *)
Definition parse_isoformat (s : string) : option datetime :=
  let k := if char_is 19 "."%char s then 26%nat else 19%nat in
  if (String.length s <=? k)%nat then parse_naive s
  else
    d ← parse_naive (substring 0 k s);
    off ← parse_offset (skip k s);
    checked (with_utcoffset off d).

(** [None] stands for the [ValueError] Python raises.  [other] is the
    answer of the installed Python for a text in none of the layouts
    above. *)
Definition fromisoformat (other : string → option datetime) (s : string)
  : option datetime :=
  match parse_isoformat s with
  | Some d => Some d
  | None => other s
  end.

(** Linear arithmetic with division and remainder by constants. *)
Ltac digits := zify; Z.to_euclidean_division_equations; lia.

End DateTime.

Import DateTime.

(* ================================================================== *)
(** * Python built-ins *)
(* ================================================================== *)

Module Py.

(** ** [dict] with [str] keys

    A dict iterates in insertion order, and assigning to a key that is
    present keeps the key where it is: an association list in which a
    key occurs at most once. *)
Section Dict.
Context {V : Type}.

Fixpoint dict_get (k : string) (d : list (string * V)) : option V :=
  match d with
  | [] => None
  | (k', v) :: d' => if decide (k = k') then Some v else dict_get k d'
  end.

(** [d[k] = v] *)
Fixpoint dict_set (k : string) (v : V) (d : list (string * V))
  : list (string * V) :=
  match d with
  | [] => [(k, v)]
  | (k', v') :: d' =>
      if decide (k = k') then (k', v) :: d'
      else (k', v') :: dict_set k v d'
  end.

Definition dict_keys (d : list (string * V)) : list string := d.*1.
Definition dict_values (d : list (string * V)) : list V := d.*2.

(** The representation invariant: no key twice. *)
Definition dict_wf (d : list (string * V)) : Prop := NoDup (dict_keys d).
End Dict.

(** ** [sorted(l, key=..., reverse=True)] and [l.sort(key=..., reverse=True)]

    Python's sort is stable, and with [reverse=True] elements whose keys
    compare equal still keep their original order.  The result is the
    one of a stable insertion sort into descending order. *)
Section Sort.
Context {A K : Type} (leb : K → K → bool) (key : A → K).

(** [x] goes in front of the first element whose key is not greater. *)
Fixpoint insert_desc (x : A) (l : list A) : list A :=
  match l with
  | [] => [x]
  | y :: l' =>
      if leb (key y) (key x) then x :: y :: l'
      else y :: insert_desc x l'
  end.

Definition sorted_reverse (l : list A) : list A :=
  foldr insert_desc [] l.
End Sort.

(** ** [set]

    Only [add] and [len] are used: a list without repetitions. *)
Definition set_add {A} `{EqDecision A} (x : A) (s : list A) : list A :=
  if decide (x ∈ s) then s else s ++ [x].

(** ** [sum(...)] over integers *)
Definition sum (l : list nat) : nat := fold_left Nat.add l 0.

(** ** [l[:limit]]: a negative [limit] counts from the end. *)
Definition slice_to {A} (limit : Z) (l : list A) : list A :=
  if (limit <? 0)%Z then take (length l - Z.to_nat (- limit)) l
  else take (Z.to_nat limit) l.

(** Truth value of an [Optional[str]]: [None] and [''] are false. *)
Definition truthy (s : option string) : bool :=
  match s with
  | None | Some EmptyString => false
  | Some _ => true
  end.

End Py.

Import Py.

(* ================================================================== *)
(** * The Contributor class *)
(* ================================================================== *)

(** A contribution record is a dict with the keys [repo_name], [type],
    [description], [pr_number] and [date]; the tracker reads them with
    [.get(key, default)], so a key may be absent ([None] here). *)
Record Contribution := mk_Contribution {
  repo_name : option string;
  type : option string;
  description : option string;
  pr_number : option Z;
  date : option string
}.

#[global] Instance Contribution_eq_dec : EqDecision Contribution.
Proof. solve_decision. Defined.

Record Contributor := mk_Contributor {
  name : string;
  github_username : string;
  email : string;
  joined_date : datetime;
  contributions : list Contribution
}.

#[global] Instance Contributor_eq_dec : EqDecision Contributor.
Proof. solve_decision. Defined.

(** ** The persisted document

    What [json.load] returns for the data file: an object
    [{project_name, created_date, contributors: {username: {name,
    github_username, email, joined_date, contributions: [...]}}}].
    [load_data] reads [name] and [github_username] with [d[key]] and the
    other keys with [in] or [.get], so every key may be absent ([None]).
    Dates are still text here.  Documents whose values have other JSON
    types are outside this model. *)
Record contrib_data := mk_contrib_data {
  cd_name : option string;
  cd_github_username : option string;
  cd_email : option string;
  cd_joined_date : option string;
  cd_contributions : option (list Contribution)
}.

Record document := mk_document {
  doc_project_name : option string;
  doc_created_date : option string;
  doc_contributors : option (list (string * contrib_data))
}.

(** The tracker imports the class from [.contributor], which is not among
    the sources; its methods are modelled from the specification. *)
Module ContributorClass.

(** Modelled from the spec: the constructor [Contributor(name,
    github_username, email)] of contributor.py.  "Contributor: {name,
    github_username (unique key), email (optional), joined_date,
    contributions: ordered sequence of Contribution}"; a new contributor
    has joined now and has no contributions. *)
Definition new (name github_username email : string) (now : datetime)
  : Contributor :=
  {| name := name; github_username := github_username; email := email;
     joined_date := now; contributions := [] |}.

(** Modelled from the spec: [Contributor.get_contribution_count] of
    contributor.py, the "contribution count" of a contributor. *)
Definition get_contribution_count (c : Contributor) : nat :=
  length (contributions c).

(** Modelled from the spec: [Contributor.is_hacktoberfest_complete] of
    contributor.py.  "Hacktoberfest complete invariant: true iff
    contribution count >= 4." *)
Definition is_hacktoberfest_complete (c : Contributor) : bool :=
  bool_decide (4 ≤ get_contribution_count c).

(** Modelled from the spec: [Contributor.add_contribution] of
    contributor.py.  "Contribution appended via add_contribution, never
    removed"; a contribution is "{repo_name, type, description,
    pr_number, date}", dated now. *)
Definition add_contribution (repo contribution_type descr : string)
    (pr : option Z) (now : datetime) (c : Contributor) : Contributor :=
  {| name := name c; github_username := github_username c;
     email := email c; joined_date := joined_date c;
     contributions := contributions c ++
       [ {| repo_name := Some repo; type := Some contribution_type;
            description := Some descr; pr_number := pr;
            date := Some (isoformat now) |} ] |}.

(** Modelled from the spec: [Contributor.to_dict] of contributor.py.
    "Persisted state: ... contributors: {username: {name,
    github_username, email, joined_date, contributions: [...]}}", with
    the date in ISO format as [load_data] reads it back. *)
Definition to_dict (c : Contributor) : contrib_data :=
  {| cd_name := Some (name c);
     cd_github_username := Some (github_username c);
     cd_email := Some (email c);
     cd_joined_date := Some (isoformat (joined_date c));
     cd_contributions := Some (contributions c) |}.

End ContributorClass.

(* ================================================================== *)
(** * The tracker and its world *)
(* ================================================================== *)

(** [EmailNotifier(smtp_server, sender_email, sender_password)]: the class
    is in email_notifier.py, not among the sources; the tracker only
    tests whether it holds one and calls its two [send_] methods, which
    appear in the trace below. *)
Record EmailNotifier := mk_EmailNotifier {
  smtp_server : option string;
  sender_email : option string;
  sender_password : option string
}.

Record ProjectTracker := mk_ProjectTracker {
  project_name : string;
  data_file : string;
  contributors : list (string * Contributor);   (* Dict[str, Contributor] *)
  created_date : datetime;
  enable_notifications : bool;
  notifier : option EmailNotifier
}.

Definition with_contributors (cs : list (string * Contributor))
    (t : ProjectTracker) : ProjectTracker :=
  {| project_name := project_name t; data_file := data_file t;
     contributors := cs; created_date := created_date t;
     enable_notifications := enable_notifications t;
     notifier := notifier t |}.

Definition with_project_name (n : string) (t : ProjectTracker)
  : ProjectTracker :=
  {| project_name := n; data_file := data_file t;
     contributors := contributors t; created_date := created_date t;
     enable_notifications := enable_notifications t;
     notifier := notifier t |}.

Definition with_created_date (d : datetime) (t : ProjectTracker)
  : ProjectTracker :=
  {| project_name := project_name t; data_file := data_file t;
     contributors := contributors t; created_date := d;
     enable_notifications := enable_notifications t;
     notifier := notifier t |}.

(** The exceptions that [load_data] and [save_data] catch. *)
Inductive exn :=
| JSONDecodeError
| KeyError (key : string)
| ValueError (text : string)
| OSError (path : string).

(** What the tracker does to the outside, in order: the lines it prints
    in its [except] branches and the calls to the notifier. *)
Inductive event :=
| Print_error_saving (e : exn)       (* print(f"Error saving data: {e}") *)
| Print_error_loading (e : exn)      (* print(f"Error loading data: {e}") *)
| Send_welcome_email (email name github_username : string)
| Send_milestone_notification (email github_username : string)
    (contribution_count : nat) (is_complete : bool).

(** A file of the file system: text that [json.load] rejects (an empty
    file, or the beginning of a document, among others), or a
    document. *)
Inductive file :=
| Malformed
| Document (d : document).

(** The world the tracker acts on.  A write to a path of [locked] fails:
    [open(path, 'w')] raises and the file stays as it is, or, for a path
    of [torn], [open] succeeds, which empties the file, and [json.dump]
    raises.  [other_layouts] is the installed Python's
    [datetime.fromisoformat] on the texts [parse_isoformat] does not
    read. *)
Record World := mk_World {
  files : gmap string file;     (* absent: [os.path.exists] is false *)
  locked : gset string;         (* paths on which a write fails *)
  torn : gset string;           (* ... of which those [open] still opens *)
  other_layouts : string → option datetime;
  trace : list event
}.

Definition emit (e : event) (w : World) : World :=
  {| files := files w; locked := locked w; torn := torn w;
     other_layouts := other_layouts w; trace := trace w ++ [e] |}.

Definition write_file (path : string) (f : file) (w : World) : World :=
  {| files := <[path := f]> (files w); locked := locked w; torn := torn w;
     other_layouts := other_layouts w; trace := trace w |}.

(** ** save_data *)

Definition to_document (t : ProjectTracker) : document :=
  {| doc_project_name := Some (project_name t);
     doc_created_date := Some (isoformat (created_date t));
     doc_contributors :=
       Some (prod_map id ContributorClass.to_dict <$> contributors t) |}.

(** [open(self.data_file, 'w')] raises, or it empties the file; then
    [json.dump] writes the document, or it raises and leaves the
    beginning of the text, which is not JSON.  Either exception is caught
    and printed. *)
Definition save_data (t : ProjectTracker) (w : World) : World :=
  let data := to_document t in
  if decide (data_file t ∈ locked w)
  then
    emit (Print_error_saving (OSError (data_file t)))
      (if decide (data_file t ∈ torn w)
       then write_file (data_file t) Malformed w
       else w)
  else write_file (data_file t) (Document data) w.

(** ** load_data *)

(** One round of the loop over [data.get("contributors", {}).items()]. *)
Definition load_contributor (other : string → option datetime)
    (now : datetime) (contrib_data : contrib_data)
  : exn + Contributor :=
  match cd_name contrib_data with
  | None => inl (KeyError "name")
  | Some nm =>
    match cd_github_username contrib_data with
    | None => inl (KeyError "github_username")
    | Some un =>
      let contributor :=
        ContributorClass.new nm un
          (default EmptyString (cd_email contrib_data)) now in
      let contribs := default [] (cd_contributions contrib_data) in
      match cd_joined_date contrib_data with
      | None =>
          inr {| name := name contributor;
                 github_username := github_username contributor;
                 email := email contributor;
                 joined_date := joined_date contributor;
                 contributions := contribs |}
      | Some text =>
          match fromisoformat other text with
          | None => inl (ValueError text)
          | Some d =>
              inr {| name := name contributor;
                     github_username := github_username contributor;
                     email := email contributor;
                     joined_date := d;
                     contributions := contribs |}
          end
      end
    end
  end.

(** The loop: an exception leaves it, keeping what was stored so far. *)
Fixpoint load_contributors (other : string → option datetime)
    (now : datetime) (items : list (string * contrib_data))
    (cs : list (string * Contributor))
  : list (string * Contributor) * option exn :=
  match items with
  | [] => (cs, None)
  | (username, contrib_data) :: items' =>
      match load_contributor other now contrib_data with
      | inl e => (cs, Some e)
      | inr contributor =>
          load_contributors other now items'
            (dict_set username contributor cs)
      end
  end.

Definition load_document (other : string → option datetime)
    (now : datetime) (data : document) (t : ProjectTracker)
  : ProjectTracker * option exn :=
  let t1 := with_project_name
              (default (project_name t) (doc_project_name data)) t in
  let created :=
    match doc_created_date data with
    | None => inr t1
    | Some text =>
        match fromisoformat other text with
        | None => inl (ValueError text)
        | Some d => inr (with_created_date d t1)
        end
    end in
  match created with
  | inl e => (t1, Some e)
  | inr t2 =>
      let '(cs, e) :=
        load_contributors other now (default [] (doc_contributors data))
          (contributors t2) in
      (with_contributors cs t2, e)
  end.

(** [now] is the clock reading the [Contributor] constructor takes for
    entries of the file that carry no [joined_date]. *)
Definition load_data (now : datetime) (t : ProjectTracker) (w : World)
  : ProjectTracker * World :=
  match files w !! data_file t with
  | None => (t, w)
  | Some Malformed => (t, emit (Print_error_loading JSONDecodeError) w)
  | Some (Document data) =>
      match load_document (other_layouts w) now data t with
      | (t', None) => (t', w)
      | (t', Some e) => (t', emit (Print_error_loading e) w)
      end
  end.

(** ** __init__ *)

Definition init (project_name data_file : string)
    (enable_notifications : bool)
    (smtp_server sender_email sender_password : option string)
    (now : datetime) (w : World) : ProjectTracker * World :=
  load_data now
    {| project_name := project_name; data_file := data_file;
       contributors := []; created_date := now;
       enable_notifications := enable_notifications;
       notifier :=
         if enable_notifications
         then Some (mk_EmailNotifier smtp_server sender_email sender_password)
         else None |} w.

(** ** add_contributor, get_contributor, add_contribution *)

Definition nonempty (s : string) : bool :=
  match s with EmptyString => false | _ => true end.

Definition add_contributor (name github_username email : string)
    (now : datetime) (t : ProjectTracker) (w : World)
  : Contributor * ProjectTracker * World :=
  match dict_get github_username (contributors t) with
  | Some existing => (existing, t, w)
  | None =>
      let contributor := ContributorClass.new name github_username email now in
      let t' := with_contributors
                  (dict_set github_username contributor (contributors t)) t in
      let w' :=
        if bool_decide (is_Some (notifier t)) && nonempty email
        then emit (Send_welcome_email email name github_username) w
        else w in
      (contributor, t', save_data t' w')
  end.

Definition get_contributor (github_username : string) (t : ProjectTracker)
  : option Contributor :=
  dict_get github_username (contributors t).

(** The contributor is an object the dict refers to: changing it in place
    changes the value under its key. *)
Definition add_contribution (github_username repo_name contribution_type
    description : string) (pr_number : option Z)
    (now : datetime) (t : ProjectTracker) (w : World)
  : bool * ProjectTracker * World :=
  match get_contributor github_username t with
  | None => (false, t, w)
  | Some contributor =>
      let contributor' :=
        ContributorClass.add_contribution repo_name contribution_type
          description pr_number now contributor in
      let t' := with_contributors
                  (dict_set github_username contributor' (contributors t)) t in
      let w' :=
        if bool_decide (is_Some (notifier t)) && nonempty (email contributor')
        then
          let contribution_count :=
            ContributorClass.get_contribution_count contributor' in
          let is_complete :=
            ContributorClass.is_hacktoberfest_complete contributor' in
          if (contribution_count mod 1 =? 0)%nat
          then emit (Send_milestone_notification (email contributor')
                       github_username contribution_count is_complete) w
          else w
        else w in
      (true, t', save_data t' w')
  end.

Definition get_all_contributors (t : ProjectTracker) : list Contributor :=
  dict_values (contributors t).

Definition get_completed_contributors (t : ProjectTracker)
  : list Contributor :=
  filter (λ contrib, ContributorClass.is_hacktoberfest_complete contrib = true)
         (dict_values (contributors t)).

(** ** get_leaderboard *)

Record LeaderboardEntry := mk_LeaderboardEntry {
  le_name : string;
  le_github_username : string;
  le_email : string;
  le_contribution_count : nat;
  le_unique_repositories : nat;
  le_latest_contribution : option string;
  le_joined_date : option string
}.

(** The inner loop over [contributor.contributions]: the set of
    repository names and the greatest date seen. *)
Definition scan_contribution (acc : list string * option string)
    (contribution : Contribution) : list string * option string :=
  let '(unique_repos, latest_contribution) := acc in
  let contrib_date := default EmptyString (date contribution) in
  (set_add (default EmptyString (repo_name contribution)) unique_repos,
   if negb (truthy latest_contribution)
      || String.ltb (default EmptyString latest_contribution) contrib_date
   then Some contrib_date
   else latest_contribution).

Definition leaderboard_entry (contributor : Contributor) : LeaderboardEntry :=
  let '(unique_repos, latest_contribution) :=
    fold_left scan_contribution (contributions contributor) ([], None) in
  {| le_name := name contributor;
     le_github_username := github_username contributor;
     le_email := email contributor;
     le_contribution_count :=
       ContributorClass.get_contribution_count contributor;
     le_unique_repositories := length unique_repos;
     le_latest_contribution := latest_contribution;
     le_joined_date := Some (isoformat (joined_date contributor)) |}.

Definition contributors_with_stats (t : ProjectTracker)
  : list LeaderboardEntry :=
  leaderboard_entry <$> dict_values (contributors t).

Definition get_leaderboard (t : ProjectTracker) : list LeaderboardEntry :=
  sorted_reverse Nat.leb le_contribution_count (contributors_with_stats t).

(** ** get_project_stats *)

(** The two float-valued entries are kept as the expressions the code
    evaluates, not as floating-point numbers. *)
Inductive completion_rate_value :=
| Rate_text (s : string)
    (* "0%" *)
| Rate_percent (completed total : nat).
    (* f"{(completed / total * 100):.1f}%" *)

Inductive average_value :=
| Avg_int (n : Z)
    (* 0 *)
| Avg_quotient (total count : nat).
    (* total / count *)

Record ProjectStats := mk_ProjectStats {
  ps_project_name : string;
  ps_total_contributors : nat;
  ps_total_contributions : nat;
  ps_completed_hacktoberfest : nat;
  ps_completion_rate : completion_rate_value;
  ps_avg_contributions_per_contributor : average_value;
  ps_unique_repositories : nat;
  ps_contributions_by_type : list (string * nat);
  ps_created_date : string
}.

(** The body of the nested loop over all contributions. *)
Definition tally_contribution (acc : list (string * nat) * list string)
    (contribution : Contribution) : list (string * nat) * list string :=
  let '(contributions_by_type, unique_repositories) := acc in
  let contrib_type := default "unknown" (type contribution) in
  (dict_set contrib_type
     (default 0 (dict_get contrib_type contributions_by_type) + 1)
     contributions_by_type,
   set_add (default EmptyString (repo_name contribution)) unique_repositories).

Definition tally_contributor (acc : list (string * nat) * list string)
    (contributor : Contributor) : list (string * nat) * list string :=
  fold_left tally_contribution (contributions contributor) acc.

Definition get_project_stats (t : ProjectTracker) : ProjectStats :=
  let contributors := get_all_contributors t in
  let total_contributions :=
    sum (ContributorClass.get_contribution_count <$> contributors) in
  let completed_count := length (get_completed_contributors t) in
  let '(contributions_by_type, unique_repositories) :=
    fold_left tally_contributor contributors ([], []) in
  {| ps_project_name := project_name t;
     ps_total_contributors := length contributors;
     ps_total_contributions := total_contributions;
     ps_completed_hacktoberfest := completed_count;
     ps_completion_rate :=
       match contributors with
       | [] => Rate_text "0%"
       | _ => Rate_percent completed_count (length contributors)
       end;
     ps_avg_contributions_per_contributor :=
       match contributors with
       | [] => Avg_int 0
       | _ => Avg_quotient total_contributions (length contributors)
       end;
     ps_unique_repositories := length unique_repositories;
     ps_contributions_by_type := contributions_by_type;
     ps_created_date := isoformat (created_date t) |}.

(** ** get_recent_contributions *)

(** A copy of a contribution dict with the key [contributor] added. *)
Record RecentContribution := mk_RecentContribution {
  rc_contribution : Contribution;
  rc_contributor : Contributor
}.

Definition all_contributions (t : ProjectTracker) : list RecentContribution :=
  contributor ← dict_values (contributors t);
  (λ contribution, mk_RecentContribution contribution contributor)
    <$> contributions contributor.

Definition get_recent_contributions (limit : Z) (t : ProjectTracker)
  : list RecentContribution :=
  slice_to limit
    (sorted_reverse String.leb
       (λ x, default EmptyString (date (rc_contribution x)))
       (all_contributions t)).

(* ================================================================== *)
(** * Orders *)
(* ================================================================== *)

(** The keys never increase from one element of [l] to the next. *)
Definition non_increasing {A K} (le : K → K → Prop) (key : A → K)
    (l : list A) : Prop :=
  Sorted (λ a b, le (key b) (key a)) l.

(** [l'] lists the elements of [l], and those with the same key in the
    same order as [l] does. *)
Definition stable_rearrangement {A K} `{EqDecision K} (key : A → K)
    (l l' : list A) : Prop :=
  l' ≡ₚ l
  ∧ ∀ k, filter (λ x, key x = k) l' = filter (λ x, key x = k) l.

(* ================================================================== *)
(** * The analytics operations over a store of objects *)
(* ================================================================== *)

(** Python passes dicts and lists by reference, and [get_leaderboard],
    [get_project_stats] and [get_recent_contributions] update dicts, sets
    and lists in place.  Here they are written once more, statement by
    statement, over a store in which every dict, list, set and instance
    is an object with an address; which objects they write to can then be
    read off. *)
Module Heap.

Abbreviation loc := nat.

Inductive val :=
| VNone
| VInt (n : Z)
| VStr (s : string)
| VRate (completed total : nat)    (* f"{(completed / total * 100):.1f}%" *)
| VQuot (total count : nat)        (* total / count *)
| VRef (l : loc).

#[global] Instance val_eq_dec : EqDecision val.
Proof. solve_decision. Defined.

Inductive object :=
| ODict (items : list (string * val))
| OList (elems : list val)
| OSet (elems : list val)
| OContributor (name github_username email : string)
    (joined_date : datetime) (contributions : loc)
| OTracker (project_name : string) (contributors : loc)
    (created_date : datetime).

#[global] Instance VStr_inj : Inj (=) (=) VStr.
Proof. by intros ?? [= ->]. Qed.

#[global] Instance object_eq_dec : EqDecision object.
Proof. solve_decision. Defined.

(** The store: the object at address [l] is the [l]-th. *)
Abbreviation heap := (list object).

(** A computation returns a value or raises ([None]), and leaves a
    store. *)
Definition M (A : Type) : Type := heap → option A * heap.

#[global] Instance M_ret : MRet M := λ A x h, (Some x, h).

#[global] Instance M_bind : MBind M := λ A B f m h,
  match m h with
  | (Some x, h') => f x h'
  | (None, h') => (None, h')
  end.

Definition raise {A} : M A := λ h, (None, h).

Definition alloc (o : object) : M loc := λ h, (Some (length h), h ++ [o]).

Definition load (l : loc) : M object := λ h, (h !! l, h).

Definition store (l : loc) (o : object) : M unit :=
  λ h, if decide (l < length h) then (Some (), <[l := o]> h) else (None, h).

Definition deref (v : val) : M loc :=
  match v with VRef l => mret l | _ => raise end.

Definition load_dict (l : loc) : M (list (string * val)) :=
  o ← load l; match o with ODict items => mret items | _ => raise end.

Definition load_list (l : loc) : M (list val) :=
  o ← load l; match o with OList elems => mret elems | _ => raise end.

Definition load_set (l : loc) : M (list val) :=
  o ← load l; match o with OSet elems => mret elems | _ => raise end.

(** [for x in xs: body], with the local variables the body assigns as
    state.  The elements are those the list has when the loop starts; no
    loop below writes to the list it runs over. *)
Fixpoint for_fold {A S} (xs : list A) (s : S) (body : S → A → M S) : M S :=
  match xs with
  | [] => mret s
  | x :: xs' => s' ← body s x; for_fold xs' s' body
  end.

Definition for_each {A} (xs : list A) (body : A → M unit) : M unit :=
  for_fold xs () (λ _ x, body x).

Fixpoint map_M {A B} (f : A → M B) (xs : list A) : M (list B) :=
  match xs with
  | [] => mret []
  | x :: xs' => y ← f x; ys ← map_M f xs'; mret (y :: ys)
  end.

(** ** Methods of the built-in types *)

(** [d.get(key, default)] *)
Definition dict_get_default (key : string) (dflt : val) (d : loc) : M val :=
  items ← load_dict d; mret (default dflt (dict_get key items)).

(** [d[key]] *)
Definition dict_getitem (key : string) (d : loc) : M val :=
  items ← load_dict d;
  match dict_get key items with Some v => mret v | None => raise end.

(** [d[key] = v] *)
Definition dict_setitem (key : string) (v : val) (d : loc) : M unit :=
  items ← load_dict d; store d (ODict (dict_set key v items)).

(** [d.copy()] *)
Definition dict_copy (d : loc) : M loc :=
  items ← load_dict d; alloc (ODict items).

(** [d.values()] *)
Definition dict_values_of (d : loc) : M (list val) :=
  items ← load_dict d; mret (dict_values items).

(** [l.append(v)] *)
Definition list_append (v : val) (l : loc) : M unit :=
  elems ← load_list l; store l (OList (elems ++ [v])).

(** [s.add(v)] *)
Definition set_add_to (v : val) (s : loc) : M unit :=
  elems ← load_set s; store s (OSet (set_add v elems)).

Definition as_str (v : val) : M string :=
  match v with VStr s => mret s | _ => raise end.

Definition as_int (v : val) : M Z :=
  match v with VInt n => mret n | _ => raise end.

(** Truth value: [None], [0] and [''] are false. *)
Definition val_truthy (v : val) : bool :=
  match v with
  | VNone | VInt 0 | VStr EmptyString => false
  | _ => true
  end.

(** [a > b], defined between two strings and between two integers. *)
Definition val_gt (a b : val) : M bool :=
  match a, b with
  | VStr x, VStr y => mret (String.ltb y x)
  | VInt x, VInt y => mret (y <? x)%Z
  | _, _ => raise
  end.

(** The elements of a list ordered by [sorted(..., key=key,
    reverse=True)]; the keys are computed first. *)
Definition sorted_elems {K} (leb : K → K → bool) (key : val → M K)
    (elems : list val) : M (list val) :=
  keys ← map_M key elems;
  mret ((sorted_reverse leb fst (zip keys elems)).*2).

(** An element paired with its sort key, against the element it stands
    for. *)
Definition with_key {A B K} (keyfn : B → K) (R : A → B → Prop)
    (kx : K * A) (y : B) : Prop :=
  R kx.2 y ∧ kx.1 = keyfn y.

(** ** Attributes *)

Definition contributor_contributions (contributor : val) : M loc :=
  l ← deref contributor; o ← load l;
  match o with OContributor _ _ _ _ cs => mret cs | _ => raise end.

Definition tracker_contributors (self : loc) : M loc :=
  o ← load self;
  match o with OTracker _ cs _ => mret cs | _ => raise end.

(** Modelled from the spec: [Contributor.get_contribution_count] of
    contributor.py, the length of the list of contributions. *)
Definition get_contribution_count (contributor : val) : M nat :=
  cs ← contributor_contributions contributor;
  elems ← load_list cs; mret (length elems).

(** Modelled from the spec: [Contributor.is_hacktoberfest_complete] of
    contributor.py, "true iff contribution count >= 4". *)
Definition is_hacktoberfest_complete (contributor : val) : M bool :=
  n ← get_contribution_count contributor; mret (bool_decide (4 ≤ n)).

(** ** get_leaderboard *)

Definition scan_contribution (unique_repos : loc)
    (latest_contribution : val) (contribution : val) : M val :=
  d ← deref contribution;
  repo ← dict_get_default "repo_name" (VStr EmptyString) d;
  set_add_to repo unique_repos;;
  contrib_date ← dict_get_default "date" (VStr EmptyString) d;
  later ← (if negb (val_truthy latest_contribution) then mret true
           else val_gt contrib_date latest_contribution);
  mret (if later : bool then contrib_date else latest_contribution).

Definition leaderboard_entry (contributors_with_stats : loc)
    (contributor : val) : M unit :=
  unique_repos ← alloc (OSet []);
  cs ← contributor_contributions contributor;
  elems ← load_list cs;
  latest_contribution ← for_fold elems VNone (scan_contribution unique_repos);
  l ← deref contributor; o ← load l;
  match o with
  | OContributor name github_username email joined_date _ =>
      count ← get_contribution_count contributor;
      repos ← load_set unique_repos;
      entry ← alloc (ODict
        [("name", VStr name);
         ("github_username", VStr github_username);
         ("email", VStr email);
         ("contribution_count", VInt (Z.of_nat count));
         ("unique_repositories", VInt (Z.of_nat (length repos)));
         ("latest_contribution", latest_contribution);
         ("joined_date", VStr (isoformat joined_date))]);
      list_append (VRef entry) contributors_with_stats
  | _ => raise
  end.

(** [lambda x: x['contribution_count']] *)
Definition count_key (x : val) : M Z :=
  d ← deref x; v ← dict_getitem "contribution_count" d; as_int v.

Definition get_leaderboard (self : loc) : M loc :=
  contributors_with_stats ← alloc (OList []);
  cs ← tracker_contributors self;
  contributors ← dict_values_of cs;
  for_each contributors (leaderboard_entry contributors_with_stats);;
  elems ← load_list contributors_with_stats;
  sorted ← sorted_elems Z.leb count_key elems;
  alloc (OList sorted).

(** ** get_project_stats *)

(** One term of [sum(c.get_contribution_count() for c in contributors)]. *)
Definition add_count (acc : nat) (c : val) : M nat :=
  n ← get_contribution_count c; mret (acc + n).

(** [list(self.contributors.values())] *)
Definition get_all_contributors (self : loc) : M loc :=
  cs ← tracker_contributors self;
  contributors ← dict_values_of cs;
  alloc (OList contributors).

Definition keep_if_complete (result : loc) (contrib : val) : M unit :=
  complete ← is_hacktoberfest_complete contrib;
  if complete : bool then list_append contrib result else mret ().

(** The list comprehension of [get_completed_contributors]. *)
Definition get_completed_contributors (self : loc) : M loc :=
  cs ← tracker_contributors self;
  contributors ← dict_values_of cs;
  result ← alloc (OList []);
  for_each contributors (keep_if_complete result);;
  mret result.

Definition tally_contribution (contributions_by_type unique_repositories : loc)
    (contribution : val) : M unit :=
  d ← deref contribution;
  contrib_type ← dict_get_default "type" (VStr "unknown") d;
  key ← as_str contrib_type;
  seen ← dict_get_default key (VInt 0) contributions_by_type;
  n ← as_int seen;
  dict_setitem key (VInt (n + 1)) contributions_by_type;;
  repo ← dict_get_default "repo_name" (VStr EmptyString) d;
  set_add_to repo unique_repositories.

Definition tally_contributor (contributions_by_type unique_repositories : loc)
    (contributor : val) : M unit :=
  cs ← contributor_contributions contributor;
  elems ← load_list cs;
  for_each elems
    (tally_contribution contributions_by_type unique_repositories).

Definition get_project_stats (self : loc) : M loc :=
  contributors_loc ← get_all_contributors self;
  contributors ← load_list contributors_loc;
  total_contributions ← for_fold contributors 0 add_count;
  completed ← get_completed_contributors self;
  completed_elems ← load_list completed;
  let completed_count := length completed_elems in
  contributions_by_type ← alloc (ODict []);
  unique_repositories ← alloc (OSet []);
  for_each contributors
    (tally_contributor contributions_by_type unique_repositories);;
  o ← load self;
  match o with
  | OTracker project_name _ created_date =>
      repos ← load_set unique_repositories;
      alloc (ODict
        [("project_name", VStr project_name);
         ("total_contributors", VInt (Z.of_nat (length contributors)));
         ("total_contributions", VInt (Z.of_nat total_contributions));
         ("completed_hacktoberfest", VInt (Z.of_nat completed_count));
         ("completion_rate",
          match contributors with
          | [] => VStr "0%"
          | _ => VRate completed_count (length contributors)
          end);
         ("avg_contributions_per_contributor",
          match contributors with
          | [] => VInt 0
          | _ => VQuot total_contributions (length contributors)
          end);
         ("unique_repositories", VInt (Z.of_nat (length repos)));
         ("contributions_by_type", VRef contributions_by_type);
         ("created_date", VStr (isoformat created_date))])
  | _ => raise
  end.

(** ** get_recent_contributions *)

(** The body of the inner loop: the copy of one contribution. *)
Definition recent_entry (all_contributions : loc)
    (contributor contribution : val) : M unit :=
  d ← deref contribution;
  contribution_data ← dict_copy d;
  dict_setitem "contributor" contributor contribution_data;;
  list_append (VRef contribution_data) all_contributions.

(** The body of the outer loop. *)
Definition recent_entries (all_contributions : loc) (contributor : val)
  : M unit :=
  cl ← contributor_contributions contributor;
  elems ← load_list cl;
  for_each elems (recent_entry all_contributions contributor).

Definition date_key (x : val) : M string :=
  d ← deref x;
  v ← dict_get_default "date" (VStr EmptyString) d;
  as_str v.

Definition get_recent_contributions (self : loc) (limit : Z) : M loc :=
  all_contributions ← alloc (OList []);
  cs ← tracker_contributors self;
  contributors ← dict_values_of cs;
  for_each contributors (recent_entries all_contributions);;
  elems ← load_list all_contributions;
  sorted ← sorted_elems String.leb date_key elems;
  store all_contributions (OList sorted);;
  alloc (OList (slice_to limit sorted)).

(** ** Trackers in the store *)

Definition contribution_items (c : Contribution) : list (string * val) :=
  omap id
    [ (λ s, ("repo_name", VStr s)) <$> repo_name c;
      (λ s, ("type", VStr s)) <$> type c;
      (λ s, ("description", VStr s)) <$> description c;
      Some ("pr_number", from_option VInt VNone (pr_number c));
      (λ s, ("date", VStr s)) <$> date c ].

(** The dict at [v] holds the contribution [c]. *)
Definition contribution_at (h : heap) (v : val) (c : Contribution) : Prop :=
  ∃ l, v = VRef l ∧ h !! l = Some (ODict (contribution_items c)).

(** The instance at [v] is the contributor [c]. *)
Definition contributor_at (h : heap) (v : val) (c : Contributor) : Prop :=
  ∃ l lc elems,
    v = VRef l
    ∧ h !! l = Some (OContributor (name c) (github_username c) (email c)
                       (joined_date c) lc)
    ∧ h !! lc = Some (OList elems)
    ∧ Forall2 (contribution_at h) elems (contributions c).

(** The instance at [self] is the tracker [t]. *)
Definition tracker_at (h : heap) (self : loc) (t : ProjectTracker) : Prop :=
  ∃ ld items,
    h !! self = Some (OTracker (project_name t) ld (created_date t))
    ∧ h !! ld = Some (ODict items)
    ∧ dict_keys items = dict_keys (contributors t)
    ∧ Forall2 (contributor_at h) (dict_values items)
        (dict_values (contributors t)).

(** Allocation of a tracker, contributor by contributor. *)
Definition alloc_contribution (c : Contribution) : M val :=
  l ← alloc (ODict (contribution_items c)); mret (VRef l).

Definition alloc_contributor (c : Contributor) : M val :=
  elems ← map_M alloc_contribution (contributions c);
  lc ← alloc (OList elems);
  l ← alloc (OContributor (name c) (github_username c) (email c)
               (joined_date c) lc);
  mret (VRef l).

Definition alloc_tracker (t : ProjectTracker) : M loc :=
  vals ← map_M alloc_contributor (dict_values (contributors t));
  ld ← alloc (ODict (zip (dict_keys (contributors t)) vals));
  alloc (OTracker (project_name t) ld (created_date t)).

(** ** Specifications *)

(** Running [m] in [h] raises nothing, and the value and the store it
    leaves satisfy [Q]. *)
Definition wp {A} (m : M A) (h : heap) (Q : A → heap → Prop) : Prop :=
  match m h with
  | (Some x, h') => Q x h'
  | (None, _) => False
  end.

(** [h] begins with the objects of [h0], as they are in [h0]. *)
Definition keeps (h0 h : heap) : Prop := take (length h0) h = h0.

(** [h'] has every object of [h] at its address, as it is in [h]. *)
Definition preserves (h h' : heap) : Prop :=
  ∀ l o, h !! l = Some o → h' !! l = Some o.

(** Every object of [h] that is not at an address of [ls] is in [h'] as
    it is in [h]. *)
Definition kept_but (ls : list loc) (h h' : heap) : Prop :=
  ∀ l o, l ∉ ls → h !! l = Some o → h' !! l = Some o.

(** The dict [contributions_by_type] in the store. *)
Definition by_type_items (d : list (string * nat)) : list (string * val) :=
  prod_map id (λ n : nat, VInt (Z.of_nat n)) <$> d.

(** An element of the list [get_recent_contributions] returns: a dict
    with the items of the contribution and the key [contributor]. *)
Definition recent_at (h : heap) (v : val) (rc : RecentContribution) : Prop :=
  ∃ l vc,
    v = VRef l
    ∧ h !! l = Some (ODict (dict_set "contributor" vc
                              (contribution_items (rc_contribution rc))))
    ∧ contributor_at h vc (rc_contributor rc).

(** The copies made so far, with the contributors still those of [h0]. *)
Definition recent_in (h0 h : heap) (v : val) (rc : RecentContribution)
  : Prop :=
  ∃ l vc,
    v = VRef l
    ∧ h !! l = Some (ODict (dict_set "contributor" vc
                              (contribution_items (rc_contribution rc))))
    ∧ contributor_at h0 vc (rc_contributor rc).

(** The contributions of [cs], each with its contributor. *)
Definition recents_of (cs : list Contributor) : list RecentContribution :=
  c ← cs; (λ x, mk_RecentContribution x c) <$> contributions c.

Definition recent_date (rc : RecentContribution) : string :=
  default EmptyString (date (rc_contribution rc)).

(** An element of the list [get_leaderboard] returns. *)
Definition entry_at (h : heap) (v : val) (e : LeaderboardEntry) : Prop :=
  ∃ l,
    v = VRef l
    ∧ h !! l = Some (ODict
        [("name", VStr (le_name e));
         ("github_username", VStr (le_github_username e));
         ("email", VStr (le_email e));
         ("contribution_count", VInt (Z.of_nat (le_contribution_count e)));
         ("unique_repositories",
          VInt (Z.of_nat (le_unique_repositories e)));
         ("latest_contribution",
          from_option VStr VNone (le_latest_contribution e));
         ("joined_date", from_option VStr VNone (le_joined_date e))]).

Definition rate_val (r : completion_rate_value) : val :=
  match r with
  | Rate_text s => VStr s
  | Rate_percent completed total => VRate completed total
  end.

Definition average_val (a : average_value) : val :=
  match a with
  | Avg_int n => VInt n
  | Avg_quotient total count => VQuot total count
  end.

(** The dict [get_project_stats] returns. *)
Definition stats_at (h : heap) (l : loc) (s : ProjectStats) : Prop :=
  ∃ by_type,
    h !! l = Some (ODict
      [("project_name", VStr (ps_project_name s));
       ("total_contributors", VInt (Z.of_nat (ps_total_contributors s)));
       ("total_contributions", VInt (Z.of_nat (ps_total_contributions s)));
       ("completed_hacktoberfest",
        VInt (Z.of_nat (ps_completed_hacktoberfest s)));
       ("completion_rate", rate_val (ps_completion_rate s));
       ("avg_contributions_per_contributor",
        average_val (ps_avg_contributions_per_contributor s));
       ("unique_repositories", VInt (Z.of_nat (ps_unique_repositories s)));
       ("contributions_by_type", VRef by_type);
       ("created_date", VStr (ps_created_date s))])
    ∧ h !! by_type
      = Some (ODict (by_type_items (ps_contributions_by_type s))).

End Heap.

(* ================================================================== *)
(** * Invariants and runs *)
(* ================================================================== *)


(** The arguments of one call of [add_contributor], with the clock
    reading at the call. *)
Record add_call := mk_add_call {
  ac_name : string;
  ac_github_username : string;
  ac_email : string;
  ac_now : datetime
}.

(** A sequence of [add_contributor] calls. *)
Fixpoint add_contributor_calls (calls : list add_call)
    (t : ProjectTracker) (w : World) : ProjectTracker * World :=
  match calls with
  | [] => (t, w)
  | c :: calls' =>
      let '(_, t', w') :=
        add_contributor (ac_name c) (ac_github_username c) (ac_email c)
          (ac_now c) t w in
      add_contributor_calls calls' t' w'
  end.

(** An entry of the data file from which [load_data] builds a
    contributor. *)
Definition loads (other : string → option datetime) (now : datetime)
    (cd : contrib_data) : Prop :=
  ∃ c, load_contributor other now cd = inr c.

(** The [created_date] of a document is absent or parses. *)
Definition created_date_ok (other : string → option datetime)
    (data : document) : Prop :=
  ∀ text, doc_created_date data = Some text →
          is_Some (fromisoformat other text).

(* ================================================================== *)
(** * Sample data *)
(* ================================================================== *)

Module Sample.

Definition oct (d h : N) : datetime := mk_datetime 2025 10 d h 0 0 0 None.

Definition pr (repo : string) (when : datetime) : Contribution :=
  {| repo_name := Some repo; type := Some "code";
     description := Some "fix"; pr_number := None;
     date := Some (isoformat when) |}.

(** Four contributions on one day, a fortnight ago. *)
Definition alice : Contributor :=
  {| name := "Alice"; github_username := "alice"; email := "alice@example.org";
     joined_date := oct 1 9;
     contributions := [pr "docs" (oct 2 10); pr "docs" (oct 2 11);
                       pr "docs" (oct 2 12); pr "docs" (oct 2 13)] |}.

(** Three contributions, on the last three days. *)
Definition bob : Contributor :=
  {| name := "Bob"; github_username := "bob"; email := EmptyString;
     joined_date := oct 1 9;
     contributions := [pr "api" (oct 14 10); pr "api" (oct 15 10);
                       pr "web" (oct 16 10)] |}.

Definition carol : Contributor :=
  {| name := "Carol"; github_username := "carol"; email := EmptyString;
     joined_date := oct 3 9;
     contributions := [pr "web" (oct 4 10); pr "web" (oct 5 10);
                       pr "web" (oct 6 10)] |}.

Definition tracker : ProjectTracker :=
  {| project_name := "Hacktoberfest 2025"; data_file := "contributors.json";
     contributors := [("alice", alice); ("bob", bob)];
     created_date := oct 1 8; enable_notifications := false;
     notifier := None |}.

Definition tracker3 : ProjectTracker :=
  with_contributors [("bob", bob); ("alice", alice); ("carol", carol)] tracker.

Definition empty_tracker : ProjectTracker := with_contributors [] tracker.

(** A Python that reads no other layout than those of
    [parse_isoformat]. *)
Definition strict (text : string) : option datetime := None.

Definition world : World :=
  {| files := ∅; locked := ∅; torn := ∅; other_layouts := strict;
     trace := [] |}.

Definition today : datetime := oct 16 12.

(** A data file whose first entry has no [name]. *)
Definition new_alice_entry : contrib_data :=
  {| cd_name := Some "Alice B."; cd_github_username := Some "alice";
     cd_email := Some "alice@example.org";
     cd_joined_date := Some "2025-10-01T09:00:00";
     cd_contributions := Some [] |}.

Definition broken_entry : contrib_data :=
  {| cd_name := None; cd_github_username := Some "dave";
     cd_email := None; cd_joined_date := None; cd_contributions := None |}.

Definition broken_document : document :=
  {| doc_project_name := Some "Hacktoberfest 2025";
     doc_created_date := Some "2025-10-01T08:00:00";
     doc_contributors :=
       Some [("dave", broken_entry); ("alice", new_alice_entry)] |}.

Definition broken_world : World :=
  {| files := {[ "contributors.json" := Document broken_document ]};
     locked := ∅; torn := ∅; other_layouts := strict; trace := [] |}.

(** A data file that replaces [alice]. *)
Definition good_document : document :=
  {| doc_project_name := Some "Hacktoberfest 2025";
     doc_created_date := Some "2025-10-01T08:00:00";
     doc_contributors := Some [("alice", new_alice_entry)] |}.

Definition good_world : World :=
  {| files := {[ "contributors.json" := Document good_document ]};
     locked := ∅; torn := ∅; other_layouts := strict; trace := [] |}.

Definition malformed_world : World :=
  {| files := {[ "contributors.json" := Malformed ]};
     locked := ∅; torn := ∅; other_layouts := strict; trace := [] |}.

(** The store that holds [tracker3], and the address of the tracker. *)
Definition store : list Heap.object := (Heap.alloc_tracker tracker3 []).2.

Definition self : nat := 17.

End Sample.

(* ================================================================== *)
(** * Notifications on request and CSV import *)
(* ================================================================== *)

(** The lines these methods print, in the order of their [print] calls. *)
Inductive message :=
| Msg_notifications_not_enabled
    (* print("❌ Email notifications are not enabled.") *)
| Msg_contributor_not_found (github_username : string)
    (* print(f"❌ Contributor {github_username} not found.") *)
| Msg_no_email_address (github_username : string)
    (* print(f"❌ No email address for contributor {github_username}.") *)
| Msg_notifications_enabled
    (* print("✅ Email notifications enabled successfully!") *)
| Msg_failed_to_enable (e : exn)
    (* print(f"❌ Failed to enable email notifications: {e}") *)
| Msg_no_contributors_imported
    (* print("❌ No contributors imported") *)
| Msg_already_exists (github_username : string)
    (* print(f"⚠️  Contributor {...} already exists, skipping") *)
| Msg_import_warnings (count : nat)
    (* print(f"⚠️  Import completed with {len(errors)} warnings/errors") *)
| Msg_import_completed
    (* print("✅ Import completed successfully") *)
| Msg_error_importing (e : exn).
    (* print(f"❌ Error importing from CSV: {e}") *)

(** ** send_notification_to_contributor

    [deliver] is the answer of the notifier's
    [send_milestone_notification] (email_notifier.py, not among the
    sources) to a call with these arguments; the call itself goes to the
    trace. *)
Definition send_notification_to_contributor
    (deliver : string → string → nat → bool → bool)
    (github_username : string) (t : ProjectTracker) (w : World)
  : bool * list message * World :=
  match notifier t with
  | None => (false, [Msg_notifications_not_enabled], w)
  | Some _ =>
    match get_contributor github_username t with
    | None => (false, [Msg_contributor_not_found github_username], w)
    | Some contributor =>
      if negb (nonempty (email contributor))
      then (false, [Msg_no_email_address github_username], w)
      else
        let contribution_count :=
          ContributorClass.get_contribution_count contributor in
        let is_complete :=
          ContributorClass.is_hacktoberfest_complete contributor in
        (deliver (email contributor) github_username contribution_count
           is_complete,
         [],
         emit (Send_milestone_notification (email contributor)
                 github_username contribution_count is_complete) w)
    end
  end.

(** ** send_notifications_to_all_contributors *)

(** The body of the loop: [results[contributor.github_username] = ...]
    for a contributor with an email address. *)
Definition notify_contributor
    (deliver : string → string → nat → bool → bool)
    (acc : list (string * bool) * World) (contributor : Contributor)
  : list (string * bool) * World :=
  let '(results, w) := acc in
  if nonempty (email contributor)
  then
    let contribution_count :=
      ContributorClass.get_contribution_count contributor in
    let is_complete :=
      ContributorClass.is_hacktoberfest_complete contributor in
    (dict_set (github_username contributor)
       (deliver (email contributor) (github_username contributor)
          contribution_count is_complete) results,
     emit (Send_milestone_notification (email contributor)
             (github_username contributor) contribution_count is_complete) w)
  else (results, w).

Definition send_notifications_to_all_contributors
    (deliver : string → string → nat → bool → bool)
    (t : ProjectTracker) (w : World)
  : list (string * bool) * list message * World :=
  match notifier t with
  | None => ([], [Msg_notifications_not_enabled], w)
  | Some _ =>
      let '(results, w') :=
        fold_left (notify_contributor deliver) (get_all_contributors t)
          ([], w) in
      (results, [], w')
  end.

(** ** enable_email_notifications

    [constructed] is what the constructor call
    [EmailNotifier(smtp_server=..., sender_email=..., sender_password=...)]
    answers: the notifier, or the exception it raises. *)
Definition enable_email_notifications (constructed : exn + EmailNotifier)
    (t : ProjectTracker) : bool * list message * ProjectTracker :=
  match constructed with
  | inr new_notifier =>
      (true, [Msg_notifications_enabled],
       {| project_name := project_name t; data_file := data_file t;
          contributors := contributors t; created_date := created_date t;
          enable_notifications := true;
          notifier := Some new_notifier |})
  | inl e => (false, [Msg_failed_to_enable e], t)
  end.

(** ** import_from_csv

    [CSVHandler] is in csv_handler.py, not among the sources.  What its
    two functions answer is an argument: [imported] for
    [import_contributors_from_csv(contributors_file)], the contributors
    read and the errors, or the exception raised; [contributions] is
    [None] when [contributions_file] is [None] or empty, and otherwise
    what [import_contributions_from_csv] makes of the dict it is handed
    (it may change it in place, also when it raises) together with its
    answer, a count and its errors, or the exception raised. *)

(** The body of the loop over [imported_contributors]. *)
Definition import_contributor
    (acc : list (string * Contributor) * list message)
    (contributor : Contributor)
  : list (string * Contributor) * list message :=
  let '(cs, out) := acc in
  match dict_get (github_username contributor) cs with
  | Some existing =>
      (cs, out ++ [Msg_already_exists (github_username contributor)])
  | None => (dict_set (github_username contributor) contributor cs, out)
  end.

Definition import_from_csv
    (imported : exn + (list Contributor * list string))
    (contributions :
       option (list (string * Contributor) →
               list (string * Contributor) * (exn + (nat * list string))))
    (t : ProjectTracker) (w : World)
  : bool * list message * ProjectTracker * World :=
  match imported with
  | inl e => (false, [Msg_error_importing e], t, w)
  | inr ([], errors) => (false, [Msg_no_contributors_imported], t, w)
  | inr (imported_contributors, errors) =>
      let '(cs, out) :=
        fold_left import_contributor imported_contributors
          (contributors t, []) in
      let '(cs', read) :=
        match contributions with
        | None => (cs, inr errors)
        | Some import_contributions =>
            match import_contributions cs with
            | (cs', inl e) => (cs', inl e)
            | (cs', inr (contrib_count, import_errors)) =>
                (cs', inr (errors ++ import_errors))
            end
        end in
      let t' := with_contributors cs' t in
      match read with
      | inl e => (false, out ++ [Msg_error_importing e], t', w)
      | inr errors' =>
          (bool_decide (0 < length imported_contributors),
           out ++ [match errors' with
                   | [] => Msg_import_completed
                   | _ => Msg_import_warnings (length errors')
                   end],
           t', save_data t' w)
      end
  end.

(** ** print_leaderboard *)

(** The lines [print_leaderboard] prints. *)
Inductive leaderboard_line :=
| Line_title (project_name : string)
    (* print(f"\n🎃 {self.project_name} - Leaderboard 🎃") *)
| Line_rule
    (* print("=" * 50) *)
| Line_no_contributors
    (* print("No contributors yet!") *)
| Line_entry (emoji : string) (i : nat) (contributor : LeaderboardEntry).
    (* print(f"{emoji} {i:2d}. {contributor}") *)

Definition medal (i : nat) : string :=
  if (i =? 1)%nat then "🏆"
  else if (i =? 2)%nat then "🥈"
  else if (i =? 3)%nat then "🥉"
  else "👤".

(** [enumerate(leaderboard, 1)] counts from 1. *)
Definition print_leaderboard (t : ProjectTracker) : list leaderboard_line :=
  let leaderboard := get_leaderboard t in
  [Line_title (project_name t); Line_rule]
  ++ match leaderboard with
     | [] => [Line_no_contributors]
     | _ =>
         imap (λ i contributor, Line_entry (medal (S i)) (S i) contributor)
           leaderboard
     end.

(** ** print_stats *)

(** The lines [print_stats] prints, with the values they show. *)
Inductive stats_line :=
| Stats_title (project_name : string)
    (* print(f"\n📊 {stats['project_name']} - Statistics 📊") *)
| Stats_rule
    (* print("=" * 50) *)
| Stats_total_contributors (n : nat)
    (* print(f"Total Contributors: {stats['total_contributors']}") *)
| Stats_total_contributions (n : nat)
    (* print(f"Total Contributions: {stats['total_contributions']}") *)
| Stats_completed_hacktoberfest (n : nat)
    (* print(f"Completed Hacktoberfest: {stats['completed_hacktoberfest']}") *)
| Stats_completion_rate (rate : completion_rate_value)
    (* print(f"Completion Rate: {stats['completion_rate']}") *)
| Stats_project_started (day : string).
    (* print(f"Project Started: {stats['created_date'][:10]}") *)

Definition print_stats (t : ProjectTracker) : list stats_line :=
  let stats := get_project_stats t in
  [ Stats_title (ps_project_name stats);
    Stats_rule;
    Stats_total_contributors (ps_total_contributors stats);
    Stats_total_contributions (ps_total_contributions stats);
    Stats_completed_hacktoberfest (ps_completed_hacktoberfest stats);
    Stats_completion_rate (ps_completion_rate stats);
    Stats_project_started (substring 0 10 (ps_created_date stats)) ].

(* ================================================================== *)
(** * Notions used in the statements *)
(* ================================================================== *)

(** The calls to the notifier among the events. *)
Definition is_mail (e : event) : bool :=
  match e with
  | Send_welcome_email _ _ _ | Send_milestone_notification _ _ _ _ => true
  | _ => false
  end.

Definition mails (w : World) : list event :=
  filter (λ e, is_mail e = true) (trace w).

(** The milestone notification that describes a contributor. *)
Definition milestone_of (c : Contributor) : event :=
  Send_milestone_notification (email c) (github_username c)
    (ContributorClass.get_contribution_count c)
    (ContributorClass.is_hacktoberfest_complete c).

(** The repository name and the date the tracker reads from a
    contribution: [.get('repo_name', '')] and [.get('date', '')]. *)
Definition repo_of (c : Contribution) : string :=
  default EmptyString (repo_name c).

Definition date_of (c : Contribution) : string :=
  default EmptyString (date c).

Definition type_of (c : Contribution) : string :=
  default "unknown" (type c).

(** All contributions of the collection, in the order of the nested
    loops. *)
Definition contributions_of (t : ProjectTracker) : list Contribution :=
  c ← get_all_contributors t; contributions c.

(** The date of an entry of [get_recent_contributions]. *)
Definition recent_date_of (x : RecentContribution) : string :=
  date_of (rc_contribution x).



(** More sample data. *)
Module Sample2.

(** [Sample.tracker3] with notifications switched on. *)
Definition notifying : ProjectTracker :=
  {| project_name := "Hacktoberfest 2025"; data_file := "contributors.json";
     contributors := contributors Sample.tracker3;
     created_date := Sample.oct 1 8; enable_notifications := true;
     notifier := Some (mk_EmailNotifier None None None) |}.

(** A world in which the data file cannot be opened for writing. *)
Definition locked_world : World :=
  {| files := ∅; locked := {[ "contributors.json" ]}; torn := ∅;
     other_layouts := Sample.strict; trace := [] |}.

(** A world in which the data file holds [Sample.tracker] and writing to
    it fails after it has been opened. *)
Definition torn_world : World :=
  {| files :=
       {[ "contributors.json" := Document (to_document Sample.tracker) ]};
     locked := {[ "contributors.json" ]};
     torn := {[ "contributors.json" ]};
     other_layouts := Sample.strict; trace := [] |}.

(** A mail server that accepts every message. *)
Definition accepts (email github_username : string) (count : nat)
    (complete : bool) : bool := true.

End Sample2.
(* ================================================================== *)
(** * Properties of the date model *)
(* ================================================================== *)

Section DateTimeFacts.

Lemma digit_of_digit n : digit_of (digit n) = Some (n mod 10)%N.
Proof.
  unfold digit_of, digit.
  assert (Hlt : (n mod 10 < 10)%N) by (apply N.mod_lt; lia).
  generalize dependent (n mod 10)%N. intros m Hm.
  rewrite N_ascii_embedding by lia.
  destruct (_ && _) eqn:E.
  - f_equal. lia.
  - apply andb_false_iff in E as [E|E]; apply N.leb_gt in E; lia.
Qed.

Lemma number_of_zfill2 n :
  (n < 100)%N → number_of (zfill2 n) 0 = Some n.
Proof.
  intros Hn. unfold zfill2, s2. cbn [number_of].
  rewrite !digit_of_digit. f_equal. digits.
Qed.

Lemma number_of_zfill4 n :
  (n < 10000)%N → number_of (zfill4 n) 0 = Some n.
Proof.
  intros Hn. unfold zfill4, s4, s2. cbn [number_of].
  rewrite !digit_of_digit. f_equal. digits.
Qed.


Lemma valid_bounds d :
  valid d = true →
  (year d < 10000 ∧ month d < 100 ∧ day d < 100 ∧ hour d < 100
   ∧ minute d < 100 ∧ second d < 100 ∧ microsecond d < 1000000)%N.
Proof.
  unfold valid. rewrite !andb_true_iff, !N.leb_le, !N.ltb_lt.
  intros H.
  assert (days_in_month (year d) (month d) ≤ 31)%N
    by (unfold days_in_month; repeat case_match; lia).
  lia.
Qed.















End DateTimeFacts.

(* ================================================================== *)
(** * Properties of the built-ins *)
(* ================================================================== *)

Section DictFacts.
Context {V : Type}.
Implicit Types (d : list (string * V)) (k : string) (v : V).

Lemma dict_get_None d k : dict_get k d = None ↔ k ∉ dict_keys d.
Proof.
  unfold dict_keys. induction d as [|[k' v'] d IH]; simpl.
  - split; [intros _; apply not_elem_of_nil | done].
  - rewrite not_elem_of_cons. destruct (decide (k = k')); [|tauto].
    split; [done | intros [? _]; done].
Qed.

Lemma dict_get_Some_elem d k v : dict_get k d = Some v → (k, v) ∈ d.
Proof.
  induction d as [|[k' v'] d IH]; simpl; [done|].
  destruct (decide (k = k')) as [->|]; intros H.
  - injection H as ->. left.
  - right. auto.
Qed.

Lemma dict_get_elem d k v :
  dict_wf d → (k, v) ∈ d → dict_get k d = Some v.
Proof.
  unfold dict_wf, dict_keys.
  induction d as [|[k' v'] d IH]; simpl; intros Hwf Hin.
  - by apply elem_of_nil in Hin.
  - apply NoDup_cons in Hwf as [Hk Hwf].
    apply elem_of_cons in Hin as [Heq|Hin].
    + injection Heq as -> ->. by rewrite decide_True.
    + destruct (decide (k = k')) as [->|]; [|auto].
      exfalso. apply Hk. apply list_elem_of_fmap. by exists (k', v).
Qed.

Lemma dict_get_set d k v k' :
  dict_get k' (dict_set k v d)
  = if decide (k' = k) then Some v else dict_get k' d.
Proof.
  induction d as [|[k0 v0] d IH]; simpl.
  - destruct (decide (k' = k)); done.
  - destruct (decide (k = k0)) as [->|Hne]; simpl.
    + destruct (decide (k' = k0)); done.
    + rewrite IH. destruct (decide (k' = k0)) as [->|]; [|done].
      by rewrite decide_False.
Qed.

Lemma dict_set_snoc d k v :
  k ∉ dict_keys d → dict_set k v d = d ++ [(k, v)].
Proof.
  unfold dict_keys. induction d as [|[k0 v0] d IH]; simpl; [done|].
  rewrite not_elem_of_cons. intros [Hne Hk].
  destruct (decide (k = k0)); [done|]. f_equal. auto.
Qed.

Lemma dict_keys_set_mem d k v :
  k ∈ dict_keys d → dict_keys (dict_set k v d) = dict_keys d.
Proof.
  unfold dict_keys. induction d as [|[k0 v0] d IH]; simpl; intros Hin.
  - by apply elem_of_nil in Hin.
  - destruct (decide (k = k0)) as [->|Hne]; simpl; [done|].
    f_equal. apply IH. apply elem_of_cons in Hin as [?|?]; done.
Qed.

Lemma dict_keys_set d k v :
  dict_keys (dict_set k v d)
  = if decide (k ∈ dict_keys d) then dict_keys d else dict_keys d ++ [k].
Proof.
  destruct (decide (k ∈ dict_keys d)) as [Hin|Hin].
  - by apply dict_keys_set_mem.
  - rewrite dict_set_snoc by done. unfold dict_keys. by rewrite fmap_app.
Qed.

Lemma dict_wf_set d k v : dict_wf d → dict_wf (dict_set k v d).
Proof.
  unfold dict_wf. rewrite dict_keys_set. intros Hwf.
  destruct (decide (k ∈ dict_keys d)); [done|].
  apply NoDup_app. split_and!; [done| |apply NoDup_singleton].
  intros x Hx Hx'. apply list_elem_of_singleton in Hx' as ->. done.
Qed.

(** Assigning to a key that is present changes no other entry and adds
    none. *)
Lemma dict_set_length d k v :
  is_Some (dict_get k d) → length (dict_set k v d) = length d.
Proof.
  induction d as [|[k0 v0] d IH]; simpl; intros [x Hx]; [done|].
  destruct (decide (k = k0)); simpl; [done|]. f_equal. eauto.
Qed.

End DictFacts.

Section SortFacts.
Context {A K : Type} (leb : K → K → bool) (key : A → K).
Hypothesis leb_total : ∀ a b, leb a b = false → leb b a = true.

Let ge_key (a b : A) : Prop := leb (key b) (key a) = true.

Lemma leb_refl a : leb a a = true.
Proof.
  destruct (leb a a) eqn:E; [done|].
  pose proof (leb_total _ _ E). congruence.
Qed.

Lemma insert_desc_perm x l : insert_desc leb key x l ≡ₚ x :: l.
Proof.
  induction l as [|y l IH]; simpl; [done|].
  destruct (leb (key y) (key x)); [done|].
  rewrite IH. apply Permutation_swap.
Qed.

Lemma sorted_reverse_perm l : sorted_reverse leb key l ≡ₚ l.
Proof.
  induction l as [|x l IH]; simpl; [done|].
  rewrite insert_desc_perm. by f_equiv.
Qed.

Lemma insert_desc_HdRel a x l :
  ge_key a x → HdRel ge_key a l → HdRel ge_key a (insert_desc leb key x l).
Proof.
  intros Hax Hal. destruct l as [|y l]; simpl; [by constructor|].
  destruct (leb (key y) (key x)); constructor; [done|].
  by inversion Hal.
Qed.

Lemma insert_desc_Sorted x l :
  Sorted ge_key l → Sorted ge_key (insert_desc leb key x l).
Proof.
  induction 1 as [|y l Hs IH Hhd]; simpl.
  - repeat constructor.
  - destruct (leb (key y) (key x)) eqn:E.
    + constructor; [by constructor|]. by constructor.
    + constructor; [done|]. apply insert_desc_HdRel; [|done].
      by apply leb_total.
Qed.

Lemma sorted_reverse_Sorted l : Sorted ge_key (sorted_reverse leb key l).
Proof.
  induction l as [|x l IH]; simpl; [constructor|].
  by apply insert_desc_Sorted.
Qed.

(** An element is put in front of every element it compares equal to. *)
Lemma insert_desc_filter (P : A → Prop) `{∀ x, Decision (P x)} x l :
  (∀ y, P x → P y → leb (key y) (key x) = true) →
  filter P (insert_desc leb key x l) = filter P (x :: l).
Proof.
  intros HP. induction l as [|y l IH]; simpl; [done|].
  destruct (leb (key y) (key x)) eqn:E; [done|].
  rewrite (filter_cons _ y (insert_desc _ _ _ _)), IH.
  rewrite !(filter_cons _ x), !(filter_cons _ y).
  destruct (decide (P x)) as [Hx|]; [|done].
  destruct (decide (P y)) as [Hy|]; [|done].
  rewrite HP in E; done.
Qed.

Lemma sorted_reverse_filter (P : A → Prop) `{∀ x, Decision (P x)} l :
  (∀ x y, P x → P y → leb (key y) (key x) = true) →
  filter P (sorted_reverse leb key l) = filter P l.
Proof.
  intros HP. induction l as [|x l IH]; simpl; [done|].
  rewrite insert_desc_filter by eauto.
  by rewrite !(filter_cons _ x), IH.
Qed.

Lemma sorted_reverse_stable `{EqDecision K} l :
  stable_rearrangement key l (sorted_reverse leb key l).
Proof.
  split; [apply sorted_reverse_perm|]. intros k.
  apply sorted_reverse_filter. intros x y -> ->. apply leb_refl.
Qed.
End SortFacts.

Lemma nat_leb_total a b : Nat.leb a b = false → Nat.leb b a = true.
Proof. rewrite Nat.leb_gt, Nat.leb_le. lia. Qed.

Lemma string_leb_total a b : String.leb a b = false → String.leb b a = true.
Proof. destruct (String.leb_total a b) as [H|H]; [congruence | done]. Qed.

Lemma fold_left_add l acc :
  fold_left Nat.add l acc = acc + foldr Nat.add 0 l.
Proof.
  revert acc. induction l as [|x l IH]; intros acc; simpl; [lia|].
  rewrite IH. lia.
Qed.

Lemma sum_fold_right l : sum l = foldr Nat.add 0 l.
Proof. unfold sum. by rewrite fold_left_add. Qed.

(** ** Stable sorts agree

    Python's [sorted] is not an insertion sort; that does not matter: a
    list has one stable rearrangement into descending order. *)
Section StableSortUnique.
Context {A K : Type} `{EqDecision K} (leb : K → K → bool) (key : A → K).
Hypothesis leb_total : ∀ a b, leb a b = false → leb b a = true.
Hypothesis leb_trans :
  ∀ a b c, leb a b = true → leb b c = true → leb a c = true.
Hypothesis leb_antisym : ∀ a b, leb a b = true → leb b a = true → a = b.

Local Abbreviation ge_key := (λ a b : A, leb (key b) (key a) = true)
  (only parsing).

Lemma Sorted_head_max x l y :
  Sorted ge_key (x :: l) → y ∈ x :: l → leb (key y) (key x) = true.
Proof.
  intros Hs Hy. apply Sorted_StronglySorted in Hs.
  - apply StronglySorted_inv in Hs as [_ Hall].
    apply elem_of_cons in Hy as [->|Hy].
    + by apply leb_refl.
    + rewrite List.Forall_forall in Hall. apply Hall.
      by apply list_elem_of_In.
  - intros a b c Hab Hbc. by eapply leb_trans.
Qed.

Lemma filter_key_head x (l : list A) :
  filter (λ y, key y = key x) (x :: l)
  = x :: filter (λ y, key y = key x) l.
Proof. rewrite filter_cons. by rewrite decide_True. Qed.

Lemma sorted_same_filters l1 l2 :
  Sorted ge_key l1 → Sorted ge_key l2 →
  (∀ k, filter (λ x, key x = k) l1 = filter (λ x, key x = k) l2) →
  l1 = l2.
Proof.
  revert l2. induction l1 as [|x l1 IH]; intros l2 Hs1 Hs2 Hf.
  - destruct l2 as [|y l2]; [done|].
    specialize (Hf (key y)). rewrite filter_key_head in Hf. done.
  - destruct l2 as [|y l2].
    { specialize (Hf (key x)). rewrite filter_key_head in Hf. done. }
    assert (Hx : x ∈ y :: l2).
    { apply (list_elem_of_filter (λ z, key z = key x)).
      rewrite <- Hf, filter_key_head. left. }
    assert (Hy : y ∈ x :: l1).
    { apply (list_elem_of_filter (λ z, key z = key y)).
      rewrite Hf, filter_key_head. left. }
    assert (Hk : key x = key y).
    { apply leb_antisym; by eapply Sorted_head_max. }
    pose proof (Hf (key x)) as Hfx.
    rewrite filter_key_head, Hk, filter_key_head in Hfx.
    injection Hfx as -> Hfx. f_equal.
    apply IH; [by apply Sorted_inv in Hs1 as [? _]
              | by apply Sorted_inv in Hs2 as [? _] |].
    intros k. destruct (decide (key y = k)) as [<-|Hne]; [done|].
    specialize (Hf k). by rewrite !filter_cons, !decide_False in Hf.
Qed.

(** Whatever sorts [l] into descending order of the keys and is stable
    returns [sorted_reverse leb key l]. *)
Lemma stable_sort_unique l l' :
  stable_rearrangement key l l' → Sorted ge_key l' →
  l' = sorted_reverse leb key l.
Proof.
  intros [_ Hf] Hs. apply sorted_same_filters; [done| |].
  - by apply sorted_reverse_Sorted.
  - intros k. rewrite Hf. symmetry.
    apply sorted_reverse_filter. intros x y -> ->.
    by apply leb_refl.
Qed.
End StableSortUnique.

Lemma nat_leb_trans a b c :
  Nat.leb a b = true → Nat.leb b c = true → Nat.leb a c = true.
Proof. rewrite !Nat.leb_le. lia. Qed.

Lemma nat_leb_antisym a b : Nat.leb a b = true → Nat.leb b a = true → a = b.
Proof. rewrite !Nat.leb_le. lia. Qed.

Lemma string_leb_trans a b c :
  String.leb a b = true → String.leb b c = true → String.leb a c = true.
Proof.
  unfold String.leb. revert b c.
  induction a as [|x a IH]; intros [|y b] [|z c]; simpl; try done.
  unfold Ascii.compare.
  destruct (N.compare_spec (N_of_ascii x) (N_of_ascii y)) as [Hxy|Hxy|Hxy];
    [|clear IH|done];
    (destruct (N.compare_spec (N_of_ascii y) (N_of_ascii z)) as [Hyz|Hyz|Hyz];
     [| |done]);
    destruct (N.compare_spec (N_of_ascii x) (N_of_ascii z)) as [Hxz|Hxz|Hxz];
    try done; try lia.
  apply IH.
Qed.

Lemma Sorted_weaken {A} (R R' : A → A → Prop) l :
  (∀ a b, R a b → R' a b) → Sorted R l → Sorted R' l.
Proof.
  intros HR. induction 1 as [|a l _ IH Hhd]; constructor; [done|].
  destruct Hhd; constructor. by apply HR.
Qed.

(* ================================================================== *)
(** * Completion and statistics *)
(* ================================================================== *)

Lemma get_completed_contributors_spec t c :
  c ∈ get_completed_contributors t
  ↔ c ∈ get_all_contributors t
    ∧ ContributorClass.is_hacktoberfest_complete c = true.
Proof.
  unfold get_completed_contributors, get_all_contributors.
  rewrite list_elem_of_filter. tauto.
Qed.

Lemma is_hacktoberfest_complete_spec c :
  ContributorClass.is_hacktoberfest_complete c = true
  ↔ 4 ≤ ContributorClass.get_contribution_count c.
Proof.
  unfold ContributorClass.is_hacktoberfest_complete.
  apply bool_decide_eq_true.
Qed.

(** C3. A contributor of the tracker is Hacktoberfest-complete (the flag
    is true, and the contributor is listed by
    [get_completed_contributors]) exactly when the contribution count is
    at least 4: with exactly 4 contributions complete, with exactly 3
    not. *)
Theorem completion_iff_four_contributions
    (t : ProjectTracker) (c : Contributor) :
  (ContributorClass.is_hacktoberfest_complete c = true
   ↔ 4 ≤ ContributorClass.get_contribution_count c)
  ∧ (c ∈ get_completed_contributors t
     ↔ c ∈ get_all_contributors t
       ∧ 4 ≤ ContributorClass.get_contribution_count c)
  ∧ (ContributorClass.get_contribution_count c = 4 →
     ContributorClass.is_hacktoberfest_complete c = true)
  ∧ (ContributorClass.get_contribution_count c = 3 →
     ContributorClass.is_hacktoberfest_complete c = false).
Proof.
  split_and!.
  - apply is_hacktoberfest_complete_spec.
  - rewrite get_completed_contributors_spec.
    by rewrite is_hacktoberfest_complete_spec.
  - intros H. apply is_hacktoberfest_complete_spec. lia.
  - intros H. apply not_true_is_false.
    rewrite is_hacktoberfest_complete_spec. lia.
Qed.

Lemma get_project_stats_total t :
  ps_total_contributions (get_project_stats t)
  = sum (ContributorClass.get_contribution_count <$> get_all_contributors t).
Proof.
  unfold get_project_stats.
  by destruct (fold_left tally_contributor _ _).
Qed.

(** C4. The [total_contributions] entry of [get_project_stats] is the sum,
    over the contributors of the collection, of their contribution
    counts. *)
Theorem total_contributions_is_sum_of_counts (t : ProjectTracker) :
  ps_total_contributions (get_project_stats t)
  = sum_list_with ContributorClass.get_contribution_count
      (snd <$> contributors t).
Proof.
  rewrite get_project_stats_total, sum_fold_right.
  unfold get_all_contributors, dict_values.
  induction (contributors t).*2 as [|c l IH]; simpl; [done|].
  f_equal. exact IH.
Qed.

(** C8. On an empty collection [get_project_stats] returns (it is a total
    function) the zero aggregates: no contributors, no contributions, none
    complete, the rate ["0%"], the average [0], no repositories and no
    types. *)
Theorem project_stats_of_empty_collection (t : ProjectTracker) :
  contributors t = [] →
  get_project_stats t
  = {| ps_project_name := project_name t;
       ps_total_contributors := 0;
       ps_total_contributions := 0;
       ps_completed_hacktoberfest := 0;
       ps_completion_rate := Rate_text "0%";
       ps_avg_contributions_per_contributor := Avg_int 0;
       ps_unique_repositories := 0;
       ps_contributions_by_type := [];
       ps_created_date := isoformat (created_date t) |}.
Proof.
  intros Hempty. unfold get_project_stats, get_completed_contributors,
    get_all_contributors, dict_values.
  by rewrite Hempty.
Qed.

Lemma project_stats_of_empty_collection_witness :
  contributors Sample.empty_tracker = []
  ∧ ps_total_contributions (get_project_stats Sample.empty_tracker) = 0
  ∧ ps_completion_rate (get_project_stats Sample.empty_tracker)
    = Rate_text "0%".
Proof.
  split; [reflexivity|].
  rewrite (project_stats_of_empty_collection Sample.empty_tracker);
    [split; reflexivity | reflexivity].
Defined.

(* ================================================================== *)
(** * Unknown usernames *)
(* ================================================================== *)

(** C7. For a username that is not registered, [get_contributor] returns
    [None] and [add_contribution] returns [False], leaving the tracker and
    the world as they are: no exception is raised. *)
Theorem unknown_username_is_reported
    (t : ProjectTracker) (w : World) (github_username : string)
    (repo_name contribution_type description : string)
    (pr_number : option Z) (now : datetime) :
  github_username ∉ dict_keys (contributors t) →
  get_contributor github_username t = None
  ∧ add_contribution github_username repo_name contribution_type description
      pr_number now t w = (false, t, w).
Proof.
  intros Hnew. apply dict_get_None in Hnew.
  unfold add_contribution, get_contributor. by rewrite Hnew.
Qed.

Lemma unknown_username_is_reported_witness :
  ("mallory" ∉ dict_keys (contributors Sample.tracker))
  ∧ get_contributor "mallory" Sample.tracker = None
  ∧ add_contribution "mallory" "docs" "code" "typo" (Some 7%Z) Sample.today
      Sample.tracker Sample.world = (false, Sample.tracker, Sample.world).
Proof.
  assert (H : "mallory" ∉ dict_keys (contributors Sample.tracker))
    by (apply dict_get_None; reflexivity).
  split; [exact H|].
  exact (unknown_username_is_reported Sample.tracker Sample.world "mallory"
           "docs" "code" "typo" (Some 7%Z) Sample.today H).
Defined.

(* ================================================================== *)
(** * Adding contributors *)
(* ================================================================== *)

Lemma add_contributor_existing name github_username email now t w c :
  get_contributor github_username t = Some c →
  add_contributor name github_username email now t w = (c, t, w).
Proof. unfold add_contributor, get_contributor. by intros ->. Qed.

Lemma add_contributor_registers name github_username email now t w :
  get_contributor github_username
    (add_contributor name github_username email now t w).1.2
  = Some (add_contributor name github_username email now t w).1.1.
Proof.
  unfold add_contributor, get_contributor.
  destruct (dict_get github_username (contributors t)) eqn:E; simpl; [done|].
  rewrite dict_get_set. by rewrite decide_True.
Qed.

Lemma add_contributor_wf name github_username email now t w :
  dict_wf (contributors t) →
  dict_wf (contributors
             (add_contributor name github_username email now t w).1.2).
Proof.
  intros Hwf. unfold add_contributor.
  destruct (dict_get github_username (contributors t)); simpl; [done|].
  by apply dict_wf_set.
Qed.

Lemma add_contributor_calls_wf calls t w :
  dict_wf (contributors t) →
  dict_wf (contributors (add_contributor_calls calls t w).1).
Proof.
  revert t w. induction calls as [|c calls IH]; intros t w Hwf; [done|].
  simpl.
  pose proof (add_contributor_wf (ac_name c) (ac_github_username c)
                (ac_email c) (ac_now c) t w Hwf) as Hwf'.
  destruct (add_contributor _ _ _ _ t w) as [[? t'] w']. by apply IH.
Qed.

Lemma load_contributors_wf other now items cs :
  dict_wf cs → dict_wf (load_contributors other now items cs).1.
Proof.
  revert cs. induction items as [|[k cd] items IH]; intros cs Hwf; [done|].
  simpl. destruct (load_contributor other now cd); [done|].
  by apply IH, dict_wf_set.
Qed.

Lemma load_data_wf now t w :
  dict_wf (contributors t) → dict_wf (contributors (load_data now t w).1).
Proof.
  intros Hwf. unfold load_data.
  destruct (files w !! data_file t) as [[|data]|]; [done| |done].
  unfold load_document.
  pose proof (load_contributors_wf (other_layouts w) now
                (default [] (doc_contributors data))
                (contributors t) Hwf) as Hwf'.
  destruct (doc_created_date data) as [text|]; simpl.
  - destruct (fromisoformat _ text); simpl; [|done].
    by destruct (load_contributors _ _ _) as [cs [e|]].
  - by destruct (load_contributors _ _ _) as [cs [e|]].
Qed.

(** A tracker has no username twice when it is constructed, and no
    operation changes that. *)
Lemma init_wf project_name data_file enable smtp sender password now w :
  dict_wf (contributors
             (init project_name data_file enable smtp sender password
                now w).1).
Proof. apply load_data_wf. apply NoDup_nil_2. Qed.

Lemma add_contribution_wf u repo type descr pr now t w :
  dict_wf (contributors t) →
  dict_wf (contributors (add_contribution u repo type descr pr now t w).1.2).
Proof.
  intros Hwf. unfold add_contribution.
  destruct (get_contributor u t); simpl; [|done]. by apply dict_wf_set.
Qed.

Lemma dict_wf_functional {V} (d : list (string * V)) k v1 v2 :
  dict_wf d → (k, v1) ∈ d → (k, v2) ∈ d → v1 = v2.
Proof.
  intros Hwf H1 H2.
  apply (dict_get_elem _ _ _ Hwf) in H1, H2. congruence.
Qed.

(** C5. Usernames are unique and [add_contributor] is idempotent: for a
    username that is present it returns the existing contributor and
    changes nothing (no entry is added); a second call with the same
    username returns the contributor of the first and changes nothing;
    and after any sequence of calls a username maps to at most one
    contributor. *)
Theorem add_contributor_idempotent_and_unique (t : ProjectTracker) (w : World) :
  dict_wf (contributors t) →
  (∀ name github_username email now existing,
     get_contributor github_username t = Some existing →
     add_contributor name github_username email now t w = (existing, t, w))
  ∧ (∀ name github_username email now name' email' now',
       let r := add_contributor name github_username email now t w in
       add_contributor name' github_username email' now' r.1.2 r.2 = r)
  ∧ (∀ calls github_username c1 c2,
       let t' := (add_contributor_calls calls t w).1 in
       NoDup (dict_keys (contributors t'))
       ∧ ((github_username, c1) ∈ contributors t' →
          (github_username, c2) ∈ contributors t' → c1 = c2)).
Proof.
  intros Hwf. split_and!.
  - intros. by apply add_contributor_existing.
  - intros name u email now name' email' now' r.
    pose proof (add_contributor_registers name u email now t w) as Hreg.
    fold r in Hreg. destruct r as [[c t1] w1]. simpl in *.
    by apply add_contributor_existing.
  - intros calls u c1 c2 t'.
    pose proof (add_contributor_calls_wf calls t w Hwf) as Hwf'.
    split; [exact Hwf'|]. by apply dict_wf_functional.
Qed.

Lemma add_contributor_idempotent_and_unique_witness :
  dict_wf (contributors Sample.tracker)
  ∧ add_contributor "Alice again" "alice" "other@example.org" Sample.today
      Sample.tracker Sample.world
    = (Sample.alice, Sample.tracker, Sample.world).
Proof.
  assert (Hwf : dict_wf (contributors Sample.tracker)).
  { unfold dict_wf. apply (bool_decide_unpack _). exact I. }
  split; [exact Hwf|].
  apply (proj1 (add_contributor_idempotent_and_unique
                  Sample.tracker Sample.world Hwf)).
  reflexivity.
Defined.

(* ================================================================== *)
(** * Loading *)
(* ================================================================== *)

(** C6. [load_data] on a missing data file changes nothing; on a file
    that is not JSON it returns normally, having printed the error, with
    the tracker unchanged: a collection that was empty, as it is when the
    constructor calls [load_data], stays empty. *)
Theorem load_data_missing_or_malformed
    (now : datetime) (t : ProjectTracker) (w : World) :
  (files w !! data_file t = None → load_data now t w = (t, w))
  ∧ (files w !! data_file t = Some Malformed →
     load_data now t w = (t, emit (Print_error_loading JSONDecodeError) w)
     ∧ (contributors t = [] → contributors (load_data now t w).1 = [])
     ∧ ∀ project_name enable smtp sender password,
         contributors
           (init project_name (data_file t) enable smtp sender password
              now w).1 = []).
Proof.
  split.
  - intros Hf. unfold load_data. by rewrite Hf.
  - intros Hf. unfold init, load_data. simpl. rewrite Hf. done.
Qed.

Lemma load_data_missing_or_malformed_witness :
  load_data Sample.today Sample.tracker Sample.world
  = (Sample.tracker, Sample.world)
  ∧ load_data Sample.today Sample.empty_tracker Sample.malformed_world
    = (Sample.empty_tracker,
       emit (Print_error_loading JSONDecodeError) Sample.malformed_world).
Proof.
  split.
  - apply (proj1 (load_data_missing_or_malformed
                    Sample.today Sample.tracker Sample.world)).
    reflexivity.
  - apply (proj2 (load_data_missing_or_malformed
                    Sample.today Sample.empty_tracker Sample.malformed_world)).
    reflexivity.
Defined.

Lemma load_contributors_frame other now items cs u :
  u ∉ dict_keys items →
  dict_get u (load_contributors other now items cs).1 = dict_get u cs.
Proof.
  unfold dict_keys. revert cs.
  induction items as [|[k cd] items IH]; intros cs Hu; simpl; [done|].
  simpl in Hu. apply not_elem_of_cons in Hu as [Hne Hu].
  destruct (load_contributor other now cd) as [e|c]; simpl; [done|].
  rewrite IH by done. rewrite dict_get_set. by rewrite decide_False.
Qed.

Lemma load_contributors_entry other now pre u cd post cs c :
  dict_wf (pre ++ (u, cd) :: post) →
  Forall (λ e, loads other now e.2) pre →
  load_contributor other now cd = inr c →
  dict_get u (load_contributors other now (pre ++ (u, cd) :: post) cs).1
  = Some c.
Proof.
  unfold dict_wf, dict_keys. revert cs.
  induction pre as [|[k cd'] pre IH]; intros cs Hwf Hpre Hcd; simpl.
  - rewrite Hcd. simpl in Hwf. apply NoDup_cons in Hwf as [Hu _].
    rewrite load_contributors_frame by done.
    rewrite dict_get_set. by rewrite decide_True.
  - apply Forall_cons in Hpre as [[c' Hc'] Hpre]. simpl in Hc'.
    rewrite Hc'. simpl in Hwf. apply NoDup_cons in Hwf as [_ Hwf].
    by apply IH.
Qed.

(** The loop ends at the first entry that raises: what it leaves is what
    the entries in front of that one have stored. *)
Lemma load_contributors_stop other now pre u cd post cs e :
  Forall (λ e, loads other now e.2) pre →
  load_contributor other now cd = inl e →
  load_contributors other now (pre ++ (u, cd) :: post) cs
  = ((load_contributors other now pre cs).1, Some e).
Proof.
  revert cs. induction pre as [|[k cd'] pre IH]; intros cs Hpre Hcd; simpl.
  - by rewrite Hcd.
  - apply Forall_cons in Hpre as [[c' Hc'] Hpre]. simpl in Hc'.
    rewrite Hc'. by apply IH.
Qed.

(** What [load_data] does with a data file that is a document whose
    [created_date] is readable. *)
Lemma load_data_document now t w data :
  files w !! data_file t = Some (Document data) →
  created_date_ok (other_layouts w) data →
  let loaded :=
    load_contributors (other_layouts w) now
      (default [] (doc_contributors data)) (contributors t) in
  contributors (load_data now t w).1 = loaded.1
  ∧ (load_data now t w).2
    = match loaded.2 with
      | Some e => emit (Print_error_loading e) w
      | None => w
      end.
Proof.
  intros Hf Hcreated loaded. subst loaded.
  unfold load_data. rewrite Hf. unfold load_document.
  destruct (doc_created_date data) as [text|] eqn:E; simpl.
  - destruct (Hcreated text E) as [d ->]. simpl.
    by destruct (load_contributors _ _ _ _) as [cs [e|]].
  - by destruct (load_contributors _ _ _ _) as [cs [e|]].
Qed.

(** What [load_data] leaves in the collection, for a data file that is a
    document. *)
Lemma load_data_contributors now t w data :
  files w !! data_file t = Some (Document data) →
  contributors (load_data now t w).1
  = match doc_created_date data ≫= (λ text,
            match fromisoformat (other_layouts w) text with
            | None => Some text
            | Some _ => None
            end) with
    | Some _ => contributors t
    | None =>
        (load_contributors (other_layouts w) now
           (default [] (doc_contributors data)) (contributors t)).1
    end.
Proof.
  intros Hf. unfold load_data. rewrite Hf. unfold load_document.
  destruct (doc_created_date data) as [text|]; simpl.
  - destruct (fromisoformat _ text); simpl.
    + destruct (load_contributors _ _ _ _) as [cs [e|]]; done.
    + done.
  - destruct (load_contributors _ _ _ _) as [cs [e|]]; done.
Qed.

(** C10, as amended. [load_data] merges: a contributor whose username is
    not in the file stays as it is; an entry of the file replaces the
    contributor of its username by the one built from the entry, provided
    [created_date] of the file is readable and every entry of the file in
    front of it can be built.  The loop stops at the first entry that
    raises: the exception is printed, and the contributors under the
    username of that entry and under the usernames of the entries after
    it are those the tracker had (the entries in front of it are loaded,
    by the second part).  (The file is a JSON object: it has each
    username once.) *)
Theorem load_data_merges
    (now : datetime) (t : ProjectTracker) (w : World) (data : document) :
  files w !! data_file t = Some (Document data) →
  dict_wf (default [] (doc_contributors data)) →
  (∀ github_username,
     github_username ∉ dict_keys (default [] (doc_contributors data)) →
     get_contributor github_username (load_data now t w).1
     = get_contributor github_username t)
  ∧ (created_date_ok (other_layouts w) data →
     ∀ before github_username entry after c,
       default [] (doc_contributors data)
       = before ++ (github_username, entry) :: after →
       Forall (λ e, loads (other_layouts w) now e.2) before →
       load_contributor (other_layouts w) now entry = inr c →
       get_contributor github_username (load_data now t w).1 = Some c)
  ∧ (created_date_ok (other_layouts w) data →
     ∀ before github_username entry after e,
       default [] (doc_contributors data)
       = before ++ (github_username, entry) :: after →
       Forall (λ e, loads (other_layouts w) now e.2) before →
       load_contributor (other_layouts w) now entry = inl e →
       (load_data now t w).2 = emit (Print_error_loading e) w
       ∧ ∀ username,
           username ∈ github_username :: dict_keys after →
           get_contributor username (load_data now t w).1
           = get_contributor username t).
Proof.
  intros Hf Hwf. unfold get_contributor. split_and!.
  - rewrite (load_data_contributors _ _ _ _ Hf).
    intros u Hu. destruct (_ ≫= _); [done|].
    by apply load_contributors_frame.
  - intros Hcreated pre u cd post c Hitems Hpre Hcd.
    destruct (load_data_document now t w data Hf Hcreated) as [-> _].
    rewrite Hitems. rewrite Hitems in Hwf.
    by apply load_contributors_entry.
  - intros Hcreated pre u cd post e Hitems Hpre Hcd.
    destruct (load_data_document now t w data Hf Hcreated) as [-> ->].
    rewrite Hitems, (load_contributors_stop _ _ _ _ _ _ _ _ Hpre Hcd).
    split; [done|]. intros u' Hu'. cbn [fst].
    apply load_contributors_frame.
    rewrite Hitems in Hwf. unfold dict_wf, dict_keys in Hwf.
    rewrite fmap_app in Hwf. apply NoDup_app in Hwf as (_ & Hdis & _).
    intros Hin. by apply (Hdis u' Hin).
Qed.

Lemma load_data_merges_witness :
  get_contributor "bob"
    (load_data Sample.today Sample.tracker Sample.good_world).1
  = Some Sample.bob
  ∧ get_contributor "alice"
      (load_data Sample.today Sample.tracker Sample.good_world).1
    = Some {| name := "Alice B."; github_username := "alice";
              email := "alice@example.org"; joined_date := Sample.oct 1 9;
              contributions := [] |}.
Proof.
  assert (Hwf : dict_wf (default []
                          (doc_contributors Sample.good_document))).
  { unfold dict_wf. apply (bool_decide_unpack _). exact I. }
  assert (Hcreated : created_date_ok Sample.strict Sample.good_document).
  { intros text [= <-]. vm_compute. eauto. }
  destruct (load_data_merges Sample.today Sample.tracker
              Sample.good_world Sample.good_document eq_refl Hwf)
    as (Hkept & Hreplaced & _).
  split.
  - rewrite Hkept; [reflexivity|]. apply dict_get_None. reflexivity.
  - apply (Hreplaced Hcreated [] "alice" Sample.new_alice_entry []);
      [reflexivity | constructor | reflexivity].
Defined.

(** C10, as stated, fails: the file names [alice], a contributor can be
    built from her entry, and [load_data] leaves the one the tracker had,
    because the entry in front of hers has no [name]. *)
Lemma load_data_stops_at_broken_entry :
  files Sample.broken_world !! data_file Sample.tracker
  = Some (Document Sample.broken_document)
  ∧ dict_get "alice" (default [] (doc_contributors Sample.broken_document))
    = Some Sample.new_alice_entry
  ∧ load_contributor Sample.strict Sample.today Sample.new_alice_entry
    = inr {| name := "Alice B."; github_username := "alice";
             email := "alice@example.org"; joined_date := Sample.oct 1 9;
             contributions := [] |}
  ∧ get_contributor "alice"
      (load_data Sample.today Sample.tracker Sample.broken_world).1
    = Some Sample.alice
  ∧ name Sample.alice = "Alice"
  ∧ trace (load_data Sample.today Sample.tracker Sample.broken_world).2
    = [Print_error_loading (KeyError "name")].
Proof. repeat split; vm_compute; reflexivity. Qed.

(* ================================================================== *)
(** * Saving and loading again *)
(* ================================================================== *)





(* ================================================================== *)
(** * The leaderboard *)
(* ================================================================== *)

Lemma le_contribution_count_entry c :
  le_contribution_count (leaderboard_entry c)
  = ContributorClass.get_contribution_count c.
Proof.
  unfold leaderboard_entry. by destruct (fold_left scan_contribution _ _).
Qed.

(** X26. The list [get_leaderboard] returns is ordered by contribution
    count, never increasing from an entry to the next, and the order is
    stable: it holds the entries of the collection, and entries with the
    same count stand in the order in which the collection lists their
    contributors. *)
Theorem leaderboard_sorted_by_contribution_count (t : ProjectTracker) :
  non_increasing le le_contribution_count (get_leaderboard t)
  ∧ stable_rearrangement le_contribution_count
      (contributors_with_stats t) (get_leaderboard t).
Proof.
  split.
  - unfold non_increasing, get_leaderboard.
    eapply Sorted_weaken;
      [|apply (sorted_reverse_Sorted Nat.leb le_contribution_count
                 nat_leb_total)].
    intros a b. apply Nat.leb_le.
  - apply sorted_reverse_stable, nat_leb_total.
Qed.

(** The two properties determine the leaderboard: it is the only stable
    rearrangement of the entries whose counts never increase. *)
Lemma leaderboard_unique t l :
  non_increasing le le_contribution_count l →
  stable_rearrangement le_contribution_count (contributors_with_stats t) l →
  l = get_leaderboard t.
Proof.
  intros Hs Hst. unfold get_leaderboard.
  apply stable_sort_unique;
    [apply nat_leb_total | apply nat_leb_trans | apply nat_leb_antisym
    | done |].
  eapply Sorted_weaken; [|exact Hs]. intros a b. apply Nat.leb_le.
Qed.

(* ================================================================== *)
(** * Reasoning about computations on the store *)
(* ================================================================== *)

Section HeapRules.
Import Heap.

Lemma wp_ret {A} (x : A) h Q : Q x h → wp (mret x) h Q.
Proof. done. Qed.

Lemma wp_bind {A B} (m : M A) (f : A → M B) h Q :
  wp m h (λ x h', wp (f x) h' Q) → wp (m ≫= f) h Q.
Proof.
  unfold wp, mbind, M_bind. by destruct (m h) as [[x|] h'].
Qed.

Lemma wp_mono {A} (m : M A) h (Q Q' : A → heap → Prop) :
  wp m h Q → (∀ x h', Q x h' → Q' x h') → wp m h Q'.
Proof. unfold wp. destruct (m h) as [[x|] h']; [eauto | done]. Qed.

Lemma wp_alloc o h Q : Q (length h) (h ++ [o]) → wp (alloc o) h Q.
Proof. done. Qed.

Lemma wp_load l o h Q : h !! l = Some o → Q o h → wp (load l) h Q.
Proof. unfold wp, load. by intros ->. Qed.

Lemma wp_store l o h Q :
  l < length h → Q () (<[l := o]> h) → wp (store l o) h Q.
Proof. intros Hl HQ. unfold wp, store. by rewrite decide_True. Qed.

Lemma wp_load_dict l items h Q :
  h !! l = Some (ODict items) → Q items h → wp (load_dict l) h Q.
Proof. intros Hl HQ. apply wp_bind. by eapply wp_load. Qed.

Lemma wp_load_list l elems h Q :
  h !! l = Some (OList elems) → Q elems h → wp (load_list l) h Q.
Proof. intros Hl HQ. apply wp_bind. by eapply wp_load. Qed.

Lemma wp_load_set l elems h Q :
  h !! l = Some (OSet elems) → Q elems h → wp (load_set l) h Q.
Proof. intros Hl HQ. apply wp_bind. by eapply wp_load. Qed.

(** A loop, by an invariant on what is left to do. *)
Lemma wp_for_fold {A S} (I : list A → S → heap → Prop)
    (xs : list A) (s : S) (body : S → A → M S) h Q :
  I xs s h →
  (∀ x xs' s h, I (x :: xs') s h → wp (body s x) h (I xs')) →
  (∀ s h, I [] s h → Q s h) →
  wp (for_fold xs s body) h Q.
Proof.
  intros HI Hbody HQ. revert s h HI.
  induction xs as [|x xs IH]; intros s h HI; simpl.
  - apply wp_ret. auto.
  - apply wp_bind. eapply wp_mono; [by apply Hbody|].
    intros s' h' HI'. by apply IH.
Qed.

Lemma wp_for_each {A} (I : list A → heap → Prop)
    (xs : list A) (body : A → M unit) h Q :
  I xs h →
  (∀ x xs' h, I (x :: xs') h → wp (body x) h (λ _, I xs')) →
  (∀ h, I [] h → Q () h) →
  wp (for_each xs body) h Q.
Proof.
  intros HI Hbody HQ. unfold for_each.
  apply (wp_for_fold (λ xs _, I xs)); [done| |].
  - intros x xs' [] h' HI'. by apply Hbody.
  - intros [] h' HI'. by apply HQ.
Qed.

(** A map whose function only reads. *)
Lemma wp_map_M {A B} (f : A → M B) (R : A → B → Prop) xs h Q :
  Forall (λ x, wp (f x) h (λ y h', h' = h ∧ R x y)) xs →
  (∀ ys, Forall2 R xs ys → Q ys h) →
  wp (map_M f xs) h Q.
Proof.
  intros Hxs. revert Q. induction Hxs as [|x xs Hx _ IH]; intros Q HQ; simpl.
  - apply wp_ret, HQ. constructor.
  - apply wp_bind. eapply wp_mono; [exact Hx|]. intros y h' [-> Hy]. simpl.
    apply wp_bind. apply IH. intros ys Hys. apply wp_ret, HQ.
    by constructor.
Qed.

(** ** The objects of a store that is kept *)

Lemma keeps_refl h : keeps h h.
Proof. unfold keeps. apply firstn_all. Qed.

Lemma keeps_length h0 h : keeps h0 h → length h0 ≤ length h.
Proof.
  unfold keeps. intros H. rewrite <- H at 1. rewrite length_take. lia.
Qed.

Lemma keeps_lookup h0 h l o :
  keeps h0 h → h0 !! l = Some o → h !! l = Some o.
Proof.
  unfold keeps. intros H Hl. rewrite <- H in Hl.
  apply lookup_take_Some in Hl. tauto.
Qed.

Lemma keeps_preserves h0 h : keeps h0 h → preserves h0 h.
Proof. intros H l o. by apply keeps_lookup. Qed.

Lemma keeps_alloc h0 h o : keeps h0 h → keeps h0 (h ++ [o]).
Proof.
  intros H. pose proof (keeps_length _ _ H). unfold keeps in *.
  by rewrite take_app_le.
Qed.

Lemma keeps_store h0 h l o :
  keeps h0 h → length h0 ≤ l → keeps h0 (<[l := o]> h).
Proof. unfold keeps. intros H Hl. by rewrite take_insert_ge. Qed.

Lemma keeps_trans h0 h1 h2 : keeps h0 h1 → keeps h1 h2 → keeps h0 h2.
Proof.
  intros H01 H12. pose proof (keeps_length _ _ H01) as Hlen.
  unfold keeps in *.
  assert (take (length h0) h2 = take (length h0) (take (length h1) h2)) as ->
    by (rewrite take_take; f_equal; lia).
  by rewrite H12.
Qed.

Lemma contribution_at_keeps h0 h v c :
  keeps h0 h → contribution_at h0 v c → contribution_at h v c.
Proof. intros Hk (l & -> & Hl). exists l. eauto using keeps_lookup. Qed.

Lemma contributor_at_keeps h0 h v c :
  keeps h0 h → contributor_at h0 v c → contributor_at h v c.
Proof.
  intros Hk (l & lc & elems & -> & Hl & Hlc & Hcs).
  exists l, lc, elems. split_and!; eauto using keeps_lookup.
  eapply Forall2_impl; [exact Hcs|]. eauto using contribution_at_keeps.
Qed.

Lemma tracker_at_keeps h0 h self t :
  keeps h0 h → tracker_at h0 self t → tracker_at h self t.
Proof.
  intros Hk (ld & items & Hself & Hld & Hkeys & Hcs).
  exists ld, items. split_and!; eauto using keeps_lookup.
  eapply Forall2_impl; [exact Hcs|]. eauto using contributor_at_keeps.
Qed.

End HeapRules.

(* ================================================================== *)
(** * get_recent_contributions over the store *)
(* ================================================================== *)

Section RecentOnStore.
Import Heap.

Lemma contribution_items_get c :
  dict_get "repo_name" (contribution_items c) = VStr <$> repo_name c
  ∧ dict_get "type" (contribution_items c) = VStr <$> type c
  ∧ dict_get "date" (contribution_items c) = VStr <$> date c.
Proof.
  destruct c as [[r|] [ty|] [de|] p [dt|]]; done.
Qed.

Lemma lookup_alloc_new (h : heap) o : (h ++ [o]) !! length h = Some o.
Proof. by apply list_lookup_middle. Qed.

Lemma lookup_alloc_old (h : heap) o l x :
  h !! l = Some x → (h ++ [o]) !! l = Some x.
Proof. intros H. by apply lookup_app_l_Some. Qed.

Lemma lookup_store_other (h : heap) l l' o x :
  l' ≠ l → h !! l' = Some x → <[l := o]> h !! l' = Some x.
Proof. intros Hne H. by rewrite list_lookup_insert_ne. Qed.

Lemma wp_recent_entry h0 h all vc v x acc :
  keeps h0 h → length h0 ≤ all → h !! all = Some (OList acc) →
  contribution_at h0 v x →
  wp (recent_entry all vc v) h (λ _ h',
    keeps h0 h'
    ∧ ∃ l, h' !! all = Some (OList (acc ++ [VRef l]))
           ∧ h' !! l = Some (ODict (dict_set "contributor" vc
                                      (contribution_items x)))
           ∧ ∀ l' o, l' ≠ all → h !! l' = Some o → h' !! l' = Some o).
Proof.
  intros Hk Hall Hacc (l0 & -> & Hl0).
  pose proof (lookup_lt_Some _ _ _ Hacc) as Hlt.
  unfold recent_entry. apply wp_bind, wp_ret.
  apply wp_bind. unfold dict_copy. apply wp_bind.
  eapply wp_load_dict; [by eapply keeps_lookup|]. apply wp_alloc.
  apply wp_bind. unfold dict_setitem. apply wp_bind.
  eapply wp_load_dict; [apply lookup_alloc_new|].
  apply wp_store; [rewrite length_app; simpl; lia|].
  unfold list_append. apply wp_bind.
  eapply wp_load_list.
  { apply lookup_store_other; [lia|]. by apply lookup_alloc_old. }
  apply wp_store; [rewrite length_insert, length_app; simpl; lia|].
  split.
  - apply keeps_store; [|done]. apply keeps_store; [|lia].
    by apply keeps_alloc.
  - exists (length h). split_and!.
    + apply list_lookup_insert_eq.
      rewrite length_insert, length_app. simpl. lia.
    + rewrite list_lookup_insert_ne by lia.
      apply list_lookup_insert_eq. rewrite length_app. simpl. lia.
    + intros l' o Hne Hl'. pose proof (lookup_lt_Some _ _ _ Hl').
      apply lookup_store_other; [done|].
      apply lookup_store_other; [lia|]. by apply lookup_alloc_old.
Qed.

End RecentOnStore.

Section RecentLoops.
Import Heap.

Lemma recent_in_step h0 (h h' : heap) all acc v rc :
  h !! all = Some (OList acc) →
  (∀ l' o, l' ≠ all → h !! l' = Some o → h' !! l' = Some o) →
  recent_in h0 h v rc → recent_in h0 h' v rc.
Proof.
  intros Hall Hstep (l & vc & -> & Hl & Hc). exists l, vc.
  split_and!; [done| |done]. apply Hstep; [|done].
  intros ->. congruence.
Qed.

Lemma wp_contributor_contributions (h : heap) l nm un em jd lc Q :
  h !! l = Some (OContributor nm un em jd lc) →
  Q lc h → wp (contributor_contributions (VRef l)) h Q.
Proof.
  intros Hl HQ. unfold contributor_contributions.
  apply wp_bind, wp_ret. apply wp_bind. eapply wp_load; [done|].
  by apply wp_ret.
Qed.

Lemma wp_recent_entries h0 h all v c acc done :
  keeps h0 h → length h0 ≤ all → h !! all = Some (OList acc) →
  Forall2 (recent_in h0 h) acc done →
  contributor_at h0 v c →
  wp (recent_entries all v) h (λ _ h',
    keeps h0 h'
    ∧ ∃ acc', h' !! all = Some (OList acc')
              ∧ Forall2 (recent_in h0 h') acc' (done ++ recents_of [c])).
Proof.
  intros Hk Hall Hacc Hdone Hc.
  pose proof Hc as (l & lc & elems & -> & Hl & Hlc & Hcs).
  unfold recent_entries. apply wp_bind.
  eapply wp_contributor_contributions; [by eapply keeps_lookup|].
  apply wp_bind. eapply wp_load_list; [by eapply keeps_lookup|].
  apply (wp_for_each (λ rem h',
    keeps h0 h'
    ∧ ∃ acc' done' rem_pure,
        h' !! all = Some (OList acc')
        ∧ Forall2 (contribution_at h0) rem rem_pure
        ∧ Forall2 (recent_in h0 h') acc' done'
        ∧ done' ++ ((λ x, mk_RecentContribution x c) <$> rem_pure)
          = done ++ recents_of [c])).
  - split; [done|]. exists acc, done, (contributions c).
    split_and!; [done..|]. unfold recents_of. simpl. by rewrite app_nil_r.
  - intros x xs' h1 (Hk1 & acc1 & done1 & rem_pure & Hacc1 & Hrem & Hd1 & Heq).
    apply Forall2_cons_inv_l in Hrem as (p & ps & Hx & Hxs & ->).
    eapply wp_mono; [by apply (wp_recent_entry h0 h1 all (VRef l) x p acc1)|].
    intros [] h2 (Hk2 & l2 & Hacc2 & Hl2 & Hstep). split; [done|].
    exists (acc1 ++ [VRef l2]), (done1 ++ [mk_RecentContribution p c]), ps.
    split_and!; [done|done| |].
    + apply Forall2_app.
      * eapply Forall2_impl; [exact Hd1|]. intros ??.
        by eapply recent_in_step.
      * constructor; [|constructor]. by exists l2, (VRef l).
    + rewrite <- Heq. by rewrite <- app_assoc.
  - intros h1 (Hk1 & acc1 & done1 & rem_pure & Hacc1 & Hrem & Hd1 & Heq).
    apply Forall2_nil_inv_l in Hrem as ->. simpl in Heq.
    rewrite app_nil_r in Heq. subst done1. eauto.
Qed.

Lemma recents_of_cons c cs :
  recents_of (c :: cs) = recents_of [c] ++ recents_of cs.
Proof. unfold recents_of. simpl. by rewrite app_nil_r. Qed.

Lemma wp_recent_loop h0 h all vs cs :
  keeps h0 h → length h0 ≤ all → h !! all = Some (OList []) →
  Forall2 (contributor_at h0) vs cs →
  wp (for_each vs (recent_entries all)) h (λ _ h',
    keeps h0 h'
    ∧ ∃ acc, h' !! all = Some (OList acc)
             ∧ Forall2 (recent_in h0 h') acc (recents_of cs)).
Proof.
  intros Hk Hall Hacc Hcs.
  apply (wp_for_each (λ rem h',
    keeps h0 h'
    ∧ ∃ acc' done' rem_pure,
        h' !! all = Some (OList acc')
        ∧ Forall2 (contributor_at h0) rem rem_pure
        ∧ Forall2 (recent_in h0 h') acc' done'
        ∧ done' ++ recents_of rem_pure = recents_of cs)).
  - split; [done|]. exists [], [], cs. split_and!; [done..|constructor|done].
  - intros x xs' h1 (Hk1 & acc1 & done1 & rem_pure & Hacc1 & Hrem & Hd1 & Heq).
    apply Forall2_cons_inv_l in Hrem as (p & ps & Hx & Hxs & ->).
    eapply wp_mono; [by apply (wp_recent_entries h0 h1 all x p acc1 done1)|].
    intros [] h2 (Hk2 & acc2 & Hacc2 & Hd2). split; [done|].
    exists acc2, (done1 ++ recents_of [p]), ps.
    split_and!; [done..|].
    rewrite <- Heq, (recents_of_cons p ps). by rewrite <- app_assoc.
  - intros h1 (Hk1 & acc1 & done1 & rem_pure & Hacc1 & Hrem & Hd1 & Heq).
    apply Forall2_nil_inv_l in Hrem as ->.
    unfold recents_of in Heq at 1. simpl in Heq. rewrite app_nil_r in Heq.
    subst done1. eauto.
Qed.

End RecentLoops.

(** Sorting the elements paired with their keys, and sorting by the key
    function. *)
Section SortedElems.
Context {A B K : Type} (leb : K → K → bool) (keyfn : B → K)
  (R : A → B → Prop).

Local Abbreviation R' := (Heap.with_key keyfn R) (only parsing).

Lemma insert_desc_Forall2 kx y s1 s2 :
  R' kx y → Forall2 R' s1 s2 →
  Forall2 R' (insert_desc leb fst kx s1) (insert_desc leb keyfn y s2).
Proof.
  intros Hxy Hs. induction Hs as [|kx' y' s1 s2 Hxy' Hs IH]; simpl.
  - constructor; [done | constructor].
  - destruct Hxy as [? Hk], Hxy' as [? Hk']. rewrite Hk, Hk'.
    destruct (leb (keyfn y') (keyfn y)).
    + constructor; [done|]. by constructor.
    + constructor; [done|]. exact IH.
Qed.

Lemma sorted_reverse_Forall2 l1 l2 :
  Forall2 R' l1 l2 →
  Forall2 R' (sorted_reverse leb fst l1) (sorted_reverse leb keyfn l2).
Proof.
  induction 1 as [|kx y l1 l2 Hxy Hl IH]; simpl; [constructor|].
  by apply insert_desc_Forall2.
Qed.

Lemma sorted_elems_Forall2 xs ys :
  Forall2 R xs ys →
  Forall2 R (sorted_reverse leb fst (zip (keyfn <$> ys) xs)).*2
    (sorted_reverse leb keyfn ys).
Proof.
  intros Hxy.
  assert (Forall2 R' (zip (keyfn <$> ys) xs) ys) as Hzip.
  { induction Hxy; simpl; constructor; done. }
  apply sorted_reverse_Forall2 in Hzip.
  induction Hzip as [|kx y s1 s2 [? _] _ IH]; simpl; constructor; done.
Qed.
End SortedElems.

Section RecentResult.
Local Abbreviation on_tracker := get_recent_contributions (only parsing).
Import Heap.

Lemma wp_date_key h0 (h : heap) v rc :
  recent_in h0 h v rc →
  wp (date_key v) h (λ k h', h' = h ∧ k = recent_date rc).
Proof.
  intros (l & vc & -> & Hl & _). unfold date_key.
  apply wp_bind, wp_ret. apply wp_bind. unfold dict_get_default.
  apply wp_bind. eapply wp_load_dict; [done|]. apply wp_ret.
  rewrite dict_get_set. rewrite decide_False by done.
  rewrite (proj2 (proj2 (contribution_items_get _))).
  unfold recent_date. by destruct (date (rc_contribution rc)).
Qed.

Lemma wp_date_keys h0 (h : heap) acc pure Q :
  Forall2 (recent_in h0 h) acc pure →
  Q (recent_date <$> pure) h →
  wp (map_M date_key acc) h Q.
Proof.
  intros Hacc HQ. revert Q HQ.
  induction Hacc as [|v rc acc pure Hv _ IH]; intros Q HQ; simpl.
  - by apply wp_ret.
  - apply wp_bind. eapply wp_mono; [by eapply wp_date_key|].
    intros k h' [-> ->]. apply wp_bind. apply IH. by apply wp_ret.
Qed.

Lemma all_contributions_recents t :
  all_contributions t = recents_of (dict_values (contributors t)).
Proof. done. Qed.

Lemma slice_to_Forall2 {A B} (R : A → B → Prop) limit xs ys :
  Forall2 R xs ys → Forall2 R (slice_to limit xs) (slice_to limit ys).
Proof.
  intros H. unfold slice_to. rewrite (Forall2_length _ _ _ H).
  destruct (limit <? 0)%Z; by apply Forall2_take.
Qed.

(** [get_recent_contributions], run on a store that holds the tracker
    [t], raises nothing, keeps every object the store had, and returns a
    new list that holds what the function on [t] returns. *)
Lemma wp_get_recent_contributions h0 self t limit :
  tracker_at h0 self t →
  wp (Heap.get_recent_contributions self limit) h0 (λ r h,
    keeps h0 h
    ∧ length h0 ≤ r
    ∧ ∃ elems, h !! r = Some (OList elems)
               ∧ Forall2 (recent_at h) elems (on_tracker limit t)).
Proof.
  intros (ld & items & Hself & Hld & Hkeys & Hcs).
  unfold Heap.get_recent_contributions.
  apply wp_bind, wp_alloc.
  pose proof (keeps_alloc h0 h0 (OList []) (keeps_refl h0)) as Hk1.
  apply wp_bind. unfold tracker_contributors. apply wp_bind.
  eapply wp_load; [by eapply keeps_lookup|]. apply wp_ret.
  apply wp_bind. unfold dict_values_of. apply wp_bind.
  eapply wp_load_dict; [by eapply keeps_lookup|]. apply wp_ret.
  apply wp_bind.
  eapply wp_mono.
  { apply (wp_recent_loop h0 _ (length h0) _
             (dict_values (contributors t)) Hk1);
      [done | apply lookup_alloc_new | exact Hcs]. }
  intros [] h1 (Hk & acc & Hacc & Hrec).
  pose proof (lookup_lt_Some _ _ _ Hacc) as Hlt.
  apply wp_bind. eapply wp_load_list; [done|].
  apply wp_bind. unfold sorted_elems. apply wp_bind.
  eapply wp_date_keys; [done|]. apply wp_ret.
  apply wp_bind. apply wp_store; [done|]. apply wp_alloc.
  pose proof (sorted_elems_Forall2 String.leb recent_date _ _ _ Hrec)
    as Hsorted.
  split_and!.
  - apply keeps_alloc. by apply keeps_store.
  - rewrite length_insert. lia.
  - eexists. split.
    + apply lookup_alloc_new.
    + unfold on_tracker. rewrite all_contributions_recents.
      apply slice_to_Forall2.
      eapply Forall2_impl; [exact Hsorted|].
      intros v rc (l & vc & -> & Hl & Hc). exists l, vc.
      split_and!; [done| |].
      * apply lookup_alloc_old. apply lookup_store_other; [|done].
        intros ->. congruence.
      * eapply contributor_at_keeps; [|exact Hc].
        apply keeps_alloc. by apply keeps_store.
Qed.

End RecentResult.

(* ================================================================== *)
(** * get_leaderboard over the store *)
(* ================================================================== *)

Lemma set_add_fmap {A B} `{EqDecision A, EqDecision B} (f : A → B)
    `{!Inj (=) (=) f} x s :
  set_add (f x) (f <$> s) = f <$> set_add x s.
Proof.
  unfold set_add. destruct (decide (x ∈ s)) as [Hin|Hin].
  - rewrite decide_True; [done|]. by apply list_elem_of_fmap_2.
  - rewrite decide_False.
    + by rewrite fmap_app.
    + intros (y & Hy & Hin')%list_elem_of_fmap. by apply (inj f) in Hy as <-.
Qed.

Lemma sorted_reverse_ext {A K1 K2} (leb1 : K1 → K1 → bool)
    (leb2 : K2 → K2 → bool) (k1 : A → K1) (k2 : A → K2) l :
  (∀ a b, leb1 (k1 a) (k1 b) = leb2 (k2 a) (k2 b)) →
  sorted_reverse leb1 k1 l = sorted_reverse leb2 k2 l.
Proof.
  intros Hleb. unfold sorted_reverse.
  induction l as [|x l IH]; simpl; [done|]. rewrite IH.
  generalize (foldr (insert_desc leb2 k2) [] l) as s.
  induction s as [|y s IHs]; simpl; [done|].
  rewrite Hleb. destruct (leb2 (k2 y) (k2 x)); [done|]. by f_equal.
Qed.

Section LeaderboardOnStore.
Local Abbreviation on_tracker := get_leaderboard (only parsing).
Local Abbreviation scan := scan_contribution (only parsing).
Local Abbreviation entry_of := leaderboard_entry (only parsing).
Import Heap.

Lemma wp_scan_contribution h0 (h : heap) ur v x repos latest :
  keeps h0 h → length h0 ≤ ur →
  h !! ur = Some (OSet (VStr <$> repos)) →
  contribution_at h0 v x →
  wp (scan_contribution ur (from_option VStr VNone latest) v) h
    (λ latest' h',
       h' = <[ur := OSet (VStr <$> (scan (repos, latest) x).1)]> h
       ∧ latest' = from_option VStr VNone (scan (repos, latest) x).2).
Proof.
  intros Hk Hur Hset (l & -> & Hl).
  pose proof (lookup_lt_Some _ _ _ Hl) as Hlt.
  pose proof (lookup_lt_Some _ _ _ Hset) as Hlt'.
  pose proof (keeps_lookup _ _ _ _ Hk Hl) as Hl'.
  destruct (contribution_items_get x) as (Hrepo & _ & Hdate).
  unfold scan_contribution. apply wp_bind, wp_ret.
  apply wp_bind. unfold dict_get_default at 1. apply wp_bind.
  eapply wp_load_dict; [done|]. apply wp_ret.
  apply wp_bind. unfold set_add_to. apply wp_bind.
  eapply wp_load_set; [done|]. apply wp_store; [done|].
  apply wp_bind. unfold dict_get_default. apply wp_bind.
  eapply wp_load_dict; [by apply lookup_store_other; [lia|]|].
  apply wp_ret. rewrite Hrepo, Hdate.
  assert (Hr : default (VStr EmptyString) (VStr <$> repo_name x)
               = VStr (default EmptyString (repo_name x)))
    by (by destruct (repo_name x)).
  assert (Hd : default (VStr EmptyString) (VStr <$> date x)
               = VStr (default EmptyString (date x)))
    by (by destruct (date x)).
  rewrite Hr, Hd, set_add_fmap by apply _. simpl.
  destruct latest as [[|a s]|]; simpl.
  - apply wp_bind, wp_ret. by apply wp_ret.
  - apply wp_bind, wp_ret. apply wp_ret.
    by destruct (String.ltb _ _).
  - apply wp_bind, wp_ret. by apply wp_ret.
Qed.

Lemma wp_scan_contributions h0 (h : heap) ur elems cs :
  keeps h0 h → length h0 ≤ ur → h !! ur = Some (OSet []) →
  Forall2 (contribution_at h0) elems cs →
  wp (for_fold elems VNone (scan_contribution ur)) h (λ latest' h',
    h' = <[ur := OSet (VStr <$> (fold_left scan cs ([], None)).1)]> h
    ∧ latest' = from_option VStr VNone (fold_left scan cs ([], None)).2).
Proof.
  intros Hk Hur Hset Hcs.
  pose proof (lookup_lt_Some _ _ _ Hset) as Hlt.
  apply (wp_for_fold (λ rem latest' h',
    ∃ repos latest rem_pure,
      h' = <[ur := OSet (VStr <$> repos)]> h
      ∧ latest' = from_option VStr VNone latest
      ∧ Forall2 (contribution_at h0) rem rem_pure
      ∧ fold_left scan rem_pure (repos, latest)
        = fold_left scan cs ([], None))).
  - exists [], None, cs. split_and!; [|done..].
    symmetry. by apply list_insert_id.
  - intros v rem s h1 (repos & latest & rem_pure & -> & -> & Hrem & Heq).
    apply Forall2_cons_inv_l in Hrem as (x & xs & Hx & Hxs & ->).
    eapply wp_mono.
    { apply (wp_scan_contribution h0 _ ur v x repos latest);
        [by apply keeps_store | done | by apply list_lookup_insert_eq
        | done]. }
    intros latest' h2 [-> ->].
    exists (scan (repos, latest) x).1, (scan (repos, latest) x).2, xs.
    split_and!; [by rewrite list_insert_insert_eq|done|done|].
    rewrite <- Heq. simpl. by destruct (scan (repos, latest) x).
  - intros latest' h1 (repos & latest & rem_pure & -> & -> & Hrem & Heq).
    apply Forall2_nil_inv_l in Hrem as ->. simpl in Heq. by rewrite <- Heq.
Qed.

Lemma wp_get_contribution_count (h : heap) l nm un em jd lc elems Q :
  h !! l = Some (OContributor nm un em jd lc) →
  h !! lc = Some (OList elems) →
  Q (length elems) h → wp (get_contribution_count (VRef l)) h Q.
Proof.
  intros Hl Hlc HQ. unfold get_contribution_count. apply wp_bind.
  eapply wp_contributor_contributions; [done|].
  apply wp_bind. eapply wp_load_list; [done|]. by apply wp_ret.
Qed.

Lemma entry_at_step (h h' : heap) cws acc v e :
  h !! cws = Some (OList acc) →
  (∀ l' o, l' ≠ cws → h !! l' = Some o → h' !! l' = Some o) →
  entry_at h v e → entry_at h' v e.
Proof.
  intros Hcws Hstep (l & -> & Hl). exists l. split; [done|].
  apply Hstep; [|done]. intros ->. congruence.
Qed.

Lemma wp_leaderboard_entry h0 (h : heap) cws v c acc :
  keeps h0 h → length h0 ≤ cws → h !! cws = Some (OList acc) →
  contributor_at h0 v c →
  wp (leaderboard_entry cws v) h (λ _ h',
    keeps h0 h'
    ∧ ∃ l, h' !! cws = Some (OList (acc ++ [VRef l]))
           ∧ entry_at h' (VRef l) (entry_of c)
           ∧ ∀ l' o, l' ≠ cws → h !! l' = Some o → h' !! l' = Some o).
Proof.
  intros Hk Hcws Hacc (l & lc & elems & -> & Hl & Hlc & Hcs).
  pose proof (lookup_lt_Some _ _ _ Hacc) as Hlt.
  pose proof (lookup_lt_Some _ _ _ Hl) as Hllt.
  pose proof (lookup_lt_Some _ _ _ Hlc) as Hlclt.
  pose proof (keeps_length _ _ Hk) as Hlen.
  unfold leaderboard_entry. apply wp_bind, wp_alloc.
  set (h1 := h ++ [OSet []]).
  assert (Hk1 : keeps h0 h1) by (by apply keeps_alloc).
  apply wp_bind. eapply wp_contributor_contributions;
    [by eapply keeps_lookup|].
  apply wp_bind. eapply wp_load_list; [by eapply keeps_lookup|].
  apply wp_bind. eapply wp_mono.
  { apply (wp_scan_contributions h0 h1 (length h) elems (contributions c));
      [done | lia | apply lookup_alloc_new | done]. }
  intros latest h2 [-> ->].
  set (scanned := fold_left scan (contributions c) ([], None)).
  set (h2 := <[length h := OSet (VStr <$> scanned.1)]> h1).
  assert (Hk2 : keeps h0 h2) by (apply keeps_store; [done | lia]).
  assert (Hlen2 : length h2 = S (length h)).
  { unfold h2, h1. rewrite length_insert, length_app. simpl. lia. }
  apply wp_bind, wp_ret. apply wp_bind.
  eapply wp_load; [by eapply keeps_lookup|].
  apply wp_bind.
  eapply wp_get_contribution_count; [by eapply keeps_lookup..|].
  apply wp_bind. eapply wp_load_set.
  { apply list_lookup_insert_eq. unfold h1. rewrite length_app. simpl. lia. }
  apply wp_bind, wp_alloc. unfold list_append. apply wp_bind.
  eapply wp_load_list.
  { apply lookup_alloc_old. apply lookup_store_other; [lia|].
    by apply lookup_alloc_old. }
  apply wp_store; [rewrite length_app; simpl; lia|].
  split; [apply keeps_store; [by apply keeps_alloc | done]|].
  exists (length h2). split_and!.
  - apply list_lookup_insert_eq. rewrite length_app. simpl. lia.
  - eexists. split; [done|].
    rewrite list_lookup_insert_ne by lia.
    rewrite lookup_alloc_new. f_equal. f_equal.
    unfold entry_of. fold scanned. destruct scanned as [repos latest].
    simpl. unfold ContributorClass.get_contribution_count.
    by rewrite length_fmap, (Forall2_length _ _ _ Hcs).
  - intros l' o Hne Hl'. pose proof (lookup_lt_Some _ _ _ Hl').
    apply lookup_store_other; [done|]. apply lookup_alloc_old.
    apply lookup_store_other; [lia|]. by apply lookup_alloc_old.
Qed.

Lemma wp_leaderboard_loop h0 (h : heap) cws vs cs :
  keeps h0 h → length h0 ≤ cws → h !! cws = Some (OList []) →
  Forall2 (contributor_at h0) vs cs →
  wp (for_each vs (leaderboard_entry cws)) h (λ _ h',
    keeps h0 h'
    ∧ ∃ acc, h' !! cws = Some (OList acc)
             ∧ Forall2 (entry_at h') acc (entry_of <$> cs)).
Proof.
  intros Hk Hcws Hacc Hcs.
  apply (wp_for_each (λ rem h',
    keeps h0 h'
    ∧ ∃ acc' done' rem_pure,
        h' !! cws = Some (OList acc')
        ∧ Forall2 (contributor_at h0) rem rem_pure
        ∧ Forall2 (entry_at h') acc' (entry_of <$> done')
        ∧ done' ++ rem_pure = cs)).
  - split; [done|]. exists [], [], cs. split_and!; [done..|constructor|done].
  - intros x xs' h1 (Hk1 & acc1 & done1 & rem_pure & Hacc1 & Hrem & Hd1 & Heq).
    apply Forall2_cons_inv_l in Hrem as (p & ps & Hx & Hxs & ->).
    eapply wp_mono; [by apply (wp_leaderboard_entry h0 h1 cws x p acc1)|].
    intros [] h2 (Hk2 & l2 & Hacc2 & Hl2 & Hstep). split; [done|].
    exists (acc1 ++ [VRef l2]), (done1 ++ [p]), ps.
    split_and!; [done|done| |by rewrite <- app_assoc].
    rewrite fmap_app. apply Forall2_app.
    + eapply Forall2_impl; [exact Hd1|]. intros ??. by eapply entry_at_step.
    + by repeat constructor.
  - intros h1 (Hk1 & acc1 & done1 & rem_pure & Hacc1 & Hrem & Hd1 & Heq).
    apply Forall2_nil_inv_l in Hrem as ->. rewrite app_nil_r in Heq.
    subst done1. eauto.
Qed.

Lemma wp_count_key (h : heap) v e :
  entry_at h v e →
  wp (count_key v) h (λ k h',
    h' = h ∧ k = Z.of_nat (le_contribution_count e)).
Proof.
  intros (l & -> & Hl). unfold count_key.
  apply wp_bind, wp_ret. apply wp_bind. unfold dict_getitem.
  apply wp_bind. eapply wp_load_dict; [done|]. by apply wp_ret.
Qed.

Lemma wp_count_keys (h : heap) acc pure Q :
  Forall2 (entry_at h) acc pure →
  Q ((λ e, Z.of_nat (le_contribution_count e)) <$> pure) h →
  wp (map_M count_key acc) h Q.
Proof.
  intros Hacc HQ. revert Q HQ.
  induction Hacc as [|v rc acc pure Hv _ IH]; intros Q HQ; simpl.
  - by apply wp_ret.
  - apply wp_bind. eapply wp_mono; [by eapply wp_count_key|].
    intros k h' [-> ->]. apply wp_bind. apply IH. by apply wp_ret.
Qed.

(** [get_leaderboard], run on a store that holds the tracker [t], raises
    nothing, keeps every object the store had, and returns a new list
    that holds what the function on [t] returns. *)
Lemma wp_get_leaderboard h0 self t :
  tracker_at h0 self t →
  wp (get_leaderboard self) h0 (λ r h,
    keeps h0 h
    ∧ length h0 ≤ r
    ∧ ∃ elems, h !! r = Some (OList elems)
               ∧ Forall2 (entry_at h) elems (on_tracker t)).
Proof.
  intros (ld & items & Hself & Hld & Hkeys & Hcs).
  unfold get_leaderboard.
  apply wp_bind, wp_alloc.
  pose proof (keeps_alloc h0 h0 (OList []) (keeps_refl h0)) as Hk1.
  apply wp_bind. unfold tracker_contributors. apply wp_bind.
  eapply wp_load; [by eapply keeps_lookup|]. apply wp_ret.
  apply wp_bind. unfold dict_values_of. apply wp_bind.
  eapply wp_load_dict; [by eapply keeps_lookup|]. apply wp_ret.
  apply wp_bind.
  eapply wp_mono.
  { apply (wp_leaderboard_loop h0 _ (length h0) _
             (dict_values (contributors t)) Hk1);
      [done | apply lookup_alloc_new | exact Hcs]. }
  intros [] h1 (Hk & acc & Hacc & Hentries).
  pose proof (keeps_length _ _ Hk) as Hlen.
  apply wp_bind. eapply wp_load_list; [done|].
  apply wp_bind. unfold sorted_elems. apply wp_bind.
  eapply wp_count_keys; [done|]. apply wp_ret. apply wp_alloc.
  split_and!; [by apply keeps_alloc | lia |].
  eexists. split; [apply lookup_alloc_new|].
  unfold on_tracker, contributors_with_stats.
  rewrite (sorted_reverse_ext Nat.leb Z.leb le_contribution_count
             (λ e, Z.of_nat (le_contribution_count e))).
  - eapply Forall2_impl.
    + apply (sorted_elems_Forall2 Z.leb
               (λ e, Z.of_nat (le_contribution_count e))
               (entry_at h1)), Hentries.
    + intros v e (l & -> & Hl). exists l. split; [done|].
      by apply lookup_alloc_old.
  - intros a b. apply eq_iff_eq_true.
    rewrite Nat.leb_le, Z.leb_le. lia.
Qed.

End LeaderboardOnStore.

(* ================================================================== *)
(** * get_project_stats over the store *)
(* ================================================================== *)

Lemma dict_get_fmap {V W} (f : V → W) k (d : list (string * V)) :
  dict_get k (prod_map id f <$> d) = f <$> dict_get k d.
Proof.
  induction d as [|[k' v] d IH]; simpl; [done|].
  destruct (decide (k = k')); [done | exact IH].
Qed.

Lemma dict_set_fmap {V W} (f : V → W) k v (d : list (string * V)) :
  dict_set k (f v) (prod_map id f <$> d) = prod_map id f <$> dict_set k v d.
Proof.
  induction d as [|[k' v'] d IH]; simpl; [done|].
  destruct (decide (k = k')); simpl; [done|]. f_equal. exact IH.
Qed.

Section StatsOnStore.
Local Abbreviation on_tracker := get_project_stats (only parsing).
Local Abbreviation tally := tally_contribution (only parsing).
Local Abbreviation tally_all := tally_contributor (only parsing).
Local Abbreviation completed_of := get_completed_contributors (only parsing).
Local Abbreviation all_of := get_all_contributors (only parsing).
Import Heap.

Lemma wp_add_counts h0 (h : heap) vs cs acc :
  keeps h0 h → Forall2 (contributor_at h0) vs cs →
  wp (for_fold vs acc add_count) h (λ n h',
    h' = h
    ∧ n = fold_left Nat.add
            (ContributorClass.get_contribution_count <$> cs) acc).
Proof.
  intros Hk Hcs. revert acc.
  induction Hcs as [|v c vs cs Hv _ IH]; intros acc; simpl.
  - by apply wp_ret.
  - destruct Hv as (l & lc & elems & -> & Hl & Hlc & Hel).
    apply wp_bind. unfold add_count at 1. apply wp_bind.
    eapply wp_get_contribution_count; [by eapply keeps_lookup..|].
    apply wp_ret. rewrite (Forall2_length _ _ _ Hel). apply IH.
Qed.

Lemma wp_keep_if_complete h0 (h : heap) r v c acc :
  keeps h0 h → length h0 ≤ r → h !! r = Some (OList acc) →
  contributor_at h0 v c →
  wp (keep_if_complete r v) h (λ _ h',
    keeps h0 h'
    ∧ h' !! r
      = Some (OList (acc ++ if ContributorClass.is_hacktoberfest_complete c
                            then [v] else []))
    ∧ kept_but [r] h h').
Proof.
  intros Hk Hr Hacc (l & lc & elems & -> & Hl & Hlc & Hel).
  pose proof (lookup_lt_Some _ _ _ Hacc) as Hlt.
  unfold keep_if_complete. apply wp_bind.
  unfold is_hacktoberfest_complete. apply wp_bind.
  eapply wp_get_contribution_count; [by eapply keeps_lookup..|].
  apply wp_ret. rewrite (Forall2_length _ _ _ Hel).
  unfold ContributorClass.is_hacktoberfest_complete,
    ContributorClass.get_contribution_count.
  destruct (bool_decide _).
  - unfold list_append. apply wp_bind. eapply wp_load_list; [done|].
    apply wp_store; [done|]. split_and!.
    + by apply keeps_store.
    + by apply list_lookup_insert_eq.
    + intros l' o Hne Hl'. apply lookup_store_other; [|done].
      intros ->. apply Hne. left.
  - apply wp_ret. rewrite app_nil_r. split_and!; [done..|]. by intros ???.
Qed.

Lemma filter_complete_snoc (done : list Contributor) c :
  filter (λ x, ContributorClass.is_hacktoberfest_complete x = true)
    (done ++ [c])
  = filter (λ x, ContributorClass.is_hacktoberfest_complete x = true) done
    ++ if ContributorClass.is_hacktoberfest_complete c then [c] else [].
Proof.
  rewrite filter_app. f_equal. rewrite filter_cons, filter_nil.
  destruct (ContributorClass.is_hacktoberfest_complete c) eqn:E.
  - by rewrite decide_True.
  - by rewrite decide_False.
Qed.

Lemma wp_get_completed_contributors h0 (h : heap) self t :
  keeps h0 h → tracker_at h0 self t →
  wp (get_completed_contributors self) h (λ r h',
    keeps h0 h' ∧ r = length h
    ∧ kept_but [r] h h'
    ∧ ∃ elems, h' !! r = Some (OList elems)
               ∧ length elems = length (completed_of t)).
Proof.
  intros Hk (ld & items & Hself & Hld & Hkeys & Hcs).
  pose proof (keeps_length _ _ Hk) as Hlen.
  unfold get_completed_contributors.
  apply wp_bind. unfold tracker_contributors. apply wp_bind.
  eapply wp_load; [by eapply keeps_lookup|]. apply wp_ret.
  apply wp_bind. unfold dict_values_of. apply wp_bind.
  eapply wp_load_dict; [by eapply keeps_lookup|]. apply wp_ret.
  apply wp_bind, wp_alloc. apply wp_bind.
  apply (wp_for_each (λ rem h',
    keeps h0 h'
    ∧ kept_but [length h] h h'
    ∧ ∃ acc' done' rem_pure,
        h' !! length h = Some (OList acc')
        ∧ Forall2 (contributor_at h0) rem rem_pure
        ∧ length acc'
          = length (filter
              (λ x, ContributorClass.is_hacktoberfest_complete x = true)
              done')
        ∧ done' ++ rem_pure = dict_values (contributors t))).
  - split_and!; [by apply keeps_alloc | |].
    + intros l o _ Hl. by apply lookup_alloc_old.
    + exists [], [], (dict_values (contributors t)).
      split_and!; [apply lookup_alloc_new|done..].
  - intros x xs' h1
      (Hk1 & Hkept & acc1 & done1 & rem_pure & Hacc1 & Hrem & Hd1 & Heq).
    apply Forall2_cons_inv_l in Hrem as (p & ps & Hx & Hxs & ->).
    eapply wp_mono;
      [by apply (wp_keep_if_complete h0 h1 (length h) x p acc1); [|lia|..]|].
    intros [] h2 (Hk2 & Hacc2 & Hkept2). split_and!; [done| |].
    + intros l o Hne Hl. apply Hkept2, Hkept; done.
    + eexists _, (done1 ++ [p]), ps.
      split_and!; [exact Hacc2|done| |by rewrite <- app_assoc].
      rewrite filter_complete_snoc, !length_app, Hd1.
      by destruct (ContributorClass.is_hacktoberfest_complete p).
  - intros h1
      (Hk1 & Hkept & acc1 & done1 & rem_pure & Hacc1 & Hrem & Hd1 & Heq).
    apply Forall2_nil_inv_l in Hrem as ->. rewrite app_nil_r in Heq.
    subst done1. apply wp_ret. split_and!; [done..|]. eauto.
Qed.

Lemma wp_tally_contribution h0 (h : heap) bt ur v x byt repos :
  keeps h0 h → length h0 ≤ bt → length h0 ≤ ur → bt ≠ ur →
  h !! bt = Some (ODict (by_type_items byt)) →
  h !! ur = Some (OSet (VStr <$> repos)) →
  contribution_at h0 v x →
  wp (tally_contribution bt ur v) h (λ _ h',
    keeps h0 h'
    ∧ h' !! bt = Some (ODict (by_type_items (tally (byt, repos) x).1))
    ∧ h' !! ur = Some (OSet (VStr <$> (tally (byt, repos) x).2))
    ∧ kept_but [bt; ur] h h').
Proof.
  intros Hk Hbt Hur Hne Hbyt Hset (l & -> & Hl).
  pose proof (lookup_lt_Some _ _ _ Hl) as Hlt.
  pose proof (lookup_lt_Some _ _ _ Hbyt) as Hltb.
  pose proof (lookup_lt_Some _ _ _ Hset) as Hltu.
  pose proof (keeps_lookup _ _ _ _ Hk Hl) as Hl'.
  destruct (contribution_items_get x) as (Hrepo & Htype & _).
  unfold tally_contribution. apply wp_bind, wp_ret.
  apply wp_bind. unfold dict_get_default at 1. apply wp_bind.
  eapply wp_load_dict; [done|]. apply wp_ret. rewrite Htype.
  assert (Ht : default (VStr "unknown") (VStr <$> type x)
               = VStr (default "unknown" (type x)))
    by (by destruct (type x)).
  rewrite Ht. apply wp_bind, wp_ret.
  apply wp_bind. unfold dict_get_default at 1. apply wp_bind.
  eapply wp_load_dict; [done|]. apply wp_ret.
  unfold by_type_items at 1. rewrite dict_get_fmap.
  set (key := default "unknown" (type x)).
  assert (Hseen : default (VInt 0) ((λ n : nat, VInt (Z.of_nat n))
                                      <$> dict_get key byt)
                  = VInt (Z.of_nat (default 0 (dict_get key byt))))
    by (by destruct (dict_get key byt)).
  rewrite Hseen. apply wp_bind, wp_ret.
  apply wp_bind. unfold dict_setitem. apply wp_bind.
  eapply wp_load_dict; [done|]. apply wp_store; [done|].
  apply wp_bind. unfold dict_get_default. apply wp_bind.
  eapply wp_load_dict; [by apply lookup_store_other; [lia|]|].
  apply wp_ret. rewrite Hrepo.
  assert (Hr : default (VStr EmptyString) (VStr <$> repo_name x)
               = VStr (default EmptyString (repo_name x)))
    by (by destruct (repo_name x)).
  rewrite Hr. unfold set_add_to. apply wp_bind.
  eapply wp_load_set; [by apply lookup_store_other|].
  apply wp_store; [by rewrite length_insert|].
  rewrite set_add_fmap by apply _.
  replace (Z.of_nat (default 0%nat (dict_get key byt)) + 1)%Z
    with (Z.of_nat (default 0 (dict_get key byt) + 1)) by lia.
  unfold by_type_items.
  rewrite (dict_set_fmap (λ n : nat, VInt (Z.of_nat n))).
  split_and!.
  - by repeat apply keeps_store.
  - rewrite list_lookup_insert_ne by done. by apply list_lookup_insert_eq.
  - apply list_lookup_insert_eq. by rewrite length_insert.
  - intros l' o Hnotin Hl0. apply not_elem_of_cons in Hnotin as [? Hnotin].
    apply not_elem_of_cons in Hnotin as [? _].
    by repeat apply lookup_store_other.
Qed.

Lemma kept_but_trans ls (h1 h2 h3 : heap) :
  kept_but ls h1 h2 → kept_but ls h2 h3 → kept_but ls h1 h3.
Proof. intros H12 H23 l o Hl Hlo. by apply H23, H12. Qed.

Lemma wp_tally_contributor h0 (h : heap) bt ur v c byt repos :
  keeps h0 h → length h0 ≤ bt → length h0 ≤ ur → bt ≠ ur →
  h !! bt = Some (ODict (by_type_items byt)) →
  h !! ur = Some (OSet (VStr <$> repos)) →
  contributor_at h0 v c →
  wp (tally_contributor bt ur v) h (λ _ h',
    keeps h0 h'
    ∧ h' !! bt = Some (ODict (by_type_items (tally_all (byt, repos) c).1))
    ∧ h' !! ur = Some (OSet (VStr <$> (tally_all (byt, repos) c).2))
    ∧ kept_but [bt; ur] h h').
Proof.
  intros Hk Hbt Hur Hne Hbyt Hset (l & lc & elems & -> & Hl & Hlc & Hel).
  unfold tally_contributor. apply wp_bind.
  eapply wp_contributor_contributions; [by eapply keeps_lookup|].
  apply wp_bind. eapply wp_load_list; [by eapply keeps_lookup|].
  apply (wp_for_each (λ rem h',
    keeps h0 h' ∧ kept_but [bt; ur] h h'
    ∧ ∃ byt' repos' rem_pure,
        h' !! bt = Some (ODict (by_type_items byt'))
        ∧ h' !! ur = Some (OSet (VStr <$> repos'))
        ∧ Forall2 (contribution_at h0) rem rem_pure
        ∧ fold_left tally rem_pure (byt', repos')
          = tally_all (byt, repos) c)).
  - split_and!; [done|by intros ???|]. by exists byt, repos, (contributions c).
  - intros x xs' h1
      (Hk1 & Hkept & byt1 & repos1 & rem_pure & Hb1 & Hu1 & Hrem & Heq).
    apply Forall2_cons_inv_l in Hrem as (p & ps & Hx & Hxs & ->).
    eapply wp_mono;
      [by apply (wp_tally_contribution h0 h1 bt ur x p byt1 repos1)|].
    intros [] h2 (Hk2 & Hb2 & Hu2 & Hkept2).
    split_and!; [done|by eapply kept_but_trans|].
    exists (tally (byt1, repos1) p).1, (tally (byt1, repos1) p).2, ps.
    split_and!; [done..|]. rewrite <- Heq. simpl.
    by destruct (tally (byt1, repos1) p).
  - intros h1 (Hk1 & Hkept & byt1 & repos1 & rem_pure & Hb1 & Hu1 & Hrem & Heq).
    apply Forall2_nil_inv_l in Hrem as ->. simpl in Heq. by rewrite <- Heq.
Qed.

Lemma wp_tally_loop h0 (h : heap) bt ur vs cs :
  keeps h0 h → length h0 ≤ bt → length h0 ≤ ur → bt ≠ ur →
  h !! bt = Some (ODict []) → h !! ur = Some (OSet []) →
  Forall2 (contributor_at h0) vs cs →
  wp (for_each vs (tally_contributor bt ur)) h (λ _ h',
    keeps h0 h'
    ∧ h' !! bt
      = Some (ODict (by_type_items (fold_left tally_all cs ([], [])).1))
    ∧ h' !! ur = Some (OSet (VStr <$> (fold_left tally_all cs ([], [])).2))
    ∧ kept_but [bt; ur] h h').
Proof.
  intros Hk Hbt Hur Hne Hbyt Hset Hcs.
  apply (wp_for_each (λ rem h',
    keeps h0 h' ∧ kept_but [bt; ur] h h'
    ∧ ∃ byt' repos' rem_pure,
        h' !! bt = Some (ODict (by_type_items byt'))
        ∧ h' !! ur = Some (OSet (VStr <$> repos'))
        ∧ Forall2 (contributor_at h0) rem rem_pure
        ∧ fold_left tally_all rem_pure (byt', repos')
          = fold_left tally_all cs ([], []))).
  - split_and!; [done|by intros ???|]. by exists [], [], cs.
  - intros x xs' h1
      (Hk1 & Hkept & byt1 & repos1 & rem_pure & Hb1 & Hu1 & Hrem & Heq).
    apply Forall2_cons_inv_l in Hrem as (p & ps & Hx & Hxs & ->).
    eapply wp_mono;
      [by apply (wp_tally_contributor h0 h1 bt ur x p byt1 repos1)|].
    intros [] h2 (Hk2 & Hb2 & Hu2 & Hkept2).
    split_and!; [done|by eapply kept_but_trans|].
    exists (tally_all (byt1, repos1) p).1, (tally_all (byt1, repos1) p).2, ps.
    split_and!; [done..|]. rewrite <- Heq. simpl.
    by destruct (tally_all (byt1, repos1) p).
  - intros h1 (Hk1 & Hkept & byt1 & repos1 & rem_pure & Hb1 & Hu1 & Hrem & Heq).
    apply Forall2_nil_inv_l in Hrem as ->. simpl in Heq.
    rewrite <- Heq. by split_and!.
Qed.

(** [get_project_stats], run on a store that holds the tracker [t],
    raises nothing, keeps every object the store had, and returns a new
    dict that holds what the function on [t] returns. *)
Lemma wp_get_project_stats h0 self t :
  tracker_at h0 self t →
  wp (get_project_stats self) h0 (λ r h,
    keeps h0 h ∧ length h0 ≤ r ∧ stats_at h r (on_tracker t)).
Proof.
  intros Ht. pose proof Ht as (ld & items & Hself & Hld & Hkeys & Hcs).
  unfold get_project_stats.
  apply wp_bind. unfold get_all_contributors.
  apply wp_bind. unfold tracker_contributors. apply wp_bind.
  eapply wp_load; [done|]. apply wp_ret.
  apply wp_bind. unfold dict_values_of. apply wp_bind.
  eapply wp_load_dict; [done|]. apply wp_ret. apply wp_alloc.
  set (h1 := h0 ++ [OList (dict_values items)]).
  assert (Hk1 : keeps h0 h1) by apply keeps_alloc, keeps_refl.
  apply wp_bind. eapply wp_load_list; [apply lookup_alloc_new|].
  apply wp_bind. eapply wp_mono; [by eapply wp_add_counts|].
  intros total h' [-> ->].
  apply wp_bind. eapply wp_mono; [by eapply wp_get_completed_contributors|].
  intros r h2 (Hk2 & -> & Hkept2 & completed & Hcompleted & Hcount).
  pose proof (keeps_length _ _ Hk2) as Hlen2.
  apply wp_bind. eapply wp_load_list; [done|].
  apply wp_bind, wp_alloc. apply wp_bind, wp_alloc.
  set (h3 := (h2 ++ [ODict []]) ++ [OSet []]).
  assert (Hk3 : keeps h0 h3) by (by apply keeps_alloc, keeps_alloc).
  assert (Hlen3 : length h3 = S (S (length h2))).
  { unfold h3. rewrite !length_app. simpl. lia. }
  apply wp_bind. eapply wp_mono.
  { apply (wp_tally_loop h0 h3 (length h2) (length (h2 ++ [ODict []]))
             (dict_values items) (dict_values (contributors t)));
      [done | lia | rewrite length_app; simpl; lia
      | rewrite length_app; simpl; lia
      | apply lookup_alloc_old, lookup_alloc_new
      | apply lookup_alloc_new | done]. }
  intros [] h4 (Hk4 & Hbt & Hur & Hkept4).
  apply wp_bind. eapply wp_load; [by eapply keeps_lookup|].
  apply wp_bind. eapply wp_load_set; [done|]. apply wp_alloc.
  split_and!; [by apply keeps_alloc | apply keeps_length in Hk4; lia|].
  unfold stats_at, on_tracker, all_of in *.
  destruct (fold_left tally_all (dict_values (contributors t)) ([], []))
    as [byt repos] eqn:Htally.
  simpl in *. exists (length h2). split; [|by apply lookup_alloc_old].
  rewrite lookup_alloc_new. f_equal. f_equal.
  rewrite Hcount, length_fmap. unfold Py.sum.
  rewrite (Forall2_length _ _ _ Hcs).
  by destruct Hcs.
Qed.

End StatsOnStore.

(* ================================================================== *)
(** * Trackers in the store *)
(* ================================================================== *)

Section Allocation.
Import Heap.

Lemma wp_alloc_contributions (h : heap) cs :
  wp (map_M alloc_contribution cs) h (λ vs h',
    keeps h h' ∧ Forall2 (contribution_at h') vs cs).
Proof.
  revert h. induction cs as [|c cs IH]; intros h; simpl.
  - apply wp_ret. split; [apply keeps_refl | constructor].
  - apply wp_bind. unfold alloc_contribution at 1.
    apply wp_bind, wp_alloc. apply wp_ret.
    apply wp_bind. eapply wp_mono; [apply IH|].
    intros vs h' [Hk Hvs]. apply wp_ret.
    pose proof (keeps_alloc h h (ODict (contribution_items c))
                  (keeps_refl h)) as Hk1.
    split; [by eapply keeps_trans|]. constructor; [|done].
    exists (length h). split; [done|].
    eapply keeps_lookup; [exact Hk|]. apply lookup_alloc_new.
Qed.

Lemma wp_alloc_contributor (h : heap) c :
  wp (alloc_contributor c) h (λ v h', keeps h h' ∧ contributor_at h' v c).
Proof.
  unfold alloc_contributor. apply wp_bind.
  eapply wp_mono; [apply wp_alloc_contributions|].
  intros vs h1 [Hk1 Hvs]. apply wp_bind, wp_alloc.
  apply wp_bind, wp_alloc. apply wp_ret.
  assert (Hk2 : keeps h1 ((h1 ++ [OList vs]) ++
                          [OContributor (name c) (github_username c)
                             (email c) (joined_date c) (length h1)]))
    by apply keeps_alloc, keeps_alloc, keeps_refl.
  split; [by eapply keeps_trans|].
  exists (length (h1 ++ [OList vs])), (length h1), vs.
  split_and!; [done| | |].
  - apply lookup_alloc_new.
  - apply lookup_alloc_old, lookup_alloc_new.
  - eapply Forall2_impl; [exact Hvs|]. intros ??.
    by apply contribution_at_keeps.
Qed.

Lemma wp_alloc_contributors (h : heap) cs :
  wp (map_M alloc_contributor cs) h (λ vs h',
    keeps h h' ∧ Forall2 (contributor_at h') vs cs).
Proof.
  revert h. induction cs as [|c cs IH]; intros h; simpl.
  - apply wp_ret. split; [apply keeps_refl | constructor].
  - apply wp_bind. eapply wp_mono; [apply wp_alloc_contributor|].
    intros v h1 [Hk1 Hv]. apply wp_bind. eapply wp_mono; [apply IH|].
    intros vs h' [Hk Hvs]. apply wp_ret.
    split; [by eapply keeps_trans|]. constructor; [|done].
    by eapply contributor_at_keeps.
Qed.

(** Every tracker is held by some store: [alloc_tracker] builds one. *)
Lemma wp_alloc_tracker (h : heap) t :
  wp (alloc_tracker t) h (λ self h', keeps h h' ∧ tracker_at h' self t).
Proof.
  unfold alloc_tracker. apply wp_bind.
  eapply wp_mono; [apply wp_alloc_contributors|].
  intros vs h1 [Hk1 Hvs]. apply wp_bind, wp_alloc. apply wp_alloc.
  pose proof (Forall2_length _ _ _ Hvs) as Hlen.
  unfold dict_values, dict_keys in *. rewrite length_fmap in Hlen.
  set (items := zip (contributors t).*1 vs).
  assert (Hk2 : keeps h1 ((h1 ++ [ODict items]) ++
                          [OTracker (project_name t) (length h1)
                             (created_date t)]))
    by apply keeps_alloc, keeps_alloc, keeps_refl.
  split; [by eapply keeps_trans|].
  exists (length h1), items. split_and!.
  - apply lookup_alloc_new.
  - apply lookup_alloc_old, lookup_alloc_new.
  - unfold items. apply fst_zip. unfold dict_keys.
    rewrite length_fmap. lia.
  - unfold items, dict_values.
    rewrite snd_zip by (rewrite length_fmap; lia).
    eapply Forall2_impl; [exact Hvs|]. intros ??.
    by apply contributor_at_keeps.
Qed.

End Allocation.

(* ================================================================== *)
(** * The analytics operations change nothing *)
(* ================================================================== *)

(** C9. [get_leaderboard], [get_project_stats] and
    [get_recent_contributions], run on a store that holds the tracker,
    return normally and leave a store in which every object that was
    there is as it was (the lists and dicts they write to are new), so
    that the store still holds the same tracker: the same collection, the
    same contributors, the same contribution records. *)
Theorem analytics_do_not_mutate
    (h : list Heap.object) (self : nat) (t : ProjectTracker) (limit : Z) :
  Heap.tracker_at h self t →
  Heap.wp (Heap.get_leaderboard self) h
    (λ _ h', Heap.preserves h h' ∧ Heap.tracker_at h' self t)
  ∧ Heap.wp (Heap.get_project_stats self) h
      (λ _ h', Heap.preserves h h' ∧ Heap.tracker_at h' self t)
  ∧ Heap.wp (Heap.get_recent_contributions self limit) h
      (λ _ h', Heap.preserves h h' ∧ Heap.tracker_at h' self t).
Proof.
  intros Ht. split_and!.
  - eapply wp_mono; [by apply wp_get_leaderboard|].
    intros r h' (Hk & _). eauto using keeps_preserves, tracker_at_keeps.
  - eapply wp_mono; [by apply wp_get_project_stats|].
    intros r h' (Hk & _). eauto using keeps_preserves, tracker_at_keeps.
  - eapply wp_mono; [by apply wp_get_recent_contributions|].
    intros r h' (Hk & _). eauto using keeps_preserves, tracker_at_keeps.
Qed.

Lemma analytics_do_not_mutate_witness :
  Heap.tracker_at Sample.store Sample.self Sample.tracker3
  ∧ Heap.wp (Heap.get_recent_contributions Sample.self 4) Sample.store
      (λ _ h', Heap.preserves Sample.store h'
               ∧ Heap.tracker_at h' Sample.self Sample.tracker3).
Proof.
  assert (Ht : Heap.tracker_at Sample.store Sample.self Sample.tracker3).
  { exact (proj2 (wp_alloc_tracker [] Sample.tracker3)). }
  split; [exact Ht|].
  exact (proj2 (proj2 (analytics_do_not_mutate Sample.store Sample.self
                         Sample.tracker3 4 Ht))).
Defined.

(* ================================================================== *)
(** * Registering, contributing and the data file *)
(* ================================================================== *)

Lemma dict_get_set_same {V} (d : list (string * V)) k v :
  dict_get k d = Some v → dict_set k v d = d.
Proof.
  induction d as [|[k' v'] d IH]; simpl; [done|].
  destruct (decide (k = k')) as [->|Hne].
  - by intros [= ->].
  - intros H. by rewrite IH.
Qed.

Lemma dict_get_set_ne {V} (d : list (string * V)) k v k' :
  k' ≠ k → dict_get k' (dict_set k v d) = dict_get k' d.
Proof. intros Hne. rewrite dict_get_set. by rewrite decide_False. Qed.

Lemma dict_get_set_eq {V} (d : list (string * V)) k v :
  dict_get k (dict_set k v d) = Some v.
Proof. rewrite dict_get_set. by rewrite decide_True. Qed.

Lemma files_save_data t w :
  data_file t ∉ locked w →
  files (save_data t w) = <[data_file t := Document (to_document t)]> (files w).
Proof. intros H. unfold save_data. by rewrite decide_False. Qed.

(** A save that fails: the error is printed, and the data file is as it
    was or, when it could be opened, no longer JSON. *)
Lemma save_data_locked t w :
  data_file t ∈ locked w →
  save_data t w
  = emit (Print_error_saving (OSError (data_file t)))
      (if decide (data_file t ∈ torn w)
       then write_file (data_file t) Malformed w
       else w).
Proof. intros H. unfold save_data. by rewrite decide_True. Qed.

(** What [load_data] makes of the tracker depends on the files and on
    the installed Python only. *)
Lemma load_data_files now t w w' :
  files w = files w' → other_layouts w = other_layouts w' →
  (load_data now t w).1 = (load_data now t w').1.
Proof.
  intros H H'. unfold load_data. rewrite H, H'.
  destruct (files w' !! data_file t) as [[|data]|]; try done.
  by destruct (load_document _ now data t) as [t' [e|]].
Qed.

Lemma other_layouts_save_data t w :
  other_layouts (save_data t w) = other_layouts w.
Proof. unfold save_data. by repeat destruct (decide _). Qed.


Lemma mails_emit e w :
  mails (emit e w) = mails w ++ (if is_mail e then [e] else []).
Proof.
  unfold mails, emit. simpl. rewrite filter_app. f_equal.
  destruct (is_mail e) eqn:He.
  - by rewrite filter_cons_True.
  - rewrite filter_cons_False; [done|]. by rewrite He.
Qed.

Lemma mails_save_data t w : mails (save_data t w) = mails w.
Proof.
  unfold save_data. destruct (decide _); [|done].
  rewrite mails_emit. simpl. rewrite app_nil_r. by destruct (decide _).
Qed.

(** X1. [add_contributor] with a username the tracker does not hold
    puts the new contributor, the one it returns, at the end of the
    collection and leaves every other entry as it was; if the data file
    can be written, the file then holds the document of the new
    collection. *)
Theorem add_contributor_new_username
    (name github_username email : string) (now : datetime)
    (t : ProjectTracker) (w : World) :
  get_contributor github_username t = None →
  let r := add_contributor name github_username email now t w in
  contributors r.1.2 = contributors t ++ [(github_username, r.1.1)]
  ∧ get_contributor github_username r.1.2 = Some r.1.1
  ∧ (∀ other, other ≠ github_username →
       get_contributor other r.1.2 = get_contributor other t)
  ∧ (data_file t ∉ locked w →
     files r.2 !! data_file t = Some (Document (to_document r.1.2))).
Proof.
  intros Hnew r. subst r. unfold get_contributor in *.
  unfold add_contributor. rewrite Hnew. simpl.
  repeat split.
  - apply dict_set_snoc. by apply dict_get_None.
  - apply dict_get_set_eq.
  - intros other Hne. by apply dict_get_set_ne.
  - intros Hunlocked. rewrite files_save_data.
    + simpl. by rewrite lookup_insert_eq.
    + simpl. by destruct (_ && _).
Qed.

Lemma add_contributor_new_username_witness :
  get_contributor "dave" Sample.tracker = None
  ∧ contributors
      (add_contributor "Dave" "dave" EmptyString Sample.today
         Sample.tracker Sample.world).1.2
    = contributors Sample.tracker
      ++ [("dave", ContributorClass.new "Dave" "dave" EmptyString
                     Sample.today)].
Proof.
  split; [reflexivity|].
  exact (proj1 (add_contributor_new_username "Dave" "dave" EmptyString
                  Sample.today Sample.tracker Sample.world eq_refl)).
Defined.



(** X3. [add_contribution] for a registered username answers [True] and
    changes the entry of that username only: the usernames and their
    order stay, every other contributor stays, and the contributor
    under the username is the old one after its own [add_contribution];
    if the data file can be written, it then holds the document of the
    new collection. *)
Theorem add_contribution_changes_one_entry
    (github_username repo_name contribution_type description : string)
    (pr_number : option Z) (now : datetime)
    (t : ProjectTracker) (w : World) (contributor : Contributor) :
  get_contributor github_username t = Some contributor →
  let r := add_contribution github_username repo_name contribution_type
             description pr_number now t w in
  r.1.1 = true
  ∧ dict_keys (contributors r.1.2) = dict_keys (contributors t)
  ∧ get_contributor github_username r.1.2
    = Some (ContributorClass.add_contribution repo_name contribution_type
              description pr_number now contributor)
  ∧ (∀ other, other ≠ github_username →
       get_contributor other r.1.2 = get_contributor other t)
  ∧ (data_file t ∉ locked w →
     files r.2 !! data_file t = Some (Document (to_document r.1.2))).
Proof.
  intros Hc r. subst r. unfold add_contribution. rewrite Hc.
  unfold get_contributor in *. simpl.
  repeat split.
  - apply dict_keys_set_mem.
    destruct (decide (github_username ∈ dict_keys (contributors t)))
      as [|Hn]; [done|].
    apply dict_get_None in Hn. congruence.
  - apply dict_get_set_eq.
  - intros other Hne. by apply dict_get_set_ne.
  - intros Hunlocked. rewrite files_save_data.
    + simpl. by rewrite lookup_insert_eq.
    + simpl. by destruct (_ && _).
Qed.

Lemma add_contribution_changes_one_entry_witness :
  get_contributor "bob" Sample.tracker = Some Sample.bob
  ∧ (add_contribution "bob" "docs" "code" "typo" (Some 7%Z) Sample.today
       Sample.tracker Sample.world).1.1 = true
  ∧ get_contributor "alice"
      (add_contribution "bob" "docs" "code" "typo" (Some 7%Z) Sample.today
         Sample.tracker Sample.world).1.2
    = Some Sample.alice.
Proof.
  destruct (add_contribution_changes_one_entry "bob" "docs" "code" "typo"
              (Some 7%Z) Sample.today Sample.tracker Sample.world
              Sample.bob eq_refl) as (Htrue & _ & _ & Hother & _).
  split; [reflexivity|]. split; [exact Htrue|].
  rewrite Hother; [reflexivity | discriminate].
Defined.

(** X4. A save that fails does not stop [add_contributor]: the new
    contributor is in the collection and the error is printed last.
    What a later run finds depends on where the save failed.  If the
    data file could not be opened, no file has changed, and a tracker
    constructed afterwards on the same data file is the one that would
    have been constructed before the call.  If the file was opened and
    the write failed, the file is no longer JSON: a tracker constructed
    afterwards prints the error of [load_data] and has no contributors,
    so the old data is lost as well.  Either way the new contributor is
    not known afterwards unless the old file had the username. *)
Theorem add_contributor_unsaved_is_lost
    (name github_username email : string) (now : datetime)
    (t : ProjectTracker) (w : World) :
  get_contributor github_username t = None →
  data_file t ∈ locked w →
  let r := add_contributor name github_username email now t w in
  get_contributor github_username r.1.2 = Some r.1.1
  ∧ last (trace r.2) = Some (Print_error_saving (OSError (data_file t)))
  ∧ (data_file t ∉ torn w →
     files r.2 = files w
     ∧ ∀ project_name' enable smtp sender password later,
         (init project_name' (data_file t) enable smtp sender password
            later r.2).1
         = (init project_name' (data_file t) enable smtp sender password
              later w).1)
  ∧ (data_file t ∈ torn w →
     files r.2 = <[data_file t := Malformed]> (files w)
     ∧ ∀ project_name' enable smtp sender password later,
         let restarted :=
           init project_name' (data_file t) enable smtp sender password
             later r.2 in
         contributors restarted.1 = []
         ∧ last (trace restarted.2)
           = Some (Print_error_loading JSONDecodeError)).
Proof.
  intros Hnew Hlocked r.
  assert (Hr : r.2 = emit (Print_error_saving (OSError (data_file t)))
                 (if decide (data_file t ∈ torn w)
                  then write_file (data_file t) Malformed
                         (if bool_decide (is_Some (notifier t))
                             && nonempty email
                          then emit (Send_welcome_email email name
                                       github_username) w
                          else w)
                  else if bool_decide (is_Some (notifier t))
                          && nonempty email
                       then emit (Send_welcome_email email name
                                    github_username) w
                       else w)).
  { subst r. unfold get_contributor in Hnew. unfold add_contributor.
    rewrite Hnew. cbn [snd]. rewrite save_data_locked.
    - cbn [data_file with_contributors].
      by destruct (_ && _), (decide _).
    - cbn [data_file with_contributors]. by destruct (_ && _). }
  split; [apply add_contributor_registers|]. split.
  { rewrite Hr. cbn [trace emit]. by rewrite last_snoc. }
  split.
  - intros Hwhole. rewrite Hr, decide_False by done.
    assert (Hfiles : ∀ w0 : World,
              files (emit (Print_error_saving (OSError (data_file t)))
                       (if bool_decide (is_Some (notifier t))
                           && nonempty email
                        then emit (Send_welcome_email email name
                                     github_username) w0
                        else w0)) = files w0
              ∧ other_layouts
                  (emit (Print_error_saving (OSError (data_file t)))
                     (if bool_decide (is_Some (notifier t))
                         && nonempty email
                      then emit (Send_welcome_email email name
                                   github_username) w0
                      else w0)) = other_layouts w0).
    { intros w0. by destruct (_ && _). }
    split; [apply Hfiles|].
    intros. unfold init. apply load_data_files; apply Hfiles.
  - intros Htorn. rewrite Hr, decide_True by done.
    split; [by destruct (_ && _)|].
    intros project_name' enable smtp sender password later restarted.
    subst restarted. unfold init, load_data.
    cbn [data_file files emit write_file].
    rewrite lookup_insert_eq. cbn [fst snd contributors trace emit].
    split; [done|]. by rewrite last_snoc.
Qed.

Lemma add_contributor_unsaved_is_lost_witness :
  get_contributor "dave" Sample.tracker = None
  ∧ data_file Sample.tracker ∈ locked Sample2.torn_world
  ∧ get_contributor "dave"
      (add_contributor "Dave" "dave" EmptyString Sample.today
         Sample.tracker Sample2.torn_world).1.2
    = Some (ContributorClass.new "Dave" "dave" EmptyString Sample.today)
  ∧ contributors
      (init "Restarted" "contributors.json" false None None None
         (Sample.oct 20 9) Sample2.torn_world).1
    = contributors Sample.tracker
  ∧ contributors
      (init "Restarted" "contributors.json" false None None None
         (Sample.oct 20 9)
         (add_contributor "Dave" "dave" EmptyString Sample.today
            Sample.tracker Sample2.torn_world).2).1
    = [].
Proof.
  assert (Hlocked : data_file Sample.tracker ∈ locked Sample2.torn_world).
  { apply (bool_decide_unpack _). exact I. }
  assert (Htorn : data_file Sample.tracker ∈ torn Sample2.torn_world).
  { apply (bool_decide_unpack _). exact I. }
  destruct (add_contributor_unsaved_is_lost "Dave" "dave" EmptyString
              Sample.today Sample.tracker Sample2.torn_world
              eq_refl Hlocked) as (Hheld & _ & _ & Hlost).
  split; [reflexivity|]. split; [exact Hlocked|]. split; [exact Hheld|].
  split; [vm_compute; reflexivity|].
  exact (proj1 (proj2 (Hlost Htorn) "Restarted" false None None None
                  (Sample.oct 20 9))).
Defined.

(** X5. [add_contributor] calls the notifier exactly when the tracker
    has one, the username is new and the email address is not empty, and
    then once, with the welcome email for the arguments of the call;
    otherwise no mail is sent. *)
Theorem add_contributor_welcome_mail
    (name github_username email : string) (now : datetime)
    (t : ProjectTracker) (w : World) :
  mails (add_contributor name github_username email now t w).2
  = mails w
    ++ match notifier t, get_contributor github_username t with
       | Some _, None =>
           if nonempty email
           then [Send_welcome_email email name github_username]
           else []
       | _, _ => []
       end.
Proof.
  unfold add_contributor, get_contributor.
  destruct (dict_get github_username (contributors t)) as [c|]; simpl.
  - destruct (notifier t); by rewrite app_nil_r.
  - rewrite mails_save_data.
    destruct (notifier t) as [n|]; simpl.
    + destruct (nonempty email).
      * by rewrite mails_emit.
      * by rewrite app_nil_r.
    + by rewrite app_nil_r.
Qed.

(** X6. [add_contribution] calls the notifier exactly when the tracker
    has one, the username is registered and the contributor has an email
    address, and then once: the milestone notification carries the
    contributor as it is after the new contribution. *)
Theorem add_contribution_milestone_mail
    (github_username repo_name contribution_type description : string)
    (pr_number : option Z) (now : datetime)
    (t : ProjectTracker) (w : World) :
  mails (add_contribution github_username repo_name contribution_type
           description pr_number now t w).2
  = mails w
    ++ match notifier t, get_contributor github_username t with
       | Some _, Some contributor =>
           let contributor' :=
             ContributorClass.add_contribution repo_name contribution_type
               description pr_number now contributor in
           if nonempty (email contributor)
           then [Send_milestone_notification (email contributor)
                   github_username
                   (ContributorClass.get_contribution_count contributor')
                   (ContributorClass.is_hacktoberfest_complete contributor')]
           else []
       | _, _ => []
       end.
Proof.
  unfold add_contribution.
  destruct (get_contributor github_username t) as [c|]; simpl.
  - rewrite mails_save_data.
    destruct (notifier t) as [n|]; simpl.
    + destruct (nonempty (email c)); [|by rewrite app_nil_r].
      rewrite ?Nat.mod_1_r. simpl. by rewrite mails_emit.
    + by rewrite app_nil_r.
  - destruct (notifier t); by rewrite app_nil_r.
Qed.

(* ================================================================== *)
(** * What the leaderboard and the statistics count *)
(* ================================================================== *)

Section SetFacts.
Context {A : Type} `{EqDecision A}.

Lemma elem_of_set_add (x y : A) s : y ∈ set_add x s ↔ y = x ∨ y ∈ s.
Proof.
  unfold set_add. destruct (decide (x ∈ s)) as [Hin|Hout].
  - split; [by right|]. by intros [->|].
  - rewrite elem_of_app, list_elem_of_singleton. tauto.
Qed.

Lemma set_add_NoDup (x : A) s : NoDup s → NoDup (set_add x s).
Proof.
  intros Hs. unfold set_add. destruct (decide (x ∈ s)) as [Hin|Hout]; [done|].
  apply NoDup_app. split; [done|]. split; [|apply NoDup_singleton].
  intros y Hy Hyx. apply list_elem_of_singleton in Hyx. by subst y.
Qed.

Lemma fold_set_add_elem_of {B} (f : B → A) l s y :
  y ∈ fold_left (λ s b, set_add (f b) s) l s ↔ y ∈ f <$> l ∨ y ∈ s.
Proof.
  revert s. induction l as [|b l IH]; intros s; simpl.
  - rewrite elem_of_nil. tauto.
  - rewrite IH, elem_of_set_add, elem_of_cons. tauto.
Qed.

Lemma fold_set_add_NoDup {B} (f : B → A) l s :
  NoDup s → NoDup (fold_left (λ s b, set_add (f b) s) l s).
Proof.
  revert s. induction l as [|b l IH]; intros s Hs; simpl; [done|].
  by apply IH, set_add_NoDup.
Qed.

Lemma set_add_length (x : A) s : length (set_add x s) ≤ S (length s).
Proof.
  unfold set_add. destruct (decide _); [lia|].
  rewrite length_app. simpl. lia.
Qed.

Lemma fold_set_add_length {B} (f : B → A) l s :
  length (fold_left (λ s b, set_add (f b) s) l s) ≤ length s + length l.
Proof.
  revert s. induction l as [|b l IH]; intros s; simpl; [lia|].
  etrans; [apply IH|]. pose proof (set_add_length (f b) s). lia.
Qed.
End SetFacts.

(** The number of strings a loop of [set.add] has collected. *)
Lemma fold_set_add_size {B} (f : B → string) (l : list B) :
  length (fold_left (λ s b, set_add (f b) s) l [])
  = size (list_to_set (f <$> l) : gset string).
Proof.
  rewrite <- (size_list_to_set (C := gset string))
    by (apply fold_set_add_NoDup, NoDup_nil_2).
  f_equal. apply set_eq. intros y.
  rewrite !elem_of_list_to_set, fold_set_add_elem_of, elem_of_nil. tauto.
Qed.

(** ** The inner loop of get_leaderboard *)

Lemma scan_contributions_repos l s m :
  (fold_left scan_contribution l (s, m)).1
  = fold_left (λ s c, set_add (repo_of c) s) l s.
Proof.
  revert s m. induction l as [|c l IH]; intros s m; simpl; [done|].
  apply IH.
Qed.

Lemma string_ltb_leb a b : String.ltb a b = true → String.leb a b = true.
Proof.
  unfold String.ltb, String.leb. by destruct (String.compare a b).
Qed.

Lemma string_ltb_false a b : String.ltb a b = false → String.leb b a = true.
Proof.
  unfold String.ltb, String.leb. rewrite (String.compare_antisym a b).
  by destruct (String.compare b a).
Qed.

Lemma string_leb_empty a : String.leb EmptyString a = true.
Proof. by destruct a. Qed.

Lemma string_leb_refl a : String.leb a a = true.
Proof. apply (leb_refl String.leb string_leb_total). Qed.

Lemma scan_contribution_some s m0 c :
  scan_contribution (s, Some m0) c
  = (set_add (repo_of c) s,
     Some (if negb (nonempty m0) || String.ltb m0 (date_of c)
           then date_of c else m0)).
Proof.
  unfold scan_contribution, repo_of, date_of.
  destruct m0; simpl; [done|]. by destruct (String.ltb _ _).
Qed.

Lemma nonempty_false_le (m : string) a :
  nonempty m = false → String.leb m a = true.
Proof. destruct m; [intros _; apply string_leb_empty | done]. Qed.

(** After the loop the second component is the greatest date seen, if
    the loop started with one that bounds the dates before. *)
Lemma scan_contributions_latest l s m0 :
  ∀ m, (fold_left scan_contribution l (s, Some m0)).2 = Some m →
       (m = m0 ∨ m ∈ date_of <$> l)
       ∧ String.leb m0 m = true
       ∧ ∀ d, d ∈ date_of <$> l → String.leb d m = true.
Proof.
  revert s m0. induction l as [|c l IH]; intros s m0 m.
  - simpl. intros [= ->]. split; [by left|]. split; [apply string_leb_refl|].
    intros d Hd. by apply elem_of_nil in Hd.
  - cbn [fold_left]. rewrite scan_contribution_some.
    destruct (negb (nonempty m0) || String.ltb m0 (date_of c)) eqn:Hnew.
    + intros Hm. apply IH in Hm as (Hin & Hle & Hall).
      assert (Hm0 : String.leb m0 (date_of c) = true).
      { apply orb_true_iff in Hnew as [Hf|Hlt].
        - apply nonempty_false_le. by apply negb_true_iff.
        - by apply string_ltb_leb. }
      split; [|split].
      * right. rewrite fmap_cons.
        destruct Hin as [->|Hin]; [left|by right].
      * by eapply string_leb_trans.
      * intros d Hd. rewrite fmap_cons in Hd.
        apply elem_of_cons in Hd as [->|Hd]; [done|].
        by apply Hall.
    + intros Hm. apply IH in Hm as (Hin & Hle & Hall).
      apply orb_false_iff in Hnew as [_ Hlt].
      split; [|split; [done|]].
      * rewrite fmap_cons.
        destruct Hin as [->|Hin]; [by left|right; by right].
      * intros d Hd. rewrite fmap_cons in Hd.
        apply elem_of_cons in Hd as [->|Hd]; [|by apply Hall].
        eapply string_leb_trans; [|exact Hle].
        by apply string_ltb_false.
Qed.

Lemma scan_contributions_some l s m0 :
  is_Some (fold_left scan_contribution l (s, Some m0)).2.
Proof.
  revert s m0. induction l as [|c l IH]; intros s m0; [simpl; eauto|].
  cbn [fold_left]. rewrite scan_contribution_some. apply IH.
Qed.

Lemma scan_contribution_none s c :
  scan_contribution (s, None) c = (set_add (repo_of c) s, Some (date_of c)).
Proof. done. Qed.

Lemma leaderboard_entry_fields c :
  le_unique_repositories (leaderboard_entry c)
  = length (fold_left scan_contribution (contributions c) ([], None)).1
  ∧ le_latest_contribution (leaderboard_entry c)
    = (fold_left scan_contribution (contributions c) ([], None)).2.
Proof.
  unfold leaderboard_entry.
  by destruct (fold_left scan_contribution (contributions c) ([], None)).
Qed.

Lemma elem_of_get_leaderboard t e :
  e ∈ get_leaderboard t
  ↔ ∃ c, c ∈ get_all_contributors t ∧ e = leaderboard_entry c.
Proof.
  unfold get_leaderboard.
  rewrite (sorted_reverse_perm Nat.leb le_contribution_count).
  unfold contributors_with_stats, get_all_contributors.
  rewrite list_elem_of_fmap.
  split; [intros (c & -> & Hc) | intros (c & Hc & ->)]; eauto.
Qed.

Lemma le_github_username_entry c :
  le_github_username (leaderboard_entry c) = github_username c.
Proof.
  unfold leaderboard_entry.
  by destruct (fold_left scan_contribution (contributions c) ([], None)).
Qed.

(** X7. In every entry of the leaderboard, [unique_repositories] is the
    number of different repository names among the contributions of the
    entry's contributor (a contribution without a name counts under the
    empty name); it is never more than [contribution_count], and not
    zero when there is a contribution. *)
Theorem leaderboard_counts_distinct_repositories
    (t : ProjectTracker) (e : LeaderboardEntry) :
  e ∈ get_leaderboard t →
  ∃ c, c ∈ get_all_contributors t
       ∧ le_github_username e = github_username c
       ∧ le_contribution_count e = length (contributions c)
       ∧ le_unique_repositories e
         = size (list_to_set (repo_of <$> contributions c) : gset string)
       ∧ le_unique_repositories e ≤ le_contribution_count e
       ∧ (contributions c ≠ [] → 0 < le_unique_repositories e).
Proof.
  intros He. apply elem_of_get_leaderboard in He as (c & Hc & ->).
  exists c. split; [done|].
  split; [apply le_github_username_entry|].
  split; [apply le_contribution_count_entry|].
  destruct (leaderboard_entry_fields c) as [-> _].
  rewrite scan_contributions_repos.
  split; [apply fold_set_add_size|]. split.
  - etrans; [apply fold_set_add_length|]. simpl.
    by rewrite le_contribution_count_entry.
  - intros Hne. destruct (contributions c) as [|c0 l]; [done|].
    assert (Hin : repo_of c0
                  ∈ fold_left (λ s c, set_add (repo_of c) s) (c0 :: l) []).
    { apply fold_set_add_elem_of. left. simpl. left. }
    destruct (fold_left _ (c0 :: l) []); [by apply elem_of_nil in Hin|].
    simpl. lia.
Qed.

Lemma leaderboard_counts_distinct_repositories_witness :
  leaderboard_entry Sample.bob ∈ get_leaderboard Sample.tracker
  ∧ ∃ c, c ∈ get_all_contributors Sample.tracker
         ∧ le_github_username (leaderboard_entry Sample.bob)
           = github_username c
         ∧ le_unique_repositories (leaderboard_entry Sample.bob)
           = size (list_to_set (repo_of <$> contributions c) : gset string).
Proof.
  assert (Hin : leaderboard_entry Sample.bob
                ∈ get_leaderboard Sample.tracker).
  { apply list_elem_of_In. simpl. right. left. reflexivity. }
  split; [exact Hin|].
  destruct (leaderboard_counts_distinct_repositories Sample.tracker
              (leaderboard_entry Sample.bob) Hin)
    as (c & Hc & Hu & _ & Hsize & _).
  exists c. split; [exact Hc|]. split; [exact Hu | exact Hsize].
Defined.

(** X8. [latest_contribution] of a leaderboard entry is [None] exactly
    when the contributor has no contributions; otherwise it is the
    greatest of their dates in string order (a contribution without a
    date counts as the empty string): one of the dates, and no date is
    greater. *)
Theorem leaderboard_latest_is_greatest_date (c : Contributor) :
  (le_latest_contribution (leaderboard_entry c) = None
   ↔ contributions c = [])
  ∧ ∀ m, le_latest_contribution (leaderboard_entry c) = Some m →
         m ∈ date_of <$> contributions c
         ∧ ∀ d, d ∈ date_of <$> contributions c → String.leb d m = true.
Proof.
  destruct (leaderboard_entry_fields c) as [_ ->].
  destruct (contributions c) as [|c0 l].
  - simpl. split; [done|]. intros m [=].
  - cbn [fold_left]. rewrite scan_contribution_none. split.
    + split; [|done]. intros Hn.
      destruct (scan_contributions_some l (set_add (repo_of c0) [])
                  (date_of c0)) as [m Hm].
      congruence.
    + intros m Hm.
      apply scan_contributions_latest in Hm as (Hin & Hle & Hall).
      rewrite fmap_cons. split.
      * destruct Hin as [->|Hin]; [left|by right].
      * intros d Hd. apply elem_of_cons in Hd as [->|Hd]; [done|].
        by apply Hall.
Qed.

(** ** The nested loop of get_project_stats *)

Lemma tally_contributors cs acc :
  fold_left tally_contributor cs acc
  = fold_left tally_contribution (cs ≫= contributions) acc.
Proof.
  revert acc. induction cs as [|c cs IH]; intros acc; simpl; [done|].
  rewrite IH. unfold tally_contributor. by rewrite fold_left_app.
Qed.

Lemma tally_contributions_types l d s :
  (fold_left tally_contribution l (d, s)).1
  = fold_left (λ d c, dict_set (type_of c)
                        (default 0 (dict_get (type_of c) d) + 1) d) l d.
Proof.
  revert d s. induction l as [|c l IH]; intros d s; simpl; [done|].
  apply IH.
Qed.

Lemma tally_contributions_repos l d s :
  (fold_left tally_contribution l (d, s)).2
  = fold_left (λ s c, set_add (repo_of c) s) l s.
Proof.
  revert d s. induction l as [|c l IH]; intros d s; simpl; [done|].
  apply IH.
Qed.

Lemma get_project_stats_fields t :
  ps_contributions_by_type (get_project_stats t)
  = (fold_left tally_contribution (contributions_of t) ([], [])).1
  ∧ ps_unique_repositories (get_project_stats t)
    = length (fold_left tally_contribution (contributions_of t) ([], [])).2.
Proof.
  unfold get_project_stats, contributions_of.
  rewrite tally_contributors.
  by destruct (fold_left tally_contribution _ ([], [])).
Qed.

Lemma count_types_get l (d : list (string * nat)) ty :
  dict_get ty
    (fold_left (λ d c, dict_set (type_of c)
                         (default 0 (dict_get (type_of c) d) + 1) d) l d)
  = if decide (length (filter (λ c, type_of c = ty) l) = 0)
    then dict_get ty d
    else Some (default 0 (dict_get ty d)
               + length (filter (λ c, type_of c = ty) l)).
Proof.
  revert d. induction l as [|c l IH]; intros d; [done|].
  cbn [fold_left]. rewrite IH, dict_get_set.
  destruct (decide (ty = type_of c)) as [->|Hne].
  - rewrite filter_cons_True by done. cbn [length default].
    rewrite (decide_False (P := S _ = 0)) by done.
    destruct (decide (length _ = 0)) as [H0|Hn]; [rewrite H0|];
      unfold id; f_equal; lia.
  - by rewrite filter_cons_False by done.
Qed.

Lemma count_type_sum k (d : list (string * nat)) :
  foldr Nat.add 0
    (dict_values (dict_set k (default 0 (dict_get k d) + 1) d))
  = foldr Nat.add 0 (dict_values d) + 1.
Proof.
  unfold dict_values.
  induction d as [|[k' v'] d IH]; simpl; [done|].
  destruct (decide (k = k')); simpl; [lia|].
  change (list_fmap _ _ snd ?l) with (l.*2).
  rewrite IH. lia.
Qed.

Lemma count_types_sum l (d : list (string * nat)) :
  foldr Nat.add 0
    (dict_values
       (fold_left (λ d c, dict_set (type_of c)
                            (default 0 (dict_get (type_of c) d) + 1) d) l d))
  = foldr Nat.add 0 (dict_values d) + length l.
Proof.
  revert d. induction l as [|c l IH]; intros d; simpl; [lia|].
  rewrite IH, count_type_sum. lia.
Qed.

Lemma length_contributions_of t :
  length (contributions_of t) = ps_total_contributions (get_project_stats t).
Proof.
  rewrite get_project_stats_total, sum_fold_right.
  unfold contributions_of.
  induction (get_all_contributors t) as [|c cs IH]; simpl; [done|].
  rewrite length_app. unfold ContributorClass.get_contribution_count at 1.
  f_equal. exact IH.
Qed.

Lemma by_type_get t ty :
  dict_get ty (ps_contributions_by_type (get_project_stats t))
  = if decide (length (filter (λ c, type_of c = ty) (contributions_of t)) = 0)
    then None
    else Some (length (filter (λ c, type_of c = ty) (contributions_of t))).
Proof.
  destruct (get_project_stats_fields t) as [-> _].
  rewrite tally_contributions_types, count_types_get. simpl.
  by destruct (decide _).
Qed.

(** X9. [contributions_by_type] of the project statistics has one key
    for every type that occurs among the contributions of the project (a
    contribution without a type counts as "unknown"), and its value is
    the number of contributions of that type; a type that does not occur
    is not a key. *)
Theorem contributions_by_type_counts (t : ProjectTracker) (ty : string) :
  dict_get ty (ps_contributions_by_type (get_project_stats t))
  = let n := length (filter (λ c, type_of c = ty) (contributions_of t)) in
    if decide (n = 0) then None else Some n.
Proof.
  cbv zeta.
  destruct (get_project_stats_fields t) as [-> _].
  rewrite tally_contributions_types, count_types_get.
  cbn [dict_get default]. unfold id.
  by destruct (decide _).
Qed.

(** X10. The values of [contributions_by_type] add up to
    [total_contributions]: every contribution of the project is counted
    under exactly one type. *)
Theorem contributions_by_type_sum_to_total (t : ProjectTracker) :
  sum (dict_values (ps_contributions_by_type (get_project_stats t)))
  = ps_total_contributions (get_project_stats t).
Proof.
  rewrite sum_fold_right.
  destruct (get_project_stats_fields t) as [-> _].
  rewrite tally_contributions_types, count_types_sum. simpl.
  apply length_contributions_of.
Qed.

(** X11. In the project statistics [unique_repositories] is the number
    of different repository names among all contributions of all
    contributors, [total_contributors] is the size of the collection,
    and the counts are consistent: no more repositories than
    contributions, no more contributors with Hacktoberfest completed
    than contributors. *)
Theorem project_stats_counts (t : ProjectTracker) :
  let stats := get_project_stats t in
  ps_unique_repositories stats
  = size (list_to_set (repo_of <$> contributions_of t) : gset string)
  ∧ ps_total_contributors stats = length (contributors t)
  ∧ ps_total_contributions stats = length (contributions_of t)
  ∧ ps_unique_repositories stats ≤ ps_total_contributions stats
  ∧ ps_completed_hacktoberfest stats ≤ ps_total_contributors stats.
Proof.
  simpl. rewrite <- length_contributions_of.
  destruct (get_project_stats_fields t) as [_ ->].
  rewrite tally_contributions_repos.
  split; [apply fold_set_add_size|].
  split; [|split; [done|split]].
  - unfold get_project_stats.
    destruct (fold_left tally_contributor _ _). simpl.
    unfold get_all_contributors, dict_values. by rewrite length_fmap.
  - etrans; [apply fold_set_add_length|]. simpl. done.
  - unfold get_project_stats.
    destruct (fold_left tally_contributor _ _). simpl.
    unfold get_completed_contributors, get_all_contributors.
    apply length_filter.
Qed.

(* ================================================================== *)
(** * The most recent contributions *)
(* ================================================================== *)

Lemma StronglySorted_app_parts {A} (R : A → A → Prop) l1 l2 :
  StronglySorted R (l1 ++ l2) →
  StronglySorted R l1 ∧ ∀ x y, x ∈ l1 → y ∈ l2 → R x y.
Proof.
  induction l1 as [|a l1 IH]; simpl; intros H.
  - split; [constructor|]. intros x y Hx. by apply elem_of_nil in Hx.
  - apply StronglySorted_inv in H as [Hs Hall].
    destruct (IH Hs) as [Hs1 Hcross].
    apply Forall_app in Hall as [Hall1 Hall2].
    split; [by constructor|].
    intros x y Hx Hy. apply elem_of_cons in Hx as [->|Hx].
    + rewrite Forall_forall in Hall2. by apply Hall2.
    + by apply Hcross.
Qed.

(** Any number of entries from the front of the list sorted by date:
    they are in order, and what is left behind is not more recent. *)
Lemma sorted_by_date_take n t :
  let sorted :=
    sorted_reverse String.leb
      (λ x, default EmptyString (date (rc_contribution x)))
      (all_contributions t) in
  non_increasing (λ a b, String.leb a b = true) recent_date_of (take n sorted)
  ∧ take n sorted ++ drop n sorted ≡ₚ all_contributions t
  ∧ ∀ x y, x ∈ take n sorted → y ∈ drop n sorted →
           String.leb (recent_date_of y) (recent_date_of x) = true.
Proof.
  intros sorted.
  assert (Hs : StronglySorted
                 (λ a b, String.leb (recent_date_of b) (recent_date_of a)
                         = true) sorted).
  { apply Sorted_StronglySorted.
    - intros a b c Hab Hbc. by eapply string_leb_trans.
    - apply (sorted_reverse_Sorted String.leb _ string_leb_total). }
  rewrite <- (take_drop n sorted) in Hs.
  apply StronglySorted_app_parts in Hs as [Hs Hcross].
  split; [|split].
  - unfold non_increasing. by apply StronglySorted_Sorted.
  - rewrite take_drop. apply sorted_reverse_perm.
  - intros x y Hx Hy. by apply Hcross.
Qed.

(** X12. With a limit that is not negative, [get_recent_contributions]
    returns [limit] entries, or all if there are fewer; they are in
    order of date, latest first, and they are the most recent ones:
    together with the entries left out they are all contributions of the
    collection, and no entry left out has a later date than a returned
    one. *)
Theorem recent_contributions_are_the_latest
    (limit : Z) (t : ProjectTracker) :
  (0 ≤ limit)%Z →
  let recent := get_recent_contributions limit t in
  length recent = Z.to_nat limit `min` length (all_contributions t)
  ∧ non_increasing (λ a b, String.leb a b = true) recent_date_of recent
  ∧ ∃ rest,
      recent ++ rest ≡ₚ all_contributions t
      ∧ ∀ x y, x ∈ recent → y ∈ rest →
               String.leb (recent_date_of y) (recent_date_of x) = true.
Proof.
  intros Hlimit recent. subst recent.
  unfold get_recent_contributions, slice_to.
  assert (Hl : (limit <? 0)%Z = false) by lia. rewrite Hl.
  destruct (sorted_by_date_take (Z.to_nat limit) t) as (Hs & Hp & Hle).
  split; [|split; [done|]].
  - rewrite length_take.
    by rewrite (sorted_reverse_perm String.leb _ (all_contributions t)).
  - eexists. split; [exact Hp | exact Hle].
Qed.

Lemma recent_contributions_are_the_latest_witness :
  (0 ≤ 2)%Z
  ∧ length (get_recent_contributions 2 Sample.tracker3) = 2
  ∧ rc_contributor <$> get_recent_contributions 2 Sample.tracker3
    = [Sample.bob; Sample.bob].
Proof.
  split; [lia|]. split.
  - exact (proj1 (recent_contributions_are_the_latest 2 Sample.tracker3
                    ltac:(lia))).
  - reflexivity.
Defined.

(** X13. A negative limit does not give an empty list:
    [get_recent_contributions(-k)] leaves out the [k] oldest
    contributions (all of them if there are no more than [k]) and
    returns the others, latest first. *)
Theorem recent_contributions_negative_limit
    (limit : Z) (t : ProjectTracker) :
  (limit < 0)%Z →
  let recent := get_recent_contributions limit t in
  length recent = length (all_contributions t) - Z.to_nat (- limit)
  ∧ non_increasing (λ a b, String.leb a b = true) recent_date_of recent
  ∧ ∃ oldest,
      recent ++ oldest ≡ₚ all_contributions t
      ∧ length oldest
        = Z.to_nat (- limit) `min` length (all_contributions t)
      ∧ ∀ x y, x ∈ recent → y ∈ oldest →
               String.leb (recent_date_of y) (recent_date_of x) = true.
Proof.
  intros Hlimit recent. subst recent.
  unfold get_recent_contributions, slice_to.
  assert (Hl : (limit <? 0)%Z = true) by lia. rewrite Hl.
  set (sorted := sorted_reverse _ _ _).
  assert (Hlen : length sorted = length (all_contributions t)).
  { subst sorted.
    by rewrite (sorted_reverse_perm String.leb _ (all_contributions t)). }
  destruct (sorted_by_date_take (length sorted - Z.to_nat (- limit)) t)
    as (Hs & Hp & Hle).
  fold sorted in Hs, Hp, Hle.
  split; [|split; [done|]].
  - rewrite length_take. lia.
  - eexists. split; [exact Hp|]. split; [|exact Hle].
    rewrite length_drop. lia.
Qed.

Lemma recent_contributions_negative_limit_witness :
  (-1 < 0)%Z
  ∧ length (all_contributions Sample.tracker3) = 10
  ∧ length (get_recent_contributions (-1) Sample.tracker3) = 9.
Proof.
  split; [lia|]. split; [reflexivity|].
  exact (proj1 (recent_contributions_negative_limit (-1) Sample.tracker3
                  ltac:(lia))).
Defined.

(* ================================================================== *)
(** * Notifications on request *)
(* ================================================================== *)

(** X14. [send_notification_to_contributor] calls the notifier at most
    once and never touches the files or the tracker.  It answers [True]
    only after sending the milestone notification of the named
    contributor to the contributor's address; without a notifier, for an
    unknown username and for a contributor without an email address it
    sends nothing, prints one line and answers [False]. *)
Theorem send_notification_only_when_possible
    (deliver : string → string → nat → bool → bool)
    (github_username : string) (t : ProjectTracker) (w : World) :
  let r := send_notification_to_contributor deliver github_username t w in
  (r.1.1 = true →
   ∃ c, is_Some (notifier t)
        ∧ get_contributor github_username t = Some c
        ∧ email c ≠ EmptyString
        ∧ r.2 = emit (Send_milestone_notification (email c) github_username
                        (ContributorClass.get_contribution_count c)
                        (ContributorClass.is_hacktoberfest_complete c)) w)
  ∧ (notifier t = None ∨ get_contributor github_username t = None
     ∨ (∃ c, get_contributor github_username t = Some c
             ∧ email c = EmptyString) →
     r.1.1 = false ∧ r.2 = w ∧ length r.1.2 = 1)
  ∧ files r.2 = files w
  ∧ length (mails r.2) ≤ S (length (mails w)).
Proof.
  simpl. unfold send_notification_to_contributor.
  destruct (notifier t) as [n|] eqn:Hn.
  - destruct (get_contributor github_username t) as [c|] eqn:Hc.
    + destruct (email c) as [|a s] eqn:He; simpl.
      * split; [done|]. split; [done|]. split; [done|]. lia.
      * split.
        { intros _. exists c. rewrite He. eauto. }
        split.
        { intros [[=]|[[=]|(c' & [= <-] & He')]]. congruence. }
        split; [done|].
        rewrite mails_emit. simpl. rewrite length_app. simpl. lia.
    + simpl. split; [done|]. split; [done|]. split; [done|]. lia.
  - simpl. split; [done|]. split; [done|]. split; [done|]. lia.
Qed.

Lemma notify_contributors_trace deliver l results w :
  trace (fold_left (notify_contributor deliver) l (results, w)).2
  = trace w
    ++ (milestone_of <$> filter (λ c, nonempty (email c) = true) l).
Proof.
  revert results w. induction l as [|c l IH]; intros results w.
  - simpl. by rewrite app_nil_r.
  - cbn [fold_left]. unfold notify_contributor at 2.
    destruct (nonempty (email c)) eqn:He.
    + rewrite IH, filter_cons_True by done. simpl.
      by rewrite <- app_assoc.
    + rewrite IH, filter_cons_False; [done|]. by rewrite He.
Qed.

Lemma notify_contributors_files deliver l results w :
  files (fold_left (notify_contributor deliver) l (results, w)).2 = files w.
Proof.
  revert results w. induction l as [|c l IH]; intros results w; [done|].
  cbn [fold_left]. unfold notify_contributor at 2.
  destruct (nonempty (email c)); by rewrite IH.
Qed.

(** What the notifier answered for a contributor. *)
Lemma notify_contributors_results deliver l results w u :
  dict_get u (fold_left (notify_contributor deliver) l (results, w)).1
  = match last (filter (λ c, github_username c = u
                             ∧ nonempty (email c) = true) l) with
    | Some c =>
        Some (deliver (email c) (github_username c)
                (ContributorClass.get_contribution_count c)
                (ContributorClass.is_hacktoberfest_complete c))
    | None => dict_get u results
    end.
Proof.
  revert results w. induction l as [|c l IH]; intros results w; [done|].
  cbn [fold_left]. unfold notify_contributor at 2.
  destruct (nonempty (email c)) eqn:He.
  - rewrite IH. destruct (decide (github_username c = u)) as [Hu|Hu].
    + rewrite filter_cons_True by done.
      destruct (filter _ l) as [|c' l'] eqn:Hf.
      * simpl. subst u. by rewrite dict_get_set_eq.
      * change (last (c :: c' :: l')) with (last (c' :: l')).
        destruct (last (c' :: l')) eqn:Hl; [done|].
        by apply last_None in Hl.
    + rewrite filter_cons_False by tauto.
      by rewrite dict_get_set_ne.
  - rewrite IH, filter_cons_False; [done|]. rewrite He. by intros [_ [=]].
Qed.

(** X15. With a notifier, [send_notifications_to_all_contributors]
    sends one milestone notification to every contributor who has an
    email address, in the order of the collection, and to no one else;
    it prints nothing and leaves the files alone.  The result holds,
    under a contributor's username, the notifier's answer for the last
    contributor of that username who has an address, so contributors
    without an address have no entry. *)
Theorem send_notifications_reach_every_address
    (deliver : string → string → nat → bool → bool)
    (t : ProjectTracker) (w : World) :
  is_Some (notifier t) →
  let r := send_notifications_to_all_contributors deliver t w in
  trace r.2
  = trace w ++ (milestone_of <$> filter (λ c, nonempty (email c) = true)
                                   (get_all_contributors t))
  ∧ files r.2 = files w
  ∧ r.1.2 = []
  ∧ ∀ u, dict_get u r.1.1
         = (λ c, deliver (email c) (github_username c)
                   (ContributorClass.get_contribution_count c)
                   (ContributorClass.is_hacktoberfest_complete c))
           <$> last (filter (λ c, github_username c = u
                                  ∧ nonempty (email c) = true)
                       (get_all_contributors t)).
Proof.
  intros [n Hn] r. subst r.
  unfold send_notifications_to_all_contributors. rewrite Hn.
  pose proof (notify_contributors_trace deliver
                (get_all_contributors t) [] w) as Ht.
  pose proof (notify_contributors_files deliver
                (get_all_contributors t) [] w) as Hf.
  pose proof (notify_contributors_results deliver
                (get_all_contributors t) [] w) as Hr.
  destruct (fold_left _ _ _) as [results w']. simpl in *.
  split; [done|]. split; [done|]. split; [done|].
  intros u. rewrite Hr. by destruct (last _).
Qed.

Lemma send_notifications_reach_every_address_witness :
  is_Some (notifier Sample2.notifying)
  ∧ trace (send_notifications_to_all_contributors Sample2.accepts
             Sample2.notifying Sample.world).2
    = [milestone_of Sample.alice].
Proof.
  split; [eexists; reflexivity|].
  exact (proj1 (send_notifications_reach_every_address Sample2.accepts
                  Sample2.notifying Sample.world
                  (ex_intro _ _ eq_refl))).
Defined.

(** X16. [enable_email_notifications] answers [True] exactly when the
    notifier could be constructed.  Then the tracker notifies from the
    next call on, also if it was created with notifications off: adding
    a new contributor with an email address sends the welcome email.
    When the constructor raises, the tracker is as before. *)
Theorem enable_email_notifications_takes_effect
    (constructed : exn + EmailNotifier) (t : ProjectTracker) (w : World)
    (name github_username email : string) (now : datetime) :
  let r := enable_email_notifications constructed t in
  (r.1.1 = true ↔ ∃ n, constructed = inr n)
  ∧ (r.1.1 = false → r.2 = t)
  ∧ contributors r.2 = contributors t
  ∧ (r.1.1 = true →
     get_contributor github_username t = None →
     email ≠ EmptyString →
     mails (add_contributor name github_username email now r.2 w).2
     = mails w ++ [Send_welcome_email email name github_username]).
Proof.
  simpl. destruct constructed as [e|n]; simpl.
  - split; [split; [done|by intros [? [=]]]|]. done.
  - split; [split; [eauto|done]|]. split; [done|]. split; [done|].
    intros _ Hnew Hemail. unfold add_contributor.
    unfold get_contributor in Hnew. simpl. rewrite Hnew.
    cbn [snd]. rewrite mails_save_data. simpl.
    destruct email as [|a s]; [done|]. simpl.
    by rewrite mails_emit.
Qed.

(* ================================================================== *)
(** * Importing from CSV *)
(* ================================================================== *)

Lemma import_contributors_get l cs out u :
  dict_get u (fold_left import_contributor l (cs, out)).1
  = match dict_get u cs with
    | Some c => Some c
    | None => head (filter (λ c, github_username c = u) l)
    end.
Proof.
  revert cs out. induction l as [|c l IH]; intros cs out.
  - simpl. by destruct (dict_get u cs).
  - cbn [fold_left]. unfold import_contributor at 2.
    destruct (dict_get (github_username c) cs) as [existing|] eqn:Hc.
    + rewrite IH. destruct (dict_get u cs) as [c'|] eqn:Hu; [done|].
      rewrite filter_cons_False; [done|]. congruence.
    + rewrite IH, dict_get_set.
      destruct (decide (u = github_username c)) as [->|Hne].
      * rewrite Hc. by rewrite filter_cons_True.
      * destruct (dict_get u cs); [done|].
        by rewrite filter_cons_False by congruence.
Qed.

Lemma import_contributors_keys l cs out :
  dict_keys cs `prefix_of`
    dict_keys (fold_left import_contributor l (cs, out)).1.
Proof.
  revert cs out. induction l as [|c l IH]; intros cs out; [done|].
  cbn [fold_left]. unfold import_contributor at 2.
  destruct (dict_get (github_username c) cs) as [existing|] eqn:Hc.
  - apply IH.
  - etrans; [|apply IH]. rewrite dict_keys_set.
    destruct (decide _); [done|]. by apply prefix_app_r.
Qed.

(** X17. [import_from_csv] merges and never overwrites.  Without a
    contributions file, a username the tracker holds keeps its
    contributor, usernames and their order stay in front, and a username
    it does not hold gets the first contributor of that username in the
    CSV file, if there is one. *)
Theorem import_from_csv_keeps_existing
    (imported : exn + (list Contributor * list string))
    (t : ProjectTracker) (w : World) :
  let r := import_from_csv imported None t w in
  (∀ username,
     get_contributor username r.1.2
     = match get_contributor username t, imported with
       | Some c, _ => Some c
       | None, inr (imported_contributors, _) =>
           head (filter (λ c, github_username c = username)
                   imported_contributors)
       | None, inl _ => None
       end)
  ∧ dict_keys (contributors t) `prefix_of` dict_keys (contributors r.1.2).
Proof.
  simpl. unfold import_from_csv, get_contributor.
  destruct imported as [e|[l errors]].
  - simpl. split; [|done]. intros u. by destruct (dict_get u _).
  - destruct l as [|c0 l].
    + simpl. split; [|done]. intros u. by destruct (dict_get u _).
    + pose proof (import_contributors_get (c0 :: l) (contributors t) []) as Hg.
      pose proof (import_contributors_keys (c0 :: l) (contributors t) [])
        as Hk.
      destruct (fold_left import_contributor (c0 :: l) _) as [cs out].
      simpl in Hg, Hk. simpl. split; [|done].
      intros u. apply Hg.
Qed.

(** X18. [import_from_csv] answers [True] exactly when the CSV file
    gave at least one contributor and nothing raised; it then has saved
    the tracker as it is after the import.  When it answers [False]
    nothing is saved; and unless the contributions file was being read,
    the tracker is unchanged too.  It never sends mail. *)
Theorem import_from_csv_answer
    (imported : exn + (list Contributor * list string))
    (contributions :
       option (list (string * Contributor) →
               list (string * Contributor) * (exn + (nat * list string))))
    (t : ProjectTracker) (w : World) :
  let r := import_from_csv imported contributions t w in
  (r.1.1.1 = true
   ↔ ∃ l errors,
       imported = inr (l, errors) ∧ l ≠ []
       ∧ ∀ import_contributions,
           contributions = Some import_contributions →
           ∃ answer,
             (import_contributions
                (fold_left import_contributor l (contributors t, [])).1).2
             = inr answer)
  ∧ (r.1.1.1 = true → r.2 = save_data r.1.2 w)
  ∧ (r.1.1.1 = false → r.2 = w)
  ∧ (r.1.1.1 = false → contributions = None → r.1.2 = t)
  ∧ mails r.2 = mails w.
Proof.
  simpl. unfold import_from_csv.
  destruct imported as [e|[l errors]].
  { split; [|done]. split; [done|]. by intros (? & ? & [=] & _). }
  destruct l as [|c0 l].
  { split; [|done]. split; [done|]. by intros (? & ? & [= <- <-] & ? & _). }
  destruct (fold_left import_contributor (c0 :: l) _) as [cs out] eqn:Hfold.
  destruct contributions as [f|].
  - destruct (f cs) as [cs' [e|[n import_errors]]] eqn:Hf; simpl.
    + split; [|done]. split; [done|].
      intros (l' & errors' & [= <- <-] & _ & Hok).
      destruct (Hok f eq_refl) as [answer Ha].
      rewrite Hfold in Ha. simpl in Ha. rewrite Hf in Ha. done.
    + rewrite mails_save_data. split; [|done]. split; [|done].
      intros _. exists (c0 :: l), errors. split; [done|]. split; [done|].
      intros f' [= <-]. rewrite Hfold. simpl. rewrite Hf. eauto.
  - simpl. rewrite mails_save_data. split; [|done]. split; [|done].
    intros _. exists (c0 :: l), errors. split; [done|]. split; [done|].
    by intros f' [=].
Qed.

(* ================================================================== *)
(** * A contribution in the statistics *)
(* ================================================================== *)

Lemma dict_get_split {V} (d : list (string * V)) k v :
  dict_get k d = Some v →
  ∃ pre post, d = pre ++ (k, v) :: post ∧ k ∉ dict_keys pre.
Proof.
  induction d as [|[k' v'] d IH]; simpl; [done|].
  destruct (decide (k = k')) as [->|Hne].
  - intros [= ->]. exists [], d. split; [done|]. apply not_elem_of_nil.
  - intros Hd. destruct (IH Hd) as (pre & post & -> & Hpre).
    exists ((k', v') :: pre), post. split; [done|].
    simpl. by apply not_elem_of_cons.
Qed.

Lemma dict_set_split {V} (pre post : list (string * V)) k v v' :
  k ∉ dict_keys pre →
  dict_set k v' (pre ++ (k, v) :: post) = pre ++ (k, v') :: post.
Proof.
  induction pre as [|[k0 v0] pre IH]; simpl; intros Hpre.
  - by rewrite decide_True.
  - apply not_elem_of_cons in Hpre as [Hne Hpre].
    rewrite decide_False by done. by rewrite IH.
Qed.

Lemma add_contribution_tracker u repo ty descr pr now t w c :
  get_contributor u t = Some c →
  (add_contribution u repo ty descr pr now t w).1.2
  = with_contributors
      (dict_set u (ContributorClass.add_contribution repo ty descr pr now c)
         (contributors t)) t.
Proof. intros Hc. unfold add_contribution. by rewrite Hc. Qed.

(** The contributions of the collection after one contributor got one
    more: the new one comes after that contributor's others. *)
Lemma contributions_of_set u t c c' new :
  dict_get u (contributors t) = Some c →
  contributions c' = contributions c ++ [new] →
  ∃ before after,
    contributions_of t = before ++ after
    ∧ contributions_of (with_contributors (dict_set u c' (contributors t)) t)
      = before ++ new :: after.
Proof.
  intros Hc Hc'.
  destruct (dict_get_split _ _ _ Hc) as (pre & post & Hd & Hpre).
  unfold contributions_of, get_all_contributors, dict_values.
  cbn [contributors with_contributors].
  rewrite Hd, dict_set_split by done.
  rewrite !fmap_app, !fmap_cons, !bind_app, !bind_cons.
  cbn [snd]. rewrite Hc'.
  exists ((pre.*2 ≫= contributions) ++ contributions c),
         (post.*2 ≫= contributions).
  by rewrite <- !app_assoc.
Qed.

Lemma get_project_stats_size t :
  ps_total_contributors (get_project_stats t) = length (contributors t).
Proof.
  unfold get_project_stats.
  destruct (fold_left tally_contributor _ _). cbn [ps_total_contributors].
  unfold get_all_contributors, dict_values. by rewrite length_fmap.
Qed.

(** X19. After [add_contribution] for a registered username the project
    statistics count one contribution more, and one more of the given
    type; the number of contributors and the counts of the other types
    are as before. *)
Theorem add_contribution_shows_in_stats
    (github_username repo_name contribution_type description : string)
    (pr_number : option Z) (now : datetime)
    (t : ProjectTracker) (w : World) (contributor : Contributor) :
  get_contributor github_username t = Some contributor →
  let before := get_project_stats t in
  let after :=
    get_project_stats
      (add_contribution github_username repo_name contribution_type
         description pr_number now t w).1.2 in
  ps_total_contributions after = S (ps_total_contributions before)
  ∧ ps_total_contributors after = ps_total_contributors before
  ∧ dict_get contribution_type (ps_contributions_by_type after)
    = Some (S (default 0 (dict_get contribution_type
                            (ps_contributions_by_type before))))
  ∧ ∀ other, other ≠ contribution_type →
      dict_get other (ps_contributions_by_type after)
      = dict_get other (ps_contributions_by_type before).
Proof.
  intros Hc before after. subst before after.
  rewrite (add_contribution_tracker _ _ _ _ _ _ _ _ _ Hc).
  unfold get_contributor in Hc.
  set (new := {| repo_name := Some repo_name;
                 type := Some contribution_type;
                 description := Some description; pr_number := pr_number;
                 date := Some (isoformat now) |}).
  destruct (contributions_of_set github_username t contributor
              (ContributorClass.add_contribution repo_name contribution_type
                 description pr_number now contributor) new Hc eq_refl)
    as (l1 & l2 & Hold & Hnew).
  assert (Hty : type_of new = contribution_type) by done.
  clearbody new.
  rewrite <- !length_contributions_of, !by_type_get.
  rewrite Hnew, Hold. split; [|split; [|split]].
  - rewrite !length_app. cbn [length]. lia.
  - pose proof (get_project_stats_size t) as ->.
    rewrite get_project_stats_size. cbn [contributors with_contributors].
    apply dict_set_length. eauto.
  - rewrite !filter_app, filter_cons_True by done.
    rewrite !length_app. cbn [length].
    rewrite decide_False by lia.
    destruct (decide (_ = 0)) as [H0|Hn]; simpl; f_equal; lia.
  - intros other Hne. rewrite !by_type_get, Hnew, Hold.
    rewrite !filter_app, filter_cons_False by congruence. done.
Qed.

Lemma add_contribution_shows_in_stats_witness :
  get_contributor "bob" Sample.tracker = Some Sample.bob
  ∧ ps_total_contributions
      (get_project_stats
         (add_contribution "bob" "docs" "review" "typo" None Sample.today
            Sample.tracker Sample.world).1.2)
    = S (ps_total_contributions (get_project_stats Sample.tracker)).
Proof.
  split; [reflexivity|].
  exact (proj1 (add_contribution_shows_in_stats "bob" "docs" "review" "typo"
                  None Sample.today Sample.tracker Sample.world Sample.bob
                  eq_refl)).
Defined.

(* ================================================================== *)
(** * Loading the same file again *)
(* ================================================================== *)

(** A collection that already holds what the loop stores is left as it
    is. *)
Lemma load_contributors_fixed other now items cs :
  (∀ pre u cd post c,
     items = pre ++ (u, cd) :: post →
     Forall (λ e, loads other now e.2) pre →
     load_contributor other now cd = inr c →
     dict_get u cs = Some c) →
  (load_contributors other now items cs).1 = cs.
Proof.
  induction items as [|[u cd] items IH]; intros Hcs; simpl; [done|].
  destruct (load_contributor other now cd) as [e|c] eqn:Hl; [done|].
  rewrite dict_get_set_same by (by apply (Hcs [] u cd items c)).
  apply IH. intros pre u' cd' post c' -> Hpre Hl'.
  apply (Hcs ((u, cd) :: pre) u' cd' post c'); [done| |done].
  constructor; [|done]. by exists c.
Qed.

Lemma load_contributors_again other now items cs :
  dict_wf items →
  (load_contributors other now items (load_contributors other now items cs).1).1
  = (load_contributors other now items cs).1.
Proof.
  intros Hwf. apply load_contributors_fixed.
  intros pre u cd post c -> Hpre Hl.
  by apply load_contributors_entry.
Qed.

Lemma load_document_tracker other now data t :
  (load_document other now data t).1
  = let named :=
      with_project_name
        (default (project_name t) (doc_project_name data)) t in
    let loaded :=
      (load_contributors other now (default [] (doc_contributors data))
         (contributors t)).1 in
    match doc_created_date data with
    | None => with_contributors loaded named
    | Some text =>
        match fromisoformat other text with
        | None => named
        | Some d => with_contributors loaded (with_created_date d named)
        end
    end.
Proof.
  unfold load_document.
  destruct (doc_created_date data) as [text|].
  - destruct (fromisoformat other text) as [d|]; [|done].
    cbn [contributors with_created_date with_project_name].
    by destruct (load_contributors _ _ _ _).
  - cbn [contributors with_project_name].
    by destruct (load_contributors _ _ _ _).
Qed.

Lemma load_document_again other now data t :
  dict_wf (default [] (doc_contributors data)) →
  (load_document other now data (load_document other now data t).1).1
  = (load_document other now data t).1.
Proof.
  intros Hwf.
  rewrite (load_document_tracker other now data (load_document other now data t).1).
  rewrite (load_document_tracker other now data t).
  cbv zeta.
  destruct (doc_created_date data) as [text|].
  - destruct (fromisoformat other text) as [d|].
    + cbn [contributors with_contributors with_created_date
           with_project_name project_name].
      rewrite load_contributors_again by done.
      unfold with_contributors, with_created_date, with_project_name.
      cbn. f_equal. by destruct (doc_project_name data).
    + unfold with_project_name. cbn. f_equal.
      by destruct (doc_project_name data).
  - cbn [contributors with_contributors with_project_name project_name].
    rewrite load_contributors_again by done.
    unfold with_contributors, with_project_name.
    cbn. f_equal. by destruct (doc_project_name data).
Qed.

Lemma data_file_load_document other now data t :
  data_file (load_document other now data t).1 = data_file t.
Proof.
  unfold load_document.
  destruct (doc_created_date data) as [text|].
  - destruct (fromisoformat other text); [|done].
    by destruct (load_contributors _ _ _ _).
  - by destruct (load_contributors _ _ _ _).
Qed.

(** X20. Loading is idempotent: after [load_data], a second [load_data]
    from the same file, at the same clock reading, leaves the tracker as
    the first one made it, whether or not the file could be read to its
    end.  (The usernames of a JSON object are distinct.) *)
Theorem load_data_twice (now : datetime) (t : ProjectTracker) (w : World) :
  (∀ data, files w !! data_file t = Some (Document data) →
           dict_wf (default [] (doc_contributors data))) →
  let r := load_data now t w in
  (load_data now r.1 r.2).1 = r.1.
Proof.
  intros Hwf r. subst r. unfold load_data at 2 3 4.
  destruct (files w !! data_file t) as [[|data]|] eqn:Hfile.
  - simpl. unfold load_data. simpl. by rewrite Hfile.
  - specialize (Hwf data eq_refl).
    pose proof (load_document_again (other_layouts w) now data t Hwf)
      as Hagain.
    pose proof (data_file_load_document (other_layouts w) now data t) as Hdf.
    destruct (load_document (other_layouts w) now data t) as [t' e] eqn:Hl.
    simpl in *.
    assert (Hload : ∀ w', files w' = files w →
              other_layouts w' = other_layouts w →
              (load_data now t' w').1 = t').
    { intros w' Hw' Ho'. unfold load_data. rewrite Hw', Ho', Hdf, Hfile.
      destruct (load_document (other_layouts w) now data t')
        as [t'' e'']. simpl in Hagain.
      subst t''. by destruct e''. }
    destruct e; simpl; by apply Hload.
  - simpl. unfold load_data. by rewrite Hfile.
Qed.

Lemma load_data_twice_witness :
  (load_data Sample.today
     (load_data Sample.today Sample.tracker Sample.broken_world).1
     (load_data Sample.today Sample.tracker Sample.broken_world).2).1
  = (load_data Sample.today Sample.tracker Sample.broken_world).1.
Proof.
  refine (load_data_twice Sample.today Sample.tracker Sample.broken_world _).
  intros data [= <-]. unfold dict_wf.
  apply (bool_decide_unpack _). exact I.
Defined.

(* ================================================================== *)
(** * The first registration wins *)
(* ================================================================== *)

Lemma add_contributor_get name u email now t w other :
  get_contributor other (add_contributor name u email now t w).1.2
  = match get_contributor other t with
    | Some c => Some c
    | None =>
        if decide (other = u)
        then Some (ContributorClass.new name u email now)
        else None
    end.
Proof.
  unfold add_contributor, get_contributor.
  destruct (dict_get u (contributors t)) as [c|] eqn:Hu.
  - cbn [fst snd]. destruct (dict_get other (contributors t)) eqn:Ho; [done|].
    rewrite decide_False; [done|]. congruence.
  - cbn [fst snd contributors with_contributors].
    rewrite dict_get_set. destruct (decide (other = u)) as [->|Hne].
    + by rewrite Hu.
    + by destruct (dict_get other (contributors t)).
Qed.

(** X21. After any sequence of [add_contributor] calls the first
    registration of a username stands: a username the tracker held keeps
    its contributor, and any other username has the contributor made
    from the first call that names it, whatever later calls with the
    same username say; a username no call names is still unknown. *)
Theorem first_registration_wins
    (calls : list add_call) (t : ProjectTracker) (w : World)
    (username : string) :
  get_contributor username (add_contributor_calls calls t w).1
  = match get_contributor username t with
    | Some c => Some c
    | None =>
        (λ call, ContributorClass.new (ac_name call) username
                   (ac_email call) (ac_now call))
        <$> head (filter (λ call, ac_github_username call = username) calls)
    end.
Proof.
  revert t w. induction calls as [|call calls IH]; intros t w.
  - simpl. by destruct (get_contributor username t).
  - cbn [add_contributor_calls].
    pose proof (add_contributor_get (ac_name call) (ac_github_username call)
                  (ac_email call) (ac_now call) t w username) as Hget.
    destruct (add_contributor _ _ _ _ t w) as [[c t'] w'].
    cbn [fst snd] in Hget. rewrite IH, Hget.
    destruct (get_contributor username t) as [c0|]; [done|].
    destruct (decide (username = ac_github_username call)) as [->|Hne].
    + by rewrite filter_cons_True.
    + by rewrite filter_cons_False by congruence.
Qed.

(* ================================================================== *)
(** * The printed leaderboard *)
(* ================================================================== *)

Lemma StronglySorted_lookup {A} (R : A → A → Prop) l i j x y :
  StronglySorted R l → i < j → l !! i = Some x → l !! j = Some y → R x y.
Proof.
  intros Hs. revert i j. induction Hs as [|a l Hs IH Hall]; intros i j Hij.
  - by rewrite lookup_nil.
  - destruct j as [|j]; [lia|]. destruct i as [|i].
    + intros [= ->] Hy. rewrite Forall_forall in Hall.
      apply Hall. by eapply list_elem_of_lookup_2.
    + apply IH. lia.
Qed.

Lemma length_get_leaderboard t :
  length (get_leaderboard t) = length (contributors t).
Proof.
  unfold get_leaderboard.
  rewrite (sorted_reverse_perm Nat.leb le_contribution_count).
  unfold contributors_with_stats, dict_values. by rewrite !length_fmap.
Qed.

(** The lines after the two header lines. *)
Lemma print_leaderboard_body t i :
  print_leaderboard t !! (2 + i)
  = match get_leaderboard t with
    | [] => [Line_no_contributors] !! i
    | _ => (λ e, Line_entry (medal (S i)) (S i) e) <$> get_leaderboard t !! i
    end.
Proof.
  unfold print_leaderboard. cbv zeta.
  rewrite lookup_app_r by (simpl; lia).
  replace (2 + i - length [Line_title (project_name t); Line_rule])
    with i by (simpl; lia).
  destruct (get_leaderboard t) as [|e l]; [done|].
  exact (list_lookup_imap
           (λ i contributor, Line_entry (medal (S i)) (S i) contributor)
           (e :: l) i).
Qed.

(** X22. [print_leaderboard] prints the title with the project name and
    the rule; then, for an empty collection, the one line saying that
    there are no contributors and nothing else; otherwise one line for
    every entry of [get_leaderboard] and in its order: the line at place
    [k] (from 1) shows the number [k], the [k]-th entry and the medal of
    [k], which is the trophy for 1, silver for 2, bronze for 3 and the
    plain figure from 4 on.  So the contribution counts never increase
    down the printed list. *)
Theorem print_leaderboard_lines (t : ProjectTracker) :
  let lines := print_leaderboard t in
  lines !! 0 = Some (Line_title (project_name t))
  ∧ lines !! 1 = Some Line_rule
  ∧ (contributors t = [] →
     lines = [Line_title (project_name t); Line_rule; Line_no_contributors])
  ∧ (contributors t ≠ [] →
     length lines = 2 + length (contributors t)
     ∧ ∀ i, i < length (contributors t) →
            ∃ e, get_leaderboard t !! i = Some e
                 ∧ lines !! (2 + i) = Some (Line_entry (medal (S i)) (S i) e))
  ∧ (medal 1 = "🏆" ∧ medal 2 = "🥈" ∧ medal 3 = "🥉"
     ∧ ∀ k, 4 ≤ k → medal k = "👤")
  ∧ (∀ i j emoji k e emoji' k' e',
       i < j →
       lines !! i = Some (Line_entry emoji k e) →
       lines !! j = Some (Line_entry emoji' k' e') →
       k < k' ∧ le_contribution_count e' ≤ le_contribution_count e).
Proof.
  intros lines. subst lines.
  pose proof (length_get_leaderboard t) as Hlen.
  assert (Hentry : ∀ i emoji k e,
            print_leaderboard t !! i = Some (Line_entry emoji k e) →
            2 ≤ i ∧ k = i - 1 ∧ get_leaderboard t !! (i - 2) = Some e).
  { intros i emoji k e Hi.
    destruct i as [|[|i]]; [done..|].
    change (S (S i)) with (2 + i) in Hi.
    rewrite print_leaderboard_body in Hi.
    destruct (get_leaderboard t) as [|e0 l] eqn:Hl.
    - by destruct i.
    - destruct ((e0 :: l) !! i) as [e1|] eqn:He; [|done].
      simpl in Hi. injection Hi as _ <- <-. split; [lia|]. split; [lia|].
      by replace (S (S i) - 2) with i by lia. }
  split_and!.
  - done.
  - done.
  - intros Hempty. unfold print_leaderboard, get_leaderboard,
      contributors_with_stats, dict_values. by rewrite Hempty.
  - intros Hsome.
    assert (Hlb : get_leaderboard t ≠ []).
    { intros Hnil. rewrite Hnil in Hlen. by destruct (contributors t). }
    split.
    + unfold print_leaderboard. cbv zeta. rewrite length_app.
      destruct (get_leaderboard t) as [|e0 l] eqn:Hl; [done|].
      rewrite length_imap, Hlen. done.
    + intros i Hi. rewrite <- Hlen in Hi.
      apply lookup_lt_is_Some_2 in Hi as [e He]. exists e.
      split; [done|]. rewrite print_leaderboard_body.
      destruct (get_leaderboard t) as [|e0 l] eqn:Hl; [done|].
      by rewrite He.
  - done.
  - done.
  - done.
  - intros k Hk. do 4 (destruct k as [|k]; [lia|]). done.
  - intros i j emoji k e emoji' k' e' Hij Hi Hj.
    apply Hentry in Hi as (Hi2 & -> & Hi), Hj as (Hj2 & -> & Hj).
    split; [lia|]. apply Nat.leb_le.
    eapply (StronglySorted_lookup
              (λ a b, Nat.leb (le_contribution_count b)
                        (le_contribution_count a) = true)
              (get_leaderboard t) (i - 2) (j - 2)); [|lia|done|done].
    apply Sorted_StronglySorted.
    + intros a b c Hab Hbc. by eapply nat_leb_trans.
    + apply (sorted_reverse_Sorted Nat.leb le_contribution_count
               nat_leb_total).
Qed.

(* ================================================================== *)
(** * The printed statistics *)
(* ================================================================== *)

Lemma isoformat_day d :
  substring 0 10 (isoformat d)
  = zfill4 (year d) +:+ "-" +:+ zfill2 (month d) +:+ "-" +:+ zfill2 (day d).
Proof. unfold isoformat. by destruct (microsecond d =? 0)%N. Qed.

Lemma parse_isoformat_day y1 y2 y3 y4 m1 m2 d1 d2 :
  parse_isoformat
    (s4 y1 y2 y3 y4 +:+ "-" +:+ s2 m1 m2 +:+ "-" +:+ s2 d1 d2)
  = (y ← number_of (s4 y1 y2 y3 y4) 0; m ← number_of (s2 m1 m2) 0;
     d ← number_of (s2 d1 d2) 0;
     checked (mk_datetime y m d 0 0 0 0 None)).
Proof. reflexivity. Qed.

Lemma ps_created_date_isoformat t :
  ps_created_date (get_project_stats t) = isoformat (created_date t).
Proof.
  unfold get_project_stats. by destruct (fold_left tally_contributor _ _).
Qed.

(** X23. The last line of [print_stats] shows the day the project was
    created and nothing of the time: the first ten characters of the
    ISO text are [YYYY-MM-DD], and read back as a date (by any Python)
    they give the creation date at midnight, without an offset. *)
Theorem print_stats_shows_the_day
    (t : ProjectTracker) (other : string → option datetime) :
  valid (created_date t) = true →
  ∃ day,
    last (print_stats t) = Some (Stats_project_started day)
    ∧ day = zfill4 (year (created_date t)) +:+ "-"
            +:+ zfill2 (month (created_date t)) +:+ "-"
            +:+ zfill2 (DateTime.day (created_date t))
    ∧ fromisoformat other day
      = Some (mk_datetime (year (created_date t)) (month (created_date t))
                (DateTime.day (created_date t)) 0 0 0 0 None).
Proof.
  intros Hv. pose proof (valid_bounds _ Hv) as Hb.
  eexists. split; [reflexivity|].
  rewrite ps_created_date_isoformat, isoformat_day. split; [done|].
  unfold fromisoformat.
  etrans; [apply (f_equal (λ o, match o with Some d => Some d
                                | None => other _ end)),
           parse_isoformat_day|].
  fold (zfill4 (year (created_date t))) (zfill2 (month (created_date t)))
    (zfill2 (DateTime.day (created_date t))).
  rewrite number_of_zfill4, !number_of_zfill2 by lia.
  cbn [mbind option_bind]. unfold checked.
  assert (Hv' : valid (mk_datetime (year (created_date t))
                         (month (created_date t))
                         (DateTime.day (created_date t)) 0 0 0 0 None)
                = true).
  { revert Hv. unfold valid.
    cbn [year month DateTime.day hour minute second microsecond utcoffset].
    rewrite !andb_true_iff. intros Hv. split_and!; try tauto; done. }
  by rewrite Hv'.
Qed.

Lemma print_stats_shows_the_day_witness :
  valid (created_date Sample.tracker) = true
  ∧ last (print_stats Sample.tracker)
    = Some (Stats_project_started "2025-10-01").
Proof.
  split; [reflexivity|].
  destruct (print_stats_shows_the_day Sample.tracker Sample.strict eq_refl)
    as (day & Hlast & -> & _).
  exact Hlast.
Defined.

(* ================================================================== *)
(** * What the recent contributions share with the tracker *)
(* ================================================================== *)

Section RecentCopies.
Local Abbreviation on_tracker := get_recent_contributions (only parsing).
Import Heap.








End RecentCopies.


(* ================================================================== *)
(** * The lists of contributors share the tracker's objects *)
(* ================================================================== *)

Section ContributorLists.
Local Abbreviation completed_of := get_completed_contributors (only parsing).
Local Abbreviation all_of := get_all_contributors (only parsing).
Import Heap.

Lemma wp_completed_loop h0 (h : heap) r vs cs :
  keeps h0 h → length h0 ≤ r → h !! r = Some (OList []) →
  Forall2 (contributor_at h0) vs cs →
  wp (for_each vs (keep_if_complete r)) h (λ _ h',
    keeps h0 h'
    ∧ ∃ elems,
        h' !! r = Some (OList elems)
        ∧ Forall (λ v, v ∈ vs) elems
        ∧ Forall2 (contributor_at h0) elems
            (filter (λ x, ContributorClass.is_hacktoberfest_complete x = true)
               cs)).
Proof.
  intros Hk Hr Hacc Hcs.
  apply (wp_for_each (λ rem h',
    keeps h0 h'
    ∧ ∃ acc' seen done' rem_pure,
        h' !! r = Some (OList acc')
        ∧ Forall2 (contributor_at h0) rem rem_pure
        ∧ Forall (λ v, v ∈ seen) acc'
        ∧ Forall2 (contributor_at h0) acc'
            (filter (λ x, ContributorClass.is_hacktoberfest_complete x = true)
               done')
        ∧ seen ++ rem = vs
        ∧ done' ++ rem_pure = cs)).
  - split; [done|]. exists [], [], [], cs.
    split_and!; [done|done|constructor|constructor|done|done].
  - intros x xs' h1
      (Hk1 & acc1 & seen & done1 & rem_pure & Hacc1 & Hrem & Hseen & Hd1
       & Hvs & Heq).
    apply Forall2_cons_inv_l in Hrem as (p & ps & Hx & Hxs & ->).
    eapply wp_mono; [by apply (wp_keep_if_complete h0 h1 r x p acc1)|].
    intros [] h2 (Hk2 & Hacc2 & _). split; [done|].
    eexists _, (seen ++ [x]), (done1 ++ [p]), ps.
    split_and!; [exact Hacc2|done| | |by rewrite <- app_assoc
                |by rewrite <- app_assoc].
    + apply Forall_app. split.
      * eapply Forall_impl; [exact Hseen|]. intros v Hv.
        apply elem_of_app. by left.
      * destruct (ContributorClass.is_hacktoberfest_complete p);
          [|constructor].
        constructor; [|constructor]. apply elem_of_app. right. left.
    + rewrite filter_complete_snoc. apply Forall2_app; [done|].
      destruct (ContributorClass.is_hacktoberfest_complete p);
        constructor; [done|constructor].
  - intros h1
      (Hk1 & acc1 & seen & done1 & rem_pure & Hacc1 & Hrem & Hseen & Hd1
       & Hvs & Heq).
    apply Forall2_nil_inv_l in Hrem as ->.
    rewrite app_nil_r in Hvs, Heq. subst seen done1. eauto.
Qed.

(** X25. [get_all_contributors] and [get_completed_contributors], run
    on a store that holds the tracker, change no object that was there
    and return a list made by the call; the elements of that list are
    the contributor objects the tracker's dict refers to (all of them in
    the order of the collection, or those with Hacktoberfest completed),
    not copies of them. *)
Theorem contributor_lists_share_objects
    (h : list Heap.object) (self : nat) (t : ProjectTracker)
    (name : string) (ld : nat) (created : datetime)
    (items : list (string * Heap.val)) :
  Heap.tracker_at h self t →
  h !! self = Some (Heap.OTracker name ld created) →
  h !! ld = Some (Heap.ODict items) →
  Heap.wp (Heap.get_all_contributors self) h (λ r h',
    r = length h ∧ Heap.keeps h h'
    ∧ h' !! r = Some (Heap.OList (dict_values items))
    ∧ Forall2 (Heap.contributor_at h) (dict_values items) (all_of t))
  ∧ Heap.wp (Heap.get_completed_contributors self) h (λ r h',
      r = length h ∧ Heap.keeps h h'
      ∧ ∃ elems,
          h' !! r = Some (Heap.OList elems)
          ∧ Forall (λ v, v ∈ dict_values items) elems
          ∧ Forall2 (Heap.contributor_at h) elems (completed_of t)).
Proof.
  intros (ld' & items' & Hself' & Hld' & Hkeys & Hcs) Hself Hld.
  assert (ld' = ld) as -> by congruence.
  assert (items' = items) as -> by congruence.
  split.
  - unfold Heap.get_all_contributors.
    apply wp_bind. unfold tracker_contributors. apply wp_bind.
    eapply wp_load; [done|]. apply wp_ret.
    apply wp_bind. unfold dict_values_of. apply wp_bind.
    eapply wp_load_dict; [done|]. apply wp_ret. apply wp_alloc.
    split_and!; [done|apply keeps_alloc, keeps_refl
                |apply lookup_alloc_new|done].
  - unfold Heap.get_completed_contributors.
    apply wp_bind. unfold tracker_contributors. apply wp_bind.
    eapply wp_load; [done|]. apply wp_ret.
    apply wp_bind. unfold dict_values_of. apply wp_bind.
    eapply wp_load_dict; [done|]. apply wp_ret.
    apply wp_bind, wp_alloc. apply wp_bind.
    eapply wp_mono.
    { apply (wp_completed_loop h _ (length h) _
               (dict_values (contributors t)));
        [apply keeps_alloc, keeps_refl|done|apply lookup_alloc_new|done]. }
    intros [] h1 (Hk & elems & Helems & Hin & Hc). apply wp_ret.
    split_and!; [done|done|]. by exists elems.
Qed.

End ContributorLists.

Lemma contributor_lists_share_objects_witness :
  Heap.tracker_at Sample.store Sample.self Sample.tracker3
  ∧ Heap.wp (Heap.get_completed_contributors Sample.self) Sample.store
      (λ r h', r = length Sample.store ∧ Heap.keeps Sample.store h').
Proof.
  assert (Ht : Heap.tracker_at Sample.store Sample.self Sample.tracker3).
  { exact (proj2 (wp_alloc_tracker [] Sample.tracker3)). }
  split; [exact Ht|].
  eapply wp_mono.
  - exact (proj2 (contributor_lists_share_objects Sample.store Sample.self
                    Sample.tracker3 _ _ _ _ Ht eq_refl eq_refl)).
  - intros r h' (Hr & Hk & _). split; [exact Hr | exact Hk].
Defined.
